(** * Nuvira (SQON): the validation compiler, the document orchestrator and
      the runtime validator, embedded from the JavaScript sources.

    - [Js]          the JavaScript built-ins the sources rely on
                    (string methods, fixed regular expressions, [Number],
                    [parseFloat], [BigInt], objects as ordered maps);
    - [Validation]  [SQONValidation] (extends/parseValidation.js);
    - [Parser]      [SQON] (dist/cjs/parser.js);
    - [Validator]   [Validator] (extends/validator.js).

    Strings are byte strings; the documents of interest are ASCII text, so
    white space is the ASCII white space and [length] counts characters.
    Property names are ordinary names: members inherited from
    [Object.prototype] are only represented for the rule table lookup
    ([Js.ProtoMember]), and integer-like keys keep their insertion order. *)

From Stdlib Require Import String Ascii List Bool Arith ZArith Lia.
From Stdlib Require DecimalString.
Import ListNotations.
Local Open Scope string_scope.
Local Open Scope list_scope.

Set Implicit Arguments.
Set Warnings "-register-all".

Notation "a ^^ b" := (String.append a b) (at level 60, right associativity).

(* ===================================================================== *)
(** * JavaScript built-ins                                                *)
(* ===================================================================== *)

Module Js.

(** ** Completion records: a call returns or throws. *)

Inductive JsError : Type :=
| TypeError
| SyntaxError
| Error (message : string).

Inductive Exc (A : Type) : Type :=
| Ret (a : A)
| Throw (e : JsError).
Arguments Throw {A} e.

Definition bind {A B} (c : Exc A) (k : A -> Exc B) : Exc B :=
  match c with
  | Ret a => k a
  | Throw e => Throw e
  end.

Notation "x <- c ;; k" := (bind c (fun x => k))
  (at level 61, c at next level, right associativity).

(** [forEach]/[for ... of] over a list with a state, stopping at a throw. *)
Fixpoint foldExc {A S} (f : S -> A -> Exc S) (l : list A) (s : S) : Exc S :=
  match l with
  | [] => Ret s
  | a :: l' => s' <- f s a ;; foldExc f l' s'
  end.

(** ** Characters and strings *)

Definition dq : ascii := ascii_of_nat 34.

(** A string between two double quotes. *)
Definition quoted (s : string) : string := String dq (s ^^ String dq "").

Definition chars (s : string) : list ascii := list_ascii_of_string s.
Definition str (l : list ascii) : string := string_of_list_ascii l.

(** The white space of the ASCII range. Texts are strings of bytes here:
    the further white space that [trim] of JavaScript strips (U+00A0,
    U+FEFF, the Unicode space separators) is outside the model, which is
    that of the code on ASCII text. *)
Definition isSpace (c : ascii) : bool :=
  let n := nat_of_ascii c in
  ((n =? 32) || ((9 <=? n) && (n <=? 13)))%nat.

Definition isDigit (c : ascii) : bool :=
  let n := nat_of_ascii c in ((48 <=? n) && (n <=? 57))%nat.

Definition isUpper (c : ascii) : bool :=
  let n := nat_of_ascii c in ((65 <=? n) && (n <=? 90))%nat.

Definition isLower (c : ascii) : bool :=
  let n := nat_of_ascii c in ((97 <=? n) && (n <=? 122))%nat.

Definition isAlphaChar (c : ascii) : bool := isUpper c || isLower c.

(** [\w] *)
Definition isWord (c : ascii) : bool :=
  isAlphaChar c || isDigit c || (nat_of_ascii c =? 95)%nat.

Fixpoint dropWhile (p : ascii -> bool) (l : list ascii) : list ascii :=
  match l with
  | [] => []
  | c :: l' => if p c then dropWhile p l' else l
  end.

Fixpoint takeWhile (p : ascii -> bool) (l : list ascii) : list ascii :=
  match l with
  | [] => []
  | c :: l' => if p c then c :: takeWhile p l' else []
  end.

Definition trimStart (l : list ascii) : list ascii := dropWhile isSpace l.
Definition trimEnd (l : list ascii) : list ascii :=
  List.rev (dropWhile isSpace (List.rev l)).

(** [s.trim()] *)
Definition trim (s : string) : string := str (trimEnd (trimStart (chars s))).

(** [s.startsWith(p)] *)
Definition startsWith (s p : string) : bool := String.prefix p s.

(** [s.endsWith(p)] *)
Definition endsWith (s p : string) : bool :=
  String.prefix (str (List.rev (chars p))) (str (List.rev (chars s))).

(** [s.includes(p)] *)
Fixpoint includes (s p : string) : bool :=
  String.prefix p s ||
  match s with
  | EmptyString => false
  | String _ s' => includes s' p
  end.

(** [s.slice(1, -1)] *)
Definition slice_1_m1 (s : string) : string :=
  String.substring 1 (String.length s - 2) s.

(** [s.split(sep)] for a non-empty separator: the pieces between the
    occurrences of [sep], scanned left to right; always at least one piece.
    [cur] is the piece being read (reversed), [skip] the characters of a
    separator still to pass. *)
Fixpoint split_go (sep : string) (s : string) (cur : list ascii) (skip : nat)
  : list string :=
  match s with
  | EmptyString => [str (List.rev cur)]
  | String c s' =>
      match skip with
      | S k => split_go sep s' cur k
      | O =>
          if String.prefix sep s
          then str (List.rev cur) :: split_go sep s' [] (String.length sep - 1)
          else split_go sep s' (c :: cur) 0
      end
  end.

Definition split (s sep : string) : list string := split_go sep s [] 0.

(** [l.join(sep)] *)
Definition join (l : list string) (sep : string) : string :=
  String.concat sep l.

(** [l.includes(x)] on an array of strings *)
Definition arrIncludes (l : list string) (x : string) : bool :=
  existsb (String.eqb x) l.

(** The decimal text of an index, as a template literal prints it. *)
Definition natToString (n : nat) : string :=
  DecimalString.NilEmpty.string_of_uint (Nat.to_uint n).

(** Every array and every object, the empty ones too, is truthy. *)
Definition truthyArray {A} (a : list A) : bool := true.
Definition truthyObject {A} (o : A) : bool := true.

(** ** Regular expressions

    The fixed patterns of the sources are all of the form [^...$] without
    the multiline flag, so [test] is a whole-string match. Matching is by
    derivatives. *)

Inductive re : Type :=
| Void
| Eps
| Cls (p : ascii -> bool)
| Cat (a b : re)
| Alt (a b : re)
| Star (a : re).

Fixpoint nullable (r : re) : bool :=
  match r with
  | Void => false
  | Eps => true
  | Cls _ => false
  | Cat a b => nullable a && nullable b
  | Alt a b => nullable a || nullable b
  | Star _ => true
  end.

Definition cat (a b : re) : re :=
  match a, b with
  | Void, _ => Void
  | _, Void => Void
  | Eps, _ => b
  | _, Eps => a
  | _, _ => Cat a b
  end.

Definition alt (a b : re) : re :=
  match a, b with
  | Void, _ => b
  | _, Void => a
  | _, _ => Alt a b
  end.

Fixpoint deriv (c : ascii) (r : re) : re :=
  match r with
  | Void => Void
  | Eps => Void
  | Cls p => if p c then Eps else Void
  | Cat a b =>
      if nullable a then alt (cat (deriv c a) b) (deriv c b)
      else cat (deriv c a) b
  | Alt a b => alt (deriv c a) (deriv c b)
  | Star a => cat (deriv c a) (Star a)
  end.

Fixpoint matchesFrom (r : re) (l : list ascii) : bool :=
  match l with
  | [] => nullable r
  | c :: l' => matchesFrom (deriv c r) l'
  end.

(** [/^r$/.test(s)] *)
Definition test (r : re) (s : string) : bool := matchesFrom r (chars s).

Definition chr (c : ascii) : re := Cls (Ascii.eqb c).
Definition oneOf (s : string) : re :=
  Cls (fun c => existsb (Ascii.eqb c) (chars s)).
Definition noneOf (p : ascii -> bool) : re := Cls (fun c => negb (p c)).
Definition anyChar : re := Cls (fun _ => true).
Definition digit : re := Cls isDigit.
Definition plus (r : re) : re := Cat r (Star r).
Definition opt (r : re) : re := Alt Eps r.

Fixpoint lit (s : string) : re :=
  match s with
  | EmptyString => Eps
  | String c s' => Cat (chr c) (lit s')
  end.

(** A literal under the [i] flag. *)
Definition toLower (c : ascii) : ascii :=
  if isUpper c then ascii_of_nat (nat_of_ascii c + 32) else c.

Fixpoint liti (s : string) : re :=
  match s with
  | EmptyString => Eps
  | String c s' =>
      Cat (Cls (fun x => Ascii.eqb (toLower x) (toLower c))) (liti s')
  end.

Fixpoint times (n : nat) (r : re) : re :=
  match n with
  | O => Eps
  | S n' => Cat r (times n' r)
  end.

(** [r{n,m}] with [m = n + extra] *)
Fixpoint upTo (extra : nat) (r : re) : re :=
  match extra with
  | O => Eps
  | S k => opt (Cat r (upTo k r))
  end.

Definition between (n extra : nat) (r : re) : re :=
  Cat (times n r) (upTo extra r).

Definition alts (l : list re) : re := fold_right Alt Void l.
Definition seq (l : list re) : re := fold_right Cat Eps l.

(** The words of a pattern. *)
Inductive Matches : re -> list ascii -> Prop :=
| MEps : Matches Eps []
| MCls p c : p c = true -> Matches (Cls p) [c]
| MCat a b s t : Matches a s -> Matches b t -> Matches (Cat a b) (s ++ t)
| MAltL a b s : Matches a s -> Matches (Alt a b) s
| MAltR a b s : Matches b s -> Matches (Alt a b) s
| MStarNil a : Matches (Star a) []
| MStarApp a s t :
    Matches a s -> Matches (Star a) t -> Matches (Star a) (s ++ t).

(** ** Numbers

    A Number is represented by the decimal it was read from: [JDec m e] is
    the double nearest to [m * 10^e]. *)

Inductive JsNumber : Type :=
| JNaN
| JInf (negative : bool)
| JDec (m e : Z).

Definition isNaN (x : JsNumber) : bool :=
  match x with JNaN => true | _ => false end.

Definition digitVal (c : ascii) : Z :=
  let n := nat_of_ascii c in
  if isDigit c then Z.of_nat (n - 48)
  else if isUpper c then Z.of_nat (n - 55)
  else Z.of_nat (n - 87).

Definition radixVal (base : Z) (l : list ascii) : Z :=
  fold_left (fun acc c => (base * acc + digitVal c)%Z) l 0%Z.

Definition hexDigit : re := Cls (fun c => isDigit c ||
  existsb (Ascii.eqb c) (chars "abcdefABCDEF")).

Definition reExponent : re :=
  seq [oneOf "eE"; opt (oneOf "+-"); plus digit].

(** Digits with an optional fraction, or a fraction alone, then an
    optional exponent. *)
Definition reUnsignedDecimal : re :=
  Alt (seq [plus digit; opt (Cat (chr ".") (Star digit)); opt reExponent])
      (seq [chr "."; plus digit; opt reExponent]).

Definition reStrDecimalLiteral : re :=
  Cat (opt (oneOf "+-")) (Alt (lit "Infinity") reUnsignedDecimal).

Definition reNonDecimalInteger : re :=
  alts [ seq [chr "0"; oneOf "xX"; plus hexDigit];
         seq [chr "0"; oneOf "oO"; plus (oneOf "01234567")];
         seq [chr "0"; oneOf "bB"; plus (oneOf "01")] ].

(** The strings [Number(s)] converts to a number: white space around
    nothing, a signed decimal literal or an unsigned 0x/0o/0b literal. *)
Definition reStringNumericLiteral : re :=
  seq [Star (Cls isSpace);
       opt (Alt reStrDecimalLiteral reNonDecimalInteger);
       Star (Cls isSpace)].

(** [isNaN(Number(s))] *)
Definition Number_isNaN (s : string) : bool :=
  negb (test reStringNumericLiteral s).

Definition readSign (l : list ascii) : bool * list ascii :=
  match l with
  | c :: t =>
      if Ascii.eqb c "-" then (true, t)
      else if Ascii.eqb c "+" then (false, t)
      else (false, l)
  | [] => (false, l)
  end.

Definition signed (negative : bool) (z : Z) : Z :=
  if negative then (- z)%Z else z.

(** [parseFloat(s)]: the longest prefix of [s], after leading white space,
    that is a signed decimal literal; NaN when there is none. *)
Definition parseFloat (s : string) : JsNumber :=
  let '(neg, l1) := readSign (trimStart (chars s)) in
  if String.prefix "Infinity" (str l1) then JInf neg
  else
    let ip := takeWhile isDigit l1 in
    let l2 := dropWhile isDigit l1 in
    let '(fp, l3) :=
      match l2 with
      | c :: t =>
          if Ascii.eqb c "." then (takeWhile isDigit t, dropWhile isDigit t)
          else ([], l2)
      | [] => ([], l2)
      end in
    match ip ++ fp with
    | [] => JNaN
    | ds =>
        let ex :=
          match l3 with
          | c :: t =>
              if Ascii.eqb c "e" || Ascii.eqb c "E" then
                let '(eneg, t1) := readSign t in
                match takeWhile isDigit t1 with
                | [] => 0%Z
                | es => signed eneg (radixVal 10 es)
                end
              else 0%Z
          | [] => 0%Z
          end in
        JDec (signed neg (radixVal 10 ds)) (ex - Z.of_nat (length fp))
    end.

(** [BigInt(s)]: white space around nothing, a signed run of decimal
    digits or an unsigned 0x/0o/0b literal; anything else is a
    SyntaxError. *)
Definition BigInt (s : string) : Exc Z :=
  let t := trim s in
  if t =? "" then Ret 0%Z
  else if test (Cat (opt (oneOf "+-")) (plus digit)) t then
    let '(neg, ds) := readSign (chars t) in
    Ret (signed neg (radixVal 10 ds))
  else if test reNonDecimalInteger t then
    match chars t with
    | _ :: c :: ds =>
        Ret (radixVal (if Ascii.eqb (toLower c) "x" then 16
                       else if Ascii.eqb (toLower c) "o" then 8
                       else 2) ds)
    | _ => Throw SyntaxError
    end
  else Throw SyntaxError.

Definition MAX_SAFE_INTEGER : Z := 2 ^ 53 - 1.
Definition MIN_SAFE_INTEGER : Z := - (2 ^ 53 - 1).

(** [2 * m * 10^e >= b] *)
Definition twiceAtLeast (m e b : Z) : bool :=
  if (0 <=? e)%Z then (b <=? 2 * m * 10 ^ e)%Z
  else (b * 10 ^ (- e) <=? 2 * m)%Z.

(** [x > Number.MAX_SAFE_INTEGER]. [2^53 - 1] and [2^53] are adjacent
    doubles and the tie between them rounds to the even [2^53], so the
    double nearest to [m * 10^e] exceeds [2^53 - 1] exactly when
    [m * 10^e >= 2^53 - 1/2]. *)
Definition gtMaxSafe (x : JsNumber) : bool :=
  match x with
  | JNaN => false
  | JInf negative => negb negative
  | JDec m e => twiceAtLeast m e (2 * MAX_SAFE_INTEGER + 1)
  end.

(** [x < Number.MIN_SAFE_INTEGER], symmetrically. *)
Definition ltMinSafe (x : JsNumber) : bool :=
  match x with
  | JNaN => false
  | JInf negative => negative
  | JDec m e => twiceAtLeast (- m) e (2 * MAX_SAFE_INTEGER + 1)
  end.

(** ** Values and objects *)

(** A plain object: its own properties in insertion order. *)
Definition Obj (A : Type) : Type := list (string * A).

Fixpoint objGet {A} (o : Obj A) (k : string) : option A :=
  match o with
  | [] => None
  | (k', v) :: o' => if k' =? k then Some v else objGet o' k
  end.

(** Define or overwrite an own property; an existing key keeps its place. *)
Fixpoint objSet {A} (o : Obj A) (k : string) (v : A) : Obj A :=
  match o with
  | [] => [(k, v)]
  | (k', v') :: o' =>
      if k' =? k then (k, v) :: o' else (k', v') :: objSet o' k v
  end.

(** [o[k] = v]: on a plain object the key [__proto__] names the prototype
    accessor, so that assignment creates no own property. *)
Definition objAssign {A} (o : Obj A) (k : string) (v : A) : Obj A :=
  if k =? "__proto__" then o else objSet o k v.

Definition objKeys {A} (o : Obj A) : list string := map fst o.

(** [{ ...a, ...b }] *)
Definition objSpread {A} (a b : Obj A) : Obj A :=
  fold_left (fun o kv => objSet o (fst kv) (snd kv)) b a.

(** The members every plain object inherits from [Object.prototype]. *)
Definition protoMembers : list string :=
  [ "constructor"; "__defineGetter__"; "__defineSetter__"; "hasOwnProperty";
    "__lookupGetter__"; "__lookupSetter__"; "isPrototypeOf";
    "propertyIsEnumerable"; "toString"; "valueOf"; "__proto__";
    "toLocaleString" ].

(** [o[k]] read on a plain object. *)
Inductive Lookup (A : Type) : Type :=
| Own (a : A)
| ProtoMember
| Missing.
Arguments ProtoMember {A}.
Arguments Missing {A}.

Definition objRead {A} (o : Obj A) (k : string) : Lookup A :=
  match objGet o k with
  | Some a => Own a
  | None => if arrIncludes protoMembers k then ProtoMember else Missing
  end.

Inductive JsValue : Type :=
| JUndefined
| JNull
| JBool (b : bool)
| JNum (x : JsNumber)
| JBigInt (z : Z)
| JStr (s : string)
| JDate (time : option Z)
| JBuffer (bytes : list Z)
| JUint8Array (bytes : list Z)
| JArr (items : list JsValue)
| JObj (props : list (string * JsValue)).

Definition isArray (v : JsValue) : bool :=
  match v with JArr _ => true | _ => false end.

(** [typeof v] *)
Definition typeof (v : JsValue) : string :=
  match v with
  | JUndefined => "undefined"
  | JBool _ => "boolean"
  | JNum _ => "number"
  | JBigInt _ => "bigint"
  | JStr _ => "string"
  | _ => "object"
  end.

(** What the sources leave to the platform: coercions, the relational
    operators on arbitrary values, [Date] and dynamic [RegExp]. *)
Record Platform : Type := {
  (** [String(v)], as template literals, [join] and [test] apply it *)
  toStringOf : JsValue -> string;
  (** the time value of [new Date(v)]; [None] when it is NaN *)
  newDate : JsValue -> option Z;
  (** the time value of [new Date(year, month, day)] for the month that
      [new Date(name + " 1").getMonth()] gives *)
  dateFromParts : Z -> string -> Z -> option Z;
  lessThan : JsValue -> JsValue -> bool;
  lessEq : JsValue -> JsValue -> bool;
  greaterThan : JsValue -> JsValue -> bool;
  greaterEq : JsValue -> JsValue -> bool;
  (** SameValueZero, the equality of [Set] and [Array.prototype.includes] *)
  sameValueZero : JsValue -> JsValue -> bool;
  (** [k in v] for an object [v] *)
  hasProperty : JsValue -> JsValue -> bool;
  (** [new RegExp(p).test(s)]; [None] when the pattern is rejected *)
  regExpTest : JsValue -> string -> option bool;
  (** [b.includes(v)] for a Buffer or a Uint8Array [b] *)
  bytesInclude : JsValue -> JsValue -> Exc bool
}.

(** [v[k]]: reading a property of undefined or null throws; an object
    gives its own property, an array, a string or a byte array its
    [length] and its elements; everything else is undefined. *)
Definition ofNat (n : nat) : JsValue := JNum (JDec (Z.of_nat n) 0).

Definition indexOf (k : string) : option nat :=
  if test (plus digit) k then
    let n := Z.to_nat (radixVal 10 (chars k)) in
    if natToString n =? k then Some n else None
  else None.

Definition elementAt {A} (l : list A) (k : string) (inj : A -> JsValue)
  : JsValue :=
  if k =? "length" then ofNat (length l)
  else match indexOf k with
       | Some i => match nth_error l i with
                   | Some x => inj x
                   | None => JUndefined
                   end
       | None => JUndefined
       end.

(** [v[k]], read among the own properties: a member that a value
    inherits from its prototype ([constructor], [toString], ...) is read
    as undefined, so the model is that of the code on keys that are no
    such names. *)
Definition getProp (v : JsValue) (k : string) : Exc JsValue :=
  match v with
  | JUndefined | JNull => Throw TypeError
  | JObj o => Ret (match objGet o k with Some x => x | None => JUndefined end)
  | JArr l => Ret (elementAt l k (fun x => x))
  | JStr s => Ret (elementAt (chars s) k (fun c => JStr (String c "")))
  | JBuffer b | JUint8Array b =>
      Ret (elementAt b k (fun z => JNum (JDec z 0)))
  | _ => Ret JUndefined
  end.

(** [v?.[k]] *)
Definition getPropOpt (v : JsValue) (k : string) : Exc JsValue :=
  match v with
  | JUndefined | JNull => Ret JUndefined
  | _ => getProp v k
  end.

(** A platform to run examples on: integers compare by value and print in
    decimal, nothing else is ordered, no text is a date and no dynamic
    pattern compiles. *)
Definition asInteger (v : JsValue) : option Z :=
  match v with
  | JNum (JDec m 0) => Some m
  | _ => None
  end.

Definition compareIntegers (rel : Z -> Z -> bool) (a b : JsValue) : bool :=
  match asInteger a, asInteger b with
  | Some x, Some y => rel x y
  | _, _ => false
  end.

Definition sameScalar (a b : JsValue) : bool :=
  match a, b with
  | JUndefined, JUndefined => true
  | JNull, JNull => true
  | JBool x, JBool y => Bool.eqb x y
  | JStr x, JStr y => x =? y
  | _, _ => compareIntegers Z.eqb a b
  end.

Definition integerPlatform : Platform := {|
  toStringOf := fun v =>
    match v with
    | JUndefined => "undefined"
    | JNull => "null"
    | JBool true => "true"
    | JBool false => "false"
    | JNum (JDec m 0) =>
        if (m <? 0)%Z then "-" ^^ natToString (Z.to_nat (- m))
        else natToString (Z.to_nat m)
    | _ => ""
    end;
  newDate := fun _ => None;
  dateFromParts := fun _ _ _ => None;
  lessThan := compareIntegers Z.ltb;
  lessEq := compareIntegers Z.leb;
  greaterThan := compareIntegers Z.gtb;
  greaterEq := compareIntegers Z.geb;
  sameValueZero := sameScalar;
  hasProperty := fun k v =>
    match k, v with
    | JStr name, JObj o =>
        match objGet o name with Some _ => true | None => false end
    | _, _ => false
    end;
  regExpTest := fun _ _ => None;
  bytesInclude := fun _ _ => Throw TypeError
|}.

(** [String(v)]: a string is itself. *)
Definition toStr (P : Platform) (v : JsValue) : string :=
  match v with
  | JStr s => s
  | _ => toStringOf P v
  end.

End Js.

(* ===================================================================== *)
(** * The validation compiler: [SQONValidation]                           *)
(* ===================================================================== *)

Module Validation.
Import Js.

Record Diagnostic : Type := mkDiagnostic {
  line : option nat;
  message : string
}.

(** A node of the compiled schema, as [getSchemaType] reads it: [type] is
    the array of type names, [properties] and [items] are indexed by field
    name. *)
Inductive SchemaNode : Type :=
| mkSchemaNode (type : list string)
               (properties : option (list (string * SchemaNode)))
               (items : option (list (string * SchemaNode))).

Definition Schema : Type := Obj SchemaNode.

Definition type (n : SchemaNode) : list string :=
  match n with mkSchemaNode t _ _ => t end.
Definition properties (n : SchemaNode) : option Schema :=
  match n with mkSchemaNode _ p _ => p end.
Definition items (n : SchemaNode) : option Schema :=
  match n with mkSchemaNode _ _ i => i end.

(** The rules of one line: rule name to rule value. *)
Definition Rules : Type := Obj JsValue.

(** A node of [validations]: the [rules] property, when it has been set,
    and the nested nodes, which the source keeps as sibling properties (a
    path segment is taken not to be the word [rules] itself). *)
Inductive RuleNode : Type :=
| mkRuleNode (rules : option Rules) (children : list (string * RuleNode)).

Definition RuleSet : Type := Obj RuleNode.

Definition rules (n : RuleNode) : option Rules :=
  match n with mkRuleNode r _ => r end.
Definition children (n : RuleNode) : RuleSet :=
  match n with mkRuleNode _ c => c end.

(** What [parseValue] returns: [{ value, type }] or
    [{ error, type: 'error' }]. *)
Inductive ParsedValue : Type :=
| Parsed (value : JsValue) (type : string)
| ParseError (error : string).

Definition parsedToJs (p : ParsedValue) : JsValue :=
  match p with
  | Parsed v t => JObj [("value", v); ("type", JStr t)]
  | ParseError e => JObj [("error", JStr e); ("type", JStr "error")]
  end.

Definition kind (p : ParsedValue) : string :=
  match p with
  | Parsed _ t => t
  | ParseError _ => "error"
  end.

(** The fixed patterns of [isValidDate], in order. *)
Definition ordinalSuffix (caseless : bool) : re :=
  let l := if caseless then liti else lit in
  opt (alts [l "st"; l "nd"; l "rd"; l "th"]).

Definition reDayMonthYear (caseless : bool) : re :=
  seq [between 1 1 digit; ordinalSuffix caseless; plus (Cls isSpace);
       plus (Cls isWord); plus (Cls isSpace); times 4 digit].

Definition amPm : re := opt (Cat (oneOf "AP") (chr "M")).

Definition dateFormats : list re :=
  [ reDayMonthYear true;
    seq [between 1 1 digit; oneOf "/-"; between 1 1 digit; oneOf "/-";
         between 2 2 digit];
    seq [times 4 digit; oneOf "/-"; between 1 1 digit; oneOf "/-";
         between 1 1 digit];
    seq [between 1 1 digit; chr ":"; times 2 digit; chr ":"; times 2 digit;
         amPm];
    seq [between 1 1 digit; chr ":"; times 2 digit; amPm];
    times 10 digit;
    times 13 digit;
    seq [times 4 digit; chr "-"; times 2 digit; chr "-"; times 2 digit;
         chr "T"; times 2 digit; chr ":"; times 2 digit; chr ":";
         times 2 digit; opt (Cat (chr ".") (plus digit));
         opt (Alt (chr "Z")
                  (seq [oneOf "+-"; times 2 digit; chr ":"; times 2 digit]))]
  ].

(** The day, month name and year that the ordinal pattern of [parseDate]
    captures from a string it matches. *)
Definition ordinalParts (value : string) : Z * string * Z :=
  let l := chars value in
  let day := takeWhile isDigit l in
  let afterDay := dropWhile isDigit l in
  let afterSuffix :=
    dropWhile isSpace (dropWhile (fun c => negb (isSpace c)) afterDay) in
  let month := takeWhile isWord afterSuffix in
  let year := dropWhile isSpace (dropWhile isWord afterSuffix) in
  (radixVal 10 day, str month, radixVal 10 year).

Section Compiler.

Variable P : Platform.

(** [isValidDate(value)]: one of the fixed patterns matches the text of
    [value], or [new Date(value)] is a valid date. *)
Definition isValidDate (value : JsValue) : bool :=
  let matchesRegex := existsb (fun format => test format (toStr P value))
                              dateFormats in
  if matchesRegex then true
  else match newDate P value with Some _ => true | None => false end.

(** [parseDate(value)]: a [Date], or [null] ([None]). *)
Definition parseDate (value : string) : option JsValue :=
  if test (reDayMonthYear false) value then
    let '(day, month, year) := ordinalParts value in
    Some (JDate (dateFromParts P year month day))
  else
    match newDate P (JStr value) with
    | Some t => Some (JDate (Some t))
    | None => None
    end.

Definition dqs : string := String dq "".

Definition parseValue (value : string) : Exc ParsedValue :=
  if value =? "" then Ret (Parsed JUndefined "undefined")
  else if startsWith value dqs && endsWith value dqs then
    let valueToStore := slice_1_m1 value in
    Ret (Parsed (if valueToStore =? "" then JUndefined else JStr valueToStore)
                (if valueToStore =? "" then "undefined" else "String"))
  else if startsWith value "<Buffer" && endsWith value ">" then
    Ret (Parsed (JStr value) "Binary")
  else if startsWith value "Uint8Array[" && endsWith value "]" then
    Ret (Parsed (JStr value) "Uint8Array")
  else if negb (Number_isNaN value) && negb (isNaN (parseFloat value))
          && negb (startsWith value "0x") then
    let numberValue := parseFloat value in
    if gtMaxSafe numberValue || ltMinSafe numberValue then
      z <- BigInt value ;;
      Ret (Parsed (JBigInt z) "Number")
    else Ret (Parsed (JNum numberValue) "Number")
  else if value =? "TRUE" then Ret (Parsed (JBool true) "Boolean")
  else if value =? "FALSE" then Ret (Parsed (JBool false) "Boolean")
  else if value =? "NULL" then Ret (Parsed JNull "Null")
  else if value =? "undefined" then Ret (Parsed JUndefined "undefined")
  else if isValidDate (JStr value) then
    match parseDate value with
    | Some d => Ret (Parsed d "Date")
    | None => Ret (ParseError ("Invalid date format: '" ^^ value ^^ "'."))
    end
  else Ret (ParseError ("Invalid value format: '" ^^ value ^^ "'.")).

Definition parseArray (content : string) : JsValue :=
  JArr (map (fun item => JStr (trim item)) (split content ",")).

(** One pair of [parseObject]. A pair without a colon leaves [value]
    undefined, and [parseValue] then throws at [value.startsWith]. *)
Definition parsePair (obj : Obj JsValue) (pair : string) : Exc (Obj JsValue) :=
  let kv := map trim (split pair ":") in
  let key := nth 0 kv "" in
  let parsedKey :=
    if startsWith key dqs && endsWith key dqs then slice_1_m1 key else key in
  match nth_error kv 1 with
  | None => Throw TypeError
  | Some value =>
      v <- parseValue value ;;
      Ret (objAssign obj parsedKey (parsedToJs v))
  end.

Definition parseObject (content : string) : Exc JsValue :=
  obj <- foldExc parsePair (map trim (split content ",")) [] ;;
  Ret (JObj obj).

(** The state the rule loops work on: the rules read so far and
    [this.errors]. *)
Definition RuleState : Type := (Rules * list Diagnostic)%type.

Definition invalidFormat (position : nat) (ruleName rule : string)
  : Diagnostic :=
  mkDiagnostic (Some (position + 1))
    ("Invalid format for value of '" ^^ ruleName ^^ "' in '" ^^ rule ^^ "'").

Definition reInteger : re := plus digit.
Definition reFloat : re := seq [plus digit; chr "."; plus digit].

(** [parseInt(s, 10)] on a run of digits *)
Definition parseInt10 (s : string) : JsNumber := JDec (radixVal 10 (chars s)) 0.

(** The branch of [parseRules] for the rule name [default]. An absent
    value (a clause without [=]) fails the comparisons and both patterns,
    which test the text [undefined], and [ruleValue.startsWith] throws. *)
Definition defaultBranch (position : nat) (ruleName : string)
  (ruleValue : option string) (rule : string) (st : RuleState)
  : Exc RuleState :=
  let '(rules, errors) := st in
  match ruleValue with
  | None => Throw TypeError
  | Some ruleValue =>
    if ruleValue =? "TRUE" then
      Ret (objAssign rules ruleName (JBool true), errors)
    else if ruleValue =? "FALSE" then
      Ret (objAssign rules ruleName (JBool false), errors)
    else if ruleValue =? "NULL" then
      Ret (objAssign rules ruleName JNull, errors)
    else if ruleValue =? "undefined" then
      Ret (objAssign rules ruleName JUndefined, errors)
    else if test reInteger ruleValue then
      Ret (objAssign rules ruleName (JNum (parseInt10 ruleValue)), errors)
    else if test reFloat ruleValue then
      Ret (objAssign rules ruleName (JNum (parseFloat ruleValue)), errors)
    else if startsWith ruleValue "[" && endsWith ruleValue "]" then
      let arrayContent := trim (slice_1_m1 ruleValue) in
      Ret (objAssign rules ruleName
             (if arrayContent =? "" then JArr [] else parseArray arrayContent),
           errors)
    else if startsWith ruleValue "{" && endsWith ruleValue "}" then
      let objectContent := trim (slice_1_m1 ruleValue) in
      v <- (if objectContent =? "" then Ret (JObj [])
            else parseObject objectContent) ;;
      Ret (objAssign rules ruleName v, errors)
    else if startsWith ruleValue dqs && endsWith ruleValue dqs then
      Ret (objAssign rules ruleName (JStr (slice_1_m1 ruleValue)), errors)
    else
      Ret (rules, errors ++ [invalidFormat position ruleName rule])
  end.

(** The branch of [parseRules] for every other rule name. *)
Definition otherBranch (position : nat) (ruleName : string)
  (ruleValue : option string) (rule : string) (st : RuleState)
  : Exc RuleState :=
  let '(rules, errors) := st in
  match ruleValue with
  | None => Throw TypeError
  | Some ruleValue =>
    if (ruleValue =? "true") || (ruleValue =? "false") then
      Ret (objAssign rules ruleName (JBool (ruleValue =? "true")), errors)
    else if ruleValue =? "null" then
      Ret (objAssign rules ruleName JNull, errors)
    else if ruleValue =? "undefined" then
      Ret (objAssign rules ruleName JUndefined, errors)
    else if test reInteger ruleValue then
      Ret (objAssign rules ruleName (JNum (parseInt10 ruleValue)), errors)
    else if test reFloat ruleValue then
      Ret (objAssign rules ruleName (JNum (parseFloat ruleValue)), errors)
    else if startsWith ruleValue "[" && endsWith ruleValue "]" then
      let arrayContent := trim (slice_1_m1 ruleValue) in
      Ret (objAssign rules ruleName
             (if arrayContent =? "" then JArr [] else parseArray arrayContent),
           errors)
    else if startsWith ruleValue "{" && endsWith ruleValue "}" then
      let objectContent := trim (slice_1_m1 ruleValue) in
      v <- (if objectContent =? "" then Ret (JObj [])
            else parseObject objectContent) ;;
      Ret (objAssign rules ruleName v, errors)
    else if startsWith ruleValue dqs && endsWith ruleValue dqs then
      Ret (objAssign rules ruleName (JStr (slice_1_m1 ruleValue)), errors)
    else
      Ret (rules, errors ++ [invalidFormat position ruleName rule])
  end.


(** The body of the [forEach] of [parseRules], for one clause [rule]. *)
Definition parseRule (position : nat) (st : RuleState) (rule : string)
  : Exc RuleState :=
  let parts := map trim (split rule "=") in
  let ruleName := nth 0 parts "" in
  let ruleValue := nth_error parts 1 in
  if ruleName =? "default"
  then defaultBranch position ruleName ruleValue rule st
  else otherBranch position ruleName ruleValue rule st.

Definition parseRules (position : nat) (rulesStr : string)
  (errors : list Diagnostic) : Exc RuleState :=
  foldExc (parseRule position) (split rulesStr ",") ([], errors).

(** [getSchemaType(key)]: [processPart] walks the parts of the key; the
    last part gives the node's [type], an inner part descends through
    [properties] of an [Object] node or [items] of an [ObjectArray] node.
    Every miss gives the empty array. *)
Fixpoint processPart (current : Schema) (parts : list string) : list string :=
  match parts with
  | [] => [] (* [split] gives at least one part *)
  | [part] =>
      match objGet current part with
      | Some node => type node
      | None => []
      end
  | part :: rest =>
      match objGet current part with
      | Some node =>
          match (if arrIncludes (type node) "Object"
                 then properties node else None) with
          | Some props => processPart props rest
          | None =>
              match (if arrIncludes (type node) "ObjectArray"
                     then items node else None) with
              | Some its => processPart its rest
              | None => []
              end
          end
      | None => []
      end
  end.

Definition getSchemaType (parsedSchema : Schema) (key : string) : list string :=
  processPart parsedSchema (split key ".").

(** [parts[parts.length - 2]] used as a property name: with a single part
    the index is -1, the element undefined and the name [undefined]. *)
Definition parentKey (parts : list string) : string :=
  if (2 <=? length parts)%nat then nth (length parts - 2) parts "undefined"
  else "undefined".

Definition lastPart (parts : list string) : string :=
  nth (length parts - 1) parts "undefined".

Variable validationKeywords : Obj (list string).

Definition pushError (position : nat) (errors : list Diagnostic)
  (msg : string) : list Diagnostic :=
  errors ++ [mkDiagnostic (Some (position + 1)) msg].

Definition validateObjectArrayItems (parsedSchema : Schema) (position : nat)
  (key : string) (rules : Rules) (errors : list Diagnostic)
  : Exc (list Diagnostic) :=
  let parts := split key "." in
  let arrayKey := parentKey parts in
  match objGet parsedSchema arrayKey with
  | Some node =>
      match items node with
      | None => Ret errors
      | Some _ =>
          foldExc (fun errors ruleName =>
            match objRead validationKeywords ruleName with
            | Missing => Ret errors
            | ProtoMember => Throw TypeError
            | Own validTypes =>
                if negb (arrIncludes validTypes "Object") then
                  Ret (pushError position errors
                    ("Validation '" ^^ ruleName ^^
                     "' is not applicable to type 'ObjectArray' items for key '"
                     ^^ key ^^ "'"))
                else Ret errors
            end) (objKeys rules) errors
      end
  | None => Ret errors
  end.

Definition validateObjectProperties (parsedSchema : Schema) (position : nat)
  (key : string) (rules : Rules) (errors : list Diagnostic)
  : Exc (list Diagnostic) :=
  let parts := split key "." in
  let objectKey := parentKey parts in
  match objGet parsedSchema objectKey with
  | Some node =>
      match properties node with
      | None => Ret errors
      | Some schemaProperties =>
          foldExc (fun errors ruleName =>
            match objGet schemaProperties (lastPart parts),
                  objRead validationKeywords ruleName with
            | Some propSchema, Own validTypes =>
                let isValid :=
                  existsb (fun t => arrIncludes validTypes t
                                    || arrIncludes validTypes "Any")
                          (type propSchema) in
                if negb isValid then
                  Ret (pushError position errors
                    ("Validation '" ^^ ruleName ^^
                     "' is not applicable to property '" ^^ lastPart parts ^^
                     "' of Object for key '" ^^ key ^^ "'"))
                else Ret errors
            | Some propSchema, ProtoMember =>
                match type propSchema with
                | [] =>
                    Ret (pushError position errors
                      ("Validation '" ^^ ruleName ^^
                       "' is not applicable to property '" ^^ lastPart parts
                       ^^ "' of Object for key '" ^^ key ^^ "'"))
                | _ :: _ => Throw TypeError
                end
            | _, _ => Ret errors
            end) (objKeys rules) errors
      end
  | None => Ret errors
  end.

(** The value-kind test of the [default] / [isEqualTo] check, for one
    schema type. *)
Definition valueTypeMatches (ruleValue : JsValue) (t : string) : bool :=
  if (t =? "String") && (typeof ruleValue =? "string") then true
  else if ((t =? "Number") || (t =? "NumberArray"))
          && (typeof ruleValue =? "number") then true
  else if (t =? "Boolean") && (typeof ruleValue =? "boolean") then true
  else if ((t =? "Array") || (t =? "ObjectArray") || (t =? "AnyArray"))
          && isArray ruleValue then true
  else if (t =? "Object") && (typeof ruleValue =? "object")
          && negb (isArray ruleValue) then true
  else if (t =? "Date") && isValidDate ruleValue then true
  else false.

(** The body of the [forEach] of [validateRulesAgainstSchema], for one
    rule name. *)
Definition validateRule (parsedSchema : Schema) (position : nat)
  (key : string) (rules : Rules) (schemaTypeArray : list string)
  (errors : list Diagnostic) (ruleName : string) : Exc (list Diagnostic) :=
  let ruleValue :=
    match objGet rules ruleName with Some v => v | None => JUndefined end in
  match objRead validationKeywords ruleName with
  | Missing =>
      Ret (pushError position errors
             ("Validation rule '" ^^ ruleName ^^ "' is not defined."))
  | ProtoMember => Throw TypeError
  | Own validTypes =>
      let isApplicable :=
        arrIncludes validTypes "Any"
        || existsb (fun t => arrIncludes validTypes t) schemaTypeArray in
      let errors :=
        if negb isApplicable then
          pushError position errors
            ("Validation '" ^^ ruleName ^^
             "' is not applicable to types for key '" ^^ key ^^ "'")
        else errors in
      let errors :=
        if (ruleName =? "default") || (ruleName =? "isEqualTo") then
          if negb (existsb (valueTypeMatches ruleValue) schemaTypeArray) then
            pushError position errors
              ("Invalid value type for '" ^^ ruleName ^^ "' in '" ^^ key ^^
               "'. Expected one of: " ^^ join schemaTypeArray ", ")
          else errors
        else errors in
      if arrIncludes schemaTypeArray "ObjectArray" then
        validateObjectArrayItems parsedSchema position key rules errors
      else if arrIncludes schemaTypeArray "Object" then
        validateObjectProperties parsedSchema position key rules errors
      else Ret errors
  end.

Definition validateRulesAgainstSchema (parsedSchema : Schema)
  (position : nat) (key : string) (rules : Rules)
  (errors : list Diagnostic) : Exc (list Diagnostic) :=
  let schemaTypeArray := getSchemaType parsedSchema key in
  if negb (truthyArray schemaTypeArray) then
    Ret (pushError position errors
           ("Schema type not found for '" ^^ key ^^ "'"))
  else
    foldExc (validateRule parsedSchema position key rules schemaTypeArray)
            (objKeys rules) errors.

(** [addValidation(key, rules)]: walk the parts of the key, creating the
    missing nodes, and spread [rules] over the last node's [rules]. *)
Fixpoint addValidationAt (current : RuleSet) (parts : list string)
  (newRules : Rules) : RuleSet :=
  match parts with
  | [] => current
  | [part] =>
      let node :=
        match objGet current part with
        | Some n => n
        | None => mkRuleNode (Some []) []
        end in
      let old := match rules node with Some r => r | None => [] end in
      objSet current part
        (mkRuleNode (Some (objSpread old newRules)) (children node))
  | part :: rest =>
      let node :=
        match objGet current part with
        | Some n => n
        | None => mkRuleNode None []
        end in
      objSet current part
        (mkRuleNode (rules node) (addValidationAt (children node) rest newRules))
  end.

Definition addValidation (validations : RuleSet) (key : string)
  (newRules : Rules) : RuleSet :=
  addValidationAt validations (split key ".") newRules.

(** The instance state of [SQONValidation]. *)
Record State : Type := mkState {
  lines : list string;
  position : nat;
  validations : RuleSet;
  errors : list Diagnostic;
  parsedSchema : Schema
}.

Definition withErrors (st : State) (e : list Diagnostic) : State :=
  mkState (lines st) (position st) (validations st) e (parsedSchema st).

Definition step (st : State) : State :=
  mkState (lines st) (position st + 1) (validations st) (errors st)
          (parsedSchema st).

Definition hasErrorAtLine (errs : list Diagnostic) (n : nat) : bool :=
  existsb (fun err => match line err with
                      | Some l => (l =? n)%nat
                      | None => false
                      end) errs.

Definition processValidationLine (st : State) (line : string) : Exc State :=
  if negb (includes line "->") then
    Ret (withErrors st (pushError (position st) (errors st)
                          ("Invalid format: " ^^ line)))
  else
    let parts := map trim (split line "->") in
    let key := nth 0 parts "" in
    match nth_error parts 1 with
    | None => Throw TypeError
    | Some rulesStr =>
        r <- parseRules (position st) rulesStr (errors st) ;;
        let '(rules, errs) := r in
        errs <- validateRulesAgainstSchema (parsedSchema st) (position st)
                  key rules errs ;;
        if negb (hasErrorAtLine errs (position st + 1)) then
          Ret (mkState (lines st) (position st)
                 (addValidation (validations st) key rules) errs
                 (parsedSchema st))
        else Ret (withErrors st errs)
    end.

(** The [while] loop of [parseValidation], over the lines from
    [this.position] on. *)
Fixpoint parseValidationLoop (rest : list string) (st : State) : Exc State :=
  match rest with
  | [] => Ret st
  | l :: rest' =>
      let line := trim l in
      if line =? "@end" then Ret st
      else if startsWith line "!#" then parseValidationLoop rest' (step st)
      else if includes line "->" then
        st' <- processValidationLine st line ;;
        parseValidationLoop rest' (step st')
      else if negb (line =? "") then
        parseValidationLoop rest'
          (step (withErrors st
             (pushError (position st) (errors st)
                ("Invalid validation line: " ^^ quoted line))))
      else parseValidationLoop rest' (step st)
  end.

Definition parseValidation (st : State) : Exc State :=
  parseValidationLoop (skipn (position st) (lines st)) st.

(** A line of the section that is not the end marker, not a comment, has
    no arrow and is not blank: the loop answers it with one diagnostic. *)
Definition strayLine (l : string) : bool :=
  let line := trim l in
  negb (line =? "@end") && negb (startsWith line "!#")
  && negb (includes line "->") && negb (line =? "").

(** The diagnostics of a run of stray lines that starts at [position]. *)
Fixpoint strayDiagnostics (position : nat) (bad : list string)
  : list Diagnostic :=
  match bad with
  | [] => []
  | l :: bad' =>
      mkDiagnostic (Some (position + 1))
        ("Invalid validation line: " ^^ quoted (trim l))
      :: strayDiagnostics (position + 1) bad'
  end.

(** [new SQONValidation({ lines, position, parsedSchema, ... })] *)
Definition new (lines : list string) (position : nat) (parsedSchema : Schema)
  : State :=
  mkState lines position [] [] parsedSchema.

End Compiler.

End Validation.

(* ===================================================================== *)
(** * The document orchestrator: [SQON]                                   *)
(* ===================================================================== *)

Module Parser.
Import Js.
Export Validation.

(** [config.section]: ['schema'], ['validations'] or ['records'] *)
Module Mode.
Inductive SectionName : Type := schema | validations | records.
End Mode.
Definition SectionName : Type := Mode.SectionName.

Definition MAX_ERRORS : nat := 50.

Definition allowedTypes : list string :=
  [ "Number"; "String"; "Binary"; "Date"; "Boolean"; "Uint8Array"; "Binary";
    "Object"; "Any[]"; "StringArray"; "String[]"; "ObjectArray";
    "NumberArray"; "Number[]";
    "Number[]"; "String[]"; "Object[]"; "Null"; "undefined"; "Array";
    "[]"; "Any"; "AnyArray" ].

Definition validationKeywords : Obj (list string) :=
  [ ("minLength", ["String"; "StringArray"; "String[]"; "ObjectArray";
                   "Object[]"; "Array"; "Any[]"; "[]"; "Object";
                   "NumberArray"; "Number[]"; "Uint8Array"]);
    ("maxLength", ["String"; "StringArray"; "String[]"; "ObjectArray";
                   "Object[]"; "Array"; "Any[]"; "[]"; "Object";
                   "NumberArray"; "Number[]"; "Uint8Array"]);
    ("isDate", ["Date"; "StringArray"; "String[]"; "NumberArray"; "Number[]"]);
    ("minDate", ["Date"; "StringArray"; "String[]"; "NumberArray"; "Number[]"]);
    ("maxDate", ["Date"; "StringArray"; "String[]"; "NumberArray"; "Number[]"]);
    ("isBoolean", ["Boolean"; "Array"; "Any[]"; "[]"]);
    ("hasProperties", ["Object"; "ObjectArray"; "Object[]"]);
    ("enum", ["Any"]);
    ("notNull", ["Any"]);
    ("pattern", ["Any"]);
    ("isUnique", ["Any"]);
    ("required", ["Any"]);
    ("isNull", ["Any"]);
    ("min", ["Number"; "NumberArray"; "Number[]"; "Uint8Array"]);
    ("max", ["Number"; "NumberArray"; "Number[]"; "Uint8Array"]);
    ("isPositive", ["Number"; "NumberArray"; "Number[]"; "Uint8Array"]);
    ("isNegative", ["Number"; "NumberArray"; "Number[]"; "Uint8Array"]);
    ("isNumeric", ["NumberArray"; "Number[]"; "Number"]);
    ("isInteger", ["Number"; "NumberArray"; "Number[]"]);
    ("isFloat", ["Number"; "NumberArray"; "Number[]"]);
    ("isEmail", ["String"; "StringArray"; "String[]"]);
    ("isURL", ["String"; "String[]"; "StringArray"]);
    ("isAlpha", ["String"; "String[]"; "StringArray"]);
    ("isAlphanumeric", ["String"; "String[]"; "StringArray"]);
    ("isIP", ["String"; "String[]"; "StringArray"]);
    ("trim", ["String"; "String[]"; "StringArray"]);
    ("lowercase", ["String"; "String[]"; "StringArray"]);
    ("uppercase", ["String"; "String[]"; "StringArray"]) ].

Definition toUpper (c : ascii) : ascii :=
  if isLower c then ascii_of_nat (nat_of_ascii c - 32) else c.

(** [s.toUpperCase()] *)
Definition toUpperCase (s : string) : string := str (map toUpper (chars s)).

Section Orchestrator.

Variable P : Platform.

(** The records of the document; [extends/parseRecords] builds them. *)
Variable RecordT : Type.

(** What [new SQONSchema({ lines, position, allowedTypes }).parseSchema()]
    returns. *)
Record SchemaResults : Type := mkSchemaResults {
  sr_parsedSchema : Schema;
  sr_errors : list Diagnostic;
  sr_lines : list string;
  sr_position : nat
}.

(** What [new SQONRecords(lines, position).parseRecords(limit)] returns. *)
Record RecordResults : Type := mkRecordResults {
  rr_errors : list Diagnostic;
  rr_records : list RecordT;
  rr_position : nat
}.

(** The two compilers of [extends/schema] and [extends/parseRecords], which
    the orchestrator only calls. *)
Variable schemaCompiler :
  list string -> nat -> list string -> Exc SchemaResults.
Variable recordCompiler : list string -> nat -> nat -> Exc RecordResults.

Record ParsedResult : Type := mkParsedResult {
  r_fileRules : bool;
  r_schema : Schema;
  r_validations : RuleSet;
  r_records : list RecordT;
  r_errors : list Diagnostic
}.

(** The instance state of [SQON] that [parseLines] works on;
    [fileRules] is the [Strict] flag. *)
Record SQON : Type := mkSQON {
  section : option SectionName;
  lines : list string;
  position : nat;
  parsedSchema : Schema;
  validations : RuleSet;
  records : list RecordT;
  errors : list Diagnostic;
  sectionOrder : list string;
  fileRules : bool
}.

(** The state the constructor leaves, once [parse] has split the content
    into trimmed, non-empty lines. *)
Definition new (section : option SectionName) (lines : list string) : SQON :=
  mkSQON section lines 0 [] [] [] [] [] false.

Definition setPosition (st : SQON) (p : nat) : SQON :=
  mkSQON (section st) (lines st) p (parsedSchema st) (validations st)
         (records st) (errors st) (sectionOrder st) (fileRules st).

Definition advance (st : SQON) : SQON := setPosition st (position st + 1).

Definition setErrors (st : SQON) (e : list Diagnostic) : SQON :=
  mkSQON (section st) (lines st) (position st) (parsedSchema st)
         (validations st) (records st) e (sectionOrder st) (fileRules st).

Definition setSectionOrder (st : SQON) (o : list string) : SQON :=
  mkSQON (section st) (lines st) (position st) (parsedSchema st)
         (validations st) (records st) (errors st) o (fileRules st).

Definition setStrict (st : SQON) (b : bool) : SQON :=
  mkSQON (section st) (lines st) (position st) (parsedSchema st)
         (validations st) (records st) (errors st) (sectionOrder st) b.

Definition pushAt (st : SQON) (msg : string) : SQON :=
  setErrors st (errors st ++ [mkDiagnostic (Some (position st + 1)) msg]).

Definition pushNoLine (st : SQON) (msg : string) : SQON :=
  setErrors st (errors st ++ [mkDiagnostic None msg]).

(** [this.parseSchema()] *)
Definition parseSchema (st : SQON) : Exc SQON :=
  results <- schemaCompiler (lines st) (position st) allowedTypes ;;
  Ret (mkSQON (section st) (sr_lines results) (sr_position results)
         (sr_parsedSchema results) (validations st) (records st)
         (errors st ++ firstn MAX_ERRORS (sr_errors results))
         (sectionOrder st) (fileRules st)).

(** [this.parseValidation()] *)
Definition parseValidation (st : SQON) : Exc SQON :=
  results <- Validation.parseValidation P validationKeywords
               (Validation.new (lines st) (position st) (parsedSchema st)) ;;
  Ret (mkSQON (section st) (Validation.lines results)
         (Validation.position results) (parsedSchema st)
         (Validation.validations results) (records st)
         (errors st ++ firstn MAX_ERRORS (Validation.errors results))
         (sectionOrder st) (fileRules st)).

(** [this.parseRecords()] *)
Definition parseRecords (st : SQON) : Exc SQON :=
  results <- recordCompiler (lines st) (position st) 500 ;;
  Ret (mkSQON (section st) (lines st) (rr_position results)
         (parsedSchema st) (validations st) (rr_records results)
         (errors st ++ firstn MAX_ERRORS (rr_errors results))
         (sectionOrder st) (fileRules st)).

Definition checkSectionOrder (st : SQON) (sec : string) : SQON :=
  let has := arrIncludes (sectionOrder st) in
  if sec =? "@schema" then
    let st := if has "@schema"
              then pushAt st "'@schema' is already opened but not closed."
              else st in
    setSectionOrder st (sectionOrder st ++ [sec])
  else if sec =? "@validations" then
    let st := if negb (has "@schema")
              then pushAt st "'@validations' must come after '@schema'."
              else st in
    let st := if has "@validations"
              then pushAt st "'@validations' is already opened but not closed."
              else st in
    setSectionOrder st (sectionOrder st ++ [sec])
  else if sec =? "@records" then
    let st := if negb (has "@schema")
              then pushAt st "'@records' must come after '@schema'."
              else st in
    let st := if has "@validations" && negb (has "@validations")
              then pushAt st "'@records' must come after '@validations'."
              else st in
    let st := if has "@records"
              then pushAt st "'@records' is already opened but not closed."
              else st in
    setSectionOrder st (sectionOrder st ++ [sec])
  else st.

Definition isSection (st : SQON) (s : SectionName) : bool :=
  match section st, s with
  | Some Mode.schema, Mode.schema => true
  | Some Mode.validations, Mode.validations => true
  | Some Mode.records, Mode.records => true
  | _, _ => false
  end.

Definition noSection (st : SQON) : bool :=
  match section st with None => true | Some _ => false end.

(** What one turn of the [while] loop of [parseLines] does. *)
Inductive Turn : Type :=
| Continue (st : SQON)
| Return (r : ParsedResult).

(** The body of the loop, for the line at [this.position]. *)
Definition parseLine (st : SQON) (line : string) : Exc Turn :=
  if startsWith line "*STRICT=" then
    let strictValue :=
      match nth_error (split line "=") 1 with
      | Some v => toUpperCase (trim v)
      | None => "undefined" (* the line has an [=]: there is a second piece *)
      end in
    if strictValue =? "TRUE" then
      if negb (noSection st)
      then Throw (Error "Strict-Mode is enabled, please turn it off.")
      else Ret (Continue (advance (setStrict st true)))
    else if strictValue =? "FALSE" then
      Ret (Continue (advance (setStrict st false)))
    else
      Ret (Continue (advance (pushAt st
        ("Invalid *STRICT value: " ^^ strictValue ^^
         ". Expected TRUE or FALSE."))))
  else if line =? "@schema" then
    if isSection st Mode.schema then
      st <- parseSchema (advance st) ;;
      Ret (Return (mkParsedResult (fileRules st) (parsedSchema st) [] []
                     (errors st)))
    else if noSection st then
      st <- parseSchema (advance (checkSectionOrder st "@schema")) ;;
      Ret (Continue (advance st))
    else Ret (Continue (advance st))
  else if line =? "@validations" then
    if isSection st Mode.schema then
      st <- parseValidation (advance st) ;;
      Ret (Return (mkParsedResult (fileRules st) [] (validations st) []
                     (errors st)))
    else if noSection st then
      st <- parseValidation (advance (checkSectionOrder st "@validations")) ;;
      Ret (Continue (advance st))
    else Ret (Continue (advance st))
  else if line =? "@records" then
    if isSection st Mode.records then
      st <- parseRecords (advance st) ;;
      Ret (Return (mkParsedResult (fileRules st) [] [] (records st)
                     (errors st)))
    else if noSection st then
      st <- parseRecords (advance (checkSectionOrder st "@records")) ;;
      Ret (Continue (advance st))
    else Ret (Continue (advance st))
  else if line =? "@end" then
    if noSection st then
      match List.rev (sectionOrder st) with
      | [] =>
          Ret (Continue (advance
            (pushAt st "Unexpected '@end' without an open section.")))
      | lastSection :: before =>
          let st := setSectionOrder st (List.rev before) in
          if negb (lastSection =? "@schema")
             && negb (lastSection =? "@validations")
             && negb (lastSection =? "@records")
          then Ret (Continue (advance (pushAt st
                 ("Unexpected '@end' for section: " ^^ lastSection ^^ "."))))
          else Ret (Continue (advance st))
      end
    else Ret (Continue (advance st))
  else
    if negb (noSection st) && negb (isSection st Mode.records)
       && negb (isSection st Mode.schema)
    then Throw (Error "Invalid section parsing!")
    else if noSection st then
      Ret (Continue (advance (pushAt st
        ("Unknown section or command: " ^^ quoted line))))
    else Ret (Continue (advance st)).

(** What [parseLines] does once the loop has run off the lines. *)
Definition finish (st : SQON) : ParsedResult :=
  let st :=
    if noSection st then
      let st := if negb (truthyObject (parsedSchema st))
                then pushNoLine st "Missing required section: '@schema'"
                else st in
      if (length (records st) =? 0)%nat
      then pushNoLine st "Missing required section: '@records'"
      else st
    else st in
  mkParsedResult (fileRules st) (parsedSchema st) (validations st)
                 (records st) (errors st).

(** [parseLines()]. The two compilers taken as parameters may return any
    position, so the loop is bounded by [fuel]; [None] is fuel run out. *)
Fixpoint parseLinesFrom (fuel : nat) (st : SQON) : option (Exc ParsedResult) :=
  match fuel with
  | O => None
  | S fuel' =>
      match nth_error (lines st) (position st) with
      | None => Some (Ret (finish st))
      | Some line =>
          match parseLine st line with
          | Throw e => Some (Throw e)
          | Ret (Return r) => Some (Ret r)
          | Ret (Continue st') => parseLinesFrom fuel' st'
          end
      end
  end.

(** A state in mode ['validations'] whose schema, rule set and records
    are still the empty ones of the constructor. *)
Definition untouched (st : SQON) : Prop :=
  section st = Some Mode.validations /\
  parsedSchema st = [] /\ validations st = [] /\ records st = [].

(** [parseLines()] on a fresh instance. *)
Definition run (fuel : nat) (section : option SectionName)
  (lines : list string) : option (Exc ParsedResult) :=
  parseLinesFrom fuel (new section lines).

(** The lines [parse] hands to [parseLines]: the content split at line
    ends ([\n] or [\r\n]), trimmed, without the empty ones. *)
Definition contentLines (fileContent : string) : list string :=
  filter (fun l => negb (String.length l =? 0)%nat)
         (map trim (split fileContent (String (ascii_of_nat 10) ""))).

End Orchestrator.

(** The schema of the one line [name -> String]. *)
Definition nameIsString : Schema :=
  [("name", mkSchemaNode ["String"] None None)].

(** The diagnostics and the rule set of compiling the one line [line]
    against that schema. *)
Definition compileLine (P : Platform) (line : string)
  : Exc (list Diagnostic * RuleSet) :=
  st <- Validation.parseValidation P validationKeywords
          (Validation.new [line; "@end"] 0 nameIsString) ;;
  Ret (Validation.errors st, Validation.validations st).

Definition notDefined (position : nat) (ruleName : string) : Diagnostic :=
  mkDiagnostic (Some (position + 1))
    ("Validation rule '" ^^ ruleName ^^ "' is not defined.").

(** A document of one [@validations] section of [n] stray lines. *)
Definition strayDocument (n : nat) : list string :=
  "@validations" :: repeat "oops" n ++ ["@end"].

(** For runs that reach neither the schema nor the record compiler. *)
Definition unreached {A} (lines : list string) (position : nat) (x : A)
  : Exc (SchemaResults) := Throw (Error "unreached").
Definition unreachedRecords (lines : list string) (position limit : nat)
  : Exc (RecordResults unit) := Throw (Error "unreached").

End Parser.

(* ===================================================================== *)
(** * The runtime validator: [Validator]                                  *)
(* ===================================================================== *)

Module Validator.
Import Js.

(** An entry of [this.errors]: [{ valid: false, field, message }]. *)
Record FieldError : Type := mkFieldError {
  field : string;
  message : string
}.

(** A schema definition as [validateSchema] reads it: [items] is one
    definition, whose [type] the elements are checked against. *)
Inductive SchemaDefinition : Type :=
| mkSchemaDefinition (type : list string)
                     (properties : option (list (string * SchemaDefinition)))
                     (items : option SchemaDefinition).

Definition type (d : SchemaDefinition) : list string :=
  match d with mkSchemaDefinition t _ _ => t end.
Definition properties (d : SchemaDefinition)
  : option (list (string * SchemaDefinition)) :=
  match d with mkSchemaDefinition _ p _ => p end.
Definition items (d : SchemaDefinition) : option SchemaDefinition :=
  match d with mkSchemaDefinition _ _ i => i end.

(** A node of the rule tree: [{ rules, ...nestedRules }]. *)
Inductive ValidationInput : Type :=
| mkValidationInput (rules : option (Obj JsValue))
                    (nestedRules : list (string * ValidationInput)).

Record ValidationResult : Type := mkValidationResult {
  valid : bool;
  errors : option (list FieldError)
}.

Definition isString (v : JsValue) : bool :=
  match v with JStr _ => true | _ => false end.
Definition isNumber (v : JsValue) : bool :=
  match v with JNum _ => true | _ => false end.
Definition isBoolean (v : JsValue) : bool :=
  match v with JBool _ => true | _ => false end.
Definition isNull (v : JsValue) : bool :=
  match v with JNull => true | _ => false end.
Definition isUndefined (v : JsValue) : bool :=
  match v with JUndefined => true | _ => false end.
(** [v instanceof Date] *)
Definition isDate (v : JsValue) : bool :=
  match v with JDate _ => true | _ => false end.
(** [Buffer.isBuffer(v)] *)
Definition isBuffer (v : JsValue) : bool :=
  match v with JBuffer _ => true | _ => false end.
(** [v instanceof Uint8Array]; a Buffer is one too *)
Definition isUint8Array (v : JsValue) : bool :=
  match v with JUint8Array _ | JBuffer _ => true | _ => false end.
(** [typeof v === 'object' && v !== null] *)
Definition isObjectLike (v : JsValue) : bool :=
  (typeof v =? "object") && negb (isNull v).

Definition everyItem (p : JsValue -> bool) (v : JsValue) : bool :=
  match v with JArr l => forallb p l | _ => false end.

(** [validateType(expectedTypes, value)] *)
Fixpoint validateType (expectedTypes : list string) (value : JsValue) : bool :=
  match expectedTypes with
  | [] => false
  | t :: rest =>
      if t =? "Any" then true
      else if (t =? "String") && isString value then true
      else if (t =? "Number") && isNumber value then true
      else if (t =? "Boolean") && isBoolean value then true
      else if (t =? "Null") && isNull value then true
      else if (t =? "undefined") && isUndefined value then true
      else if (t =? "Date") && isDate value then true
      else if (t =? "Binary") && isBuffer value then true
      else if (t =? "Uint8Array") && isUint8Array value then true
      else if (t =? "StringArray") && isArray value
              && everyItem isString value then true
      else if (t =? "NumberArray") && isArray value
              && everyItem isNumber value then true
      else if (t =? "ObjectArray") && isArray value then true
      else if (t =? "Array") || (t =? "Any[]") || (t =? "[]")
      then isArray value
      else if (t =? "Object") && isObjectLike value && negb (isArray value)
      then true
      else validateType rest value
  end.

Definition push (errs : list FieldError) (field message : string)
  : list FieldError :=
  errs ++ [mkFieldError field message].

(** The body of the loop of [validateSchema] for one entry
    [[key, schemaDef]]; the recursive call on [{ [propKey]: propSchema }]
    is the same body for that one entry, on the same [this.errors]. *)
Fixpoint validateSchemaEntry (key : string) (schemaDef : SchemaDefinition)
  (data : JsValue) (errs : list FieldError) {struct schemaDef}
  : Exc (list FieldError) :=
  match schemaDef with
  | mkSchemaDefinition ty props its =>
      value <- getProp data key ;;
      if negb (validateType ty value) then
        Ret (push errs key
               ("Field " ^^ key ^^ " does not match schema type: "
                ^^ join ty ", "))
      else
        errs <-
          match props with
          | Some ps =>
              if arrIncludes ty "Object" then
                (fix eachProp (ps : list (string * SchemaDefinition))
                     (errs : list FieldError) : Exc (list FieldError) :=
                   match ps with
                   | [] => Ret errs
                   | (propKey, propSchema) :: ps' =>
                       errs <- validateSchemaEntry propKey propSchema value
                                 errs ;;
                       eachProp ps'
                         (if negb (length errs =? 0)%nat
                          then push errs (key ^^ "." ^^ propKey)
                                 ("Property " ^^ propKey ^^
                                  " validation failed")
                          else errs)
                   end) ps errs
              else Ret errs
          | None => Ret errs
          end ;;
        match its, value with
        | Some it, JArr l =>
            Ret (fold_left
                   (fun errs item =>
                      if negb (validateType (type it) item)
                      then push errs key
                             ("Array field " ^^ key ^^
                              " contains invalid items")
                      else errs) l errs)
        | _, _ => Ret errs
        end
  end.

(** [validateSchema(schema, data, strict)] on [this.errors = errs]; the
    result is [{ valid: this.errors.length === 0 }]. *)
Definition validateSchema (schema : Obj SchemaDefinition) (data : JsValue)
  (errs : list FieldError) : Exc (list FieldError) :=
  foldExc (fun errs kv => validateSchemaEntry (fst kv) (snd kv) data errs)
          schema errs.

(** The rule table of [validateFields]. *)
Definition validationKeywords : Obj (list string) :=
  [ ("custom", ["Any"]);
    ("default", ["Any"]);
    ("isNull", ["Any"]);
    ("min", ["Number"; "NumberArray"; "Uint8Array"]);
    ("max", ["Number"; "NumberArray"; "Uint8Array"]);
    ("minLength", ["String"; "StringArray"; "ObjectArray"; "Array"; "Object";
                   "NumberArray"; "Uint8Array"]);
    ("maxLength", ["String"; "StringArray"; "ObjectArray"; "Array"; "Object";
                   "NumberArray"; "Uint8Array"]);
    ("maxSize", ["Binary"; "Array"; "StringArray"; "NumberArray";
                 "ObjectArray"; "Object"; "Uint8Array"]);
    ("required", ["Any"]);
    ("isEqualTo", ["Any"]);
    ("isDate", ["Date"]);
    ("isPositive", ["Number"; "NumberArray"; "Uint8Array"]);
    ("isNegative", ["Number"; "NumberArray"; "Uint8Array"]);
    ("isUnique", ["Any"]);
    ("hasProperties", ["Object"; "ObjectArray"]);
    ("notNull", ["Any"]);
    ("pattern", ["String"]);
    ("isEmail", ["String"; "StringArray"]);
    ("isURL", ["String"]);
    ("isAlpha", ["String"]);
    ("isNumeric", ["String"]);
    ("isAlphanumeric", ["String"]);
    ("isInteger", ["Number"]);
    ("isFloat", ["Number"]);
    ("isBoolean", ["Boolean"]);
    ("isIP", ["String"]);
    ("enum", ["Any"]);
    ("minDate", ["Date"]);
    ("maxDate", ["Date"]);
    ("matchesField", ["Any"]);
    ("trim", ["String"]);
    ("lowercase", ["String"]);
    ("uppercase", ["String"]) ].

(** [rule in validationKeywords]: own and inherited members. *)
Definition inKeywords (rule : string) : bool :=
  match objRead validationKeywords rule with
  | Missing => false
  | _ => true
  end.

(** [validationKeywords[rule].includes(t)] for a rule of the table *)
Definition keywordHas (rule t : string) : bool :=
  match objGet validationKeywords rule with
  | Some validTypes => arrIncludes validTypes t
  | None => false
  end.

Definition nonSpace : re := noneOf isSpace.

Definition reEmail : re :=
  seq [plus nonSpace; chr "@"; plus nonSpace; chr "."; plus nonSpace].

Definition reURL : re :=
  seq [Alt (Cat (lit "http") (opt (chr "s"))) (lit "ftp"); lit "://";
       Cls (fun c => negb (isSpace c
                           || existsb (Ascii.eqb c) (chars "/$.?#")));
       Cls (fun c => negb ((nat_of_ascii c =? 10)%nat
                           || (nat_of_ascii c =? 13)%nat));
       Star nonSpace].

Definition reAlpha : re := plus (Cls isAlphaChar).
Definition reNumeric : re := plus digit.

Section Rules.

Variable P : Platform.

(** The distinct elements a [Set] keeps. *)
Fixpoint setOf (l : list JsValue) (seen : list JsValue) : list JsValue :=
  match l with
  | [] => seen
  | x :: l' =>
      if existsb (sameValueZero P x) seen then setOf l' seen
      else setOf l' (seen ++ [x])
  end.

(** [a.join(sep)]: undefined and null elements print as nothing. *)
Definition joinValues (l : list JsValue) (sep : string) : string :=
  join (map (fun v => match v with
                      | JUndefined | JNull => ""
                      | _ => toStr P v
                      end) l) sep.

Definition bytesOf (v : JsValue) : list JsValue :=
  match v with
  | JUint8Array b | JBuffer b => map (fun z => JNum (JDec z 0)) b
  | _ => []
  end.

Definition zero : JsValue := JNum (JDec 0 0).

(** The [switch (rule)] of [validateFields], after the [in] test. *)
Definition evalRule (field rule : string) (ruleValue value : JsValue)
  (errs : list FieldError) : Exc (list FieldError) :=
  let rv := toStr P ruleValue in
  let fail msg := Ret (push errs field msg) in
  let ok := Ret errs in
  if negb (inKeywords rule) then
    fail ("Unknown validation rule: " ^^ rule)
  else if rule =? "required" then
    if isUndefined value || isNull value
    then fail (field ^^ " is required") else ok
  else if rule =? "isNull" then
    if negb (isNull value) then fail (field ^^ " must be null") else ok
  else if rule =? "notNull" then
    if isNull value then fail (field ^^ " must not be null") else ok
  else if rule =? "min" then
    if isNumber value then
      if lessThan P value ruleValue
      then fail (field ^^ " should be at least " ^^ rv) else ok
    else if isArray value && keywordHas rule "NumberArray" then
      if negb (everyItem (fun num => isNumber num
                                     && greaterEq P num ruleValue) value)
      then fail (field ^^ " must have all numbers at least " ^^ rv) else ok
    else if isUint8Array value then
      if negb (forallb (fun num => greaterEq P num ruleValue) (bytesOf value))
      then fail (field ^^ " must have all Uint8Array elements at least " ^^ rv)
      else ok
    else ok
  else if rule =? "max" then
    if isNumber value then
      if greaterThan P value ruleValue
      then fail (field ^^ " should not exceed " ^^ rv) else ok
    else if isArray value && keywordHas rule "NumberArray" then
      if negb (everyItem (fun num => isNumber num
                                     && lessEq P num ruleValue) value)
      then fail (field ^^ " must have all numbers no greater than " ^^ rv)
      else ok
    else if isUint8Array value then
      if negb (forallb (fun num => lessEq P num ruleValue) (bytesOf value))
      then fail (field ^^
                 " must have all Uint8Array elements no greater than " ^^ rv)
      else ok
    else ok
  else if rule =? "minLength" then
    len <- getProp value "length" ;;
    if lessThan P len ruleValue
    then fail (field ^^ " should have a minimum length of " ^^ rv) else ok
  else if rule =? "maxLength" then
    len <- getProp value "length" ;;
    if greaterThan P len ruleValue
    then fail (field ^^ " should have a maximum length of " ^^ rv) else ok
  else if rule =? "maxSize" then
    len <- getProp value "length" ;;
    if greaterThan P len ruleValue
    then fail (field ^^ " exceeds the maximum size of " ^^ rv) else ok
  else if rule =? "isDate" then
    if negb (isDate value)
    then fail (field ^^ " must be a valid date") else ok
  else if rule =? "isPositive" then
    if lessEq P value zero then fail (field ^^ " must be positive") else ok
  else if rule =? "isNegative" then
    if greaterEq P value zero then fail (field ^^ " must be negative") else ok
  else if rule =? "isUnique" then
    match value with
    | JArr l =>
        if negb (length (setOf l []) =? length l)%nat
        then fail (field ^^ " contains duplicate values") else ok
    | _ => ok
    end
  else if rule =? "hasProperties" then
    if isObjectLike value then
      match ruleValue with
      | JArr props =>
          let missingProps :=
            filter (fun prop => negb (hasProperty P prop value)) props in
          if (0 <? length missingProps)%nat
          then fail (field ^^ " is missing required properties: "
                     ^^ joinValues missingProps ", ")
          else ok
      | _ => Throw TypeError
      end
    else ok
  else if rule =? "pattern" then
    match value with
    | JStr s =>
        match regExpTest P ruleValue s with
        | None => Throw SyntaxError
        | Some false => fail (field ^^ " does not match the required pattern")
        | Some true => ok
        end
    | _ => ok
    end
  else if rule =? "isEmail" then
    match value with
    | JStr s => if negb (test reEmail s)
                then fail (field ^^ " must be a valid email address") else ok
    | _ => ok
    end
  else if rule =? "isURL" then
    match value with
    | JStr s => if negb (test reURL s)
                then fail (field ^^ " must be a valid URL") else ok
    | _ => ok
    end
  else if rule =? "isAlpha" then
    match value with
    | JStr s => if negb (test reAlpha s)
                then fail (field ^^ " must contain only alphabetic characters")
                else ok
    | _ => ok
    end
  else if rule =? "isNumeric" then
    match value with
    | JStr s => if negb (test reNumeric s)
                then fail (field ^^ " must contain only numeric characters")
                else ok
    | _ => ok
    end
  else if rule =? "isBoolean" then
    if negb (isBoolean value) then fail (field ^^ " must be a boolean") else ok
  else if rule =? "enum" then
    found <- match ruleValue with
             | JArr l => Ret (existsb (sameValueZero P value) l)
             | JStr s => Ret (includes s (toStr P value))
             | JBuffer _ | JUint8Array _ => bytesInclude P ruleValue value
             | _ => Throw TypeError
             end ;;
    if negb found then fail (field ^^ " must be one of " ^^ rv) else ok
  else if rule =? "minDate" then
    if isDate value && lessThan P value (JDate (newDate P ruleValue))
    then fail (field ^^ " must be after " ^^ rv) else ok
  else if rule =? "maxDate" then
    if isDate value && greaterThan P value (JDate (newDate P ruleValue))
    then fail (field ^^ " must be before " ^^ rv) else ok
  else fail ("Unknown validation rule: " ^^ rule).

(** The body of the loop of [validateFields] for one entry
    [[field, input]] with [value = data[field]]; each recursive call is
    made on a one-entry rule tree and a one-entry data object, so it is
    this body again with the new field label and the nested value. *)
Fixpoint validateField (field : string) (input : ValidationInput)
  (value : JsValue) (errs : list FieldError) {struct input}
  : Exc (list FieldError) :=
  match input with
  | mkValidationInput rules nestedRules =>
      errs <-
        match rules with
        | Some rs =>
            foldExc (fun errs kv => evalRule field (fst kv) (snd kv) value errs)
                    rs errs
        | None => Ret errs
        end ;;
      (fix eachNested (ns : list (string * ValidationInput))
           (errs : list FieldError) : Exc (list FieldError) :=
         match ns with
         | [] => Ret errs
         | (nestedKey, nestedInput) :: ns' =>
             nestedValue <- getPropOpt value nestedKey ;;
             errs <-
               match nestedValue with
               | JArr l =>
                   (fix eachItem (l : list JsValue) (i : nat)
                        (errs : list FieldError) : Exc (list FieldError) :=
                      match l with
                      | [] => Ret errs
                      | nestedItem :: l' =>
                          errs <- validateField
                                    (field ^^ "[" ^^ natToString i ^^ "]")
                                    nestedInput nestedItem errs ;;
                          eachItem l' (S i) errs
                      end) l 0 errs
               | _ =>
                   validateField (field ^^ "." ^^ nestedKey) nestedInput
                                 nestedValue errs
               end ;;
             eachNested ns' errs
         end) nestedRules errs
  end.

(** [validateFields(validateData, data, strict)] on [this.errors = errs];
    the result is [{ valid: this.errors.length === 0, errors }]. *)
Definition validateFields (validateData : Obj ValidationInput)
  (data : JsValue) (errs : list FieldError) : Exc (list FieldError) :=
  foldExc (fun errs kv =>
             value <- getProp data (fst kv) ;;
             validateField (fst kv) (snd kv) value errs)
          validateData errs.

Definition isValid (errs : list FieldError) : bool :=
  (length errs =? 0)%nat.

(** [validate({ validateData, schema, data, strict })]; a [Throw] is the
    rejected promise. [strict] is passed along and never read, so it is
    left out. *)
Definition validate (schema : option (Obj SchemaDefinition))
  (validateData : option (Obj ValidationInput)) (data : JsValue)
  : Exc ValidationResult :=
  let errs := [] in
  let rulePass errs :=
    match validateData with
    | Some vd =>
        errs <- validateFields vd data errs ;;
        if negb (isValid errs) then Ret (mkValidationResult false (Some errs))
        else Ret (mkValidationResult (isValid errs) None)
    | None => Ret (mkValidationResult (isValid errs) None)
    end in
  match schema with
  | Some s =>
      errs <- validateSchema s data errs ;;
      if negb (isValid errs) then Ret (mkValidationResult false (Some errs))
      else rulePass errs
  | None => rulePass errs
  end.

End Rules.

End Validator.

(* ===================================================================== *)
(** * Predicates for stating invariants                                   *)
(* ===================================================================== *)

Module Laws.
Import Js.
Import Validation.

(** [new] is [old] with diagnostics added at its end, each of them
    satisfying [p]. *)
Definition added (p : Diagnostic -> Prop) (old new : list Diagnostic)
  : Prop :=
  exists more, new = old ++ more /\ Forall p more.

(** [new] is [old] with diagnostics added at its end. *)
Definition grows (old new : list Diagnostic) : Prop :=
  added (fun _ => True) old new.

(** A diagnostic of the 1-based line [n]. *)
Definition atLine (n : nat) (d : Diagnostic) : Prop := line d = Some n.

(** A diagnostic of a line after the 0-based position [from], up to the
    position [to]. *)
Definition withinLines (from to : nat) (d : Diagnostic) : Prop :=
  exists n, line d = Some n /\ from < n <= to.

(** The node of a rule set at a path: [validations[a][b]...]. *)
Fixpoint nodeAt (current : RuleSet) (parts : list string) : option RuleNode :=
  match parts with
  | [] => None
  | [part] => objGet current part
  | part :: rest =>
      match objGet current part with
      | Some node => nodeAt (children node) rest
      | None => None
      end
  end.

(** The [rules] and the nested nodes of the node at a path, empty when
    there is none. *)
Definition rulesAt (current : RuleSet) (parts : list string) : Rules :=
  match nodeAt current parts with
  | Some node => match rules node with Some r => r | None => [] end
  | None => []
  end.

Definition childrenAt (current : RuleSet) (parts : list string) : RuleSet :=
  match nodeAt current parts with
  | Some node => children node
  | None => []
  end.

(** A section of one good and one stray line, inside a document. *)
Definition twoLineSection : list string :=
  ["@validations"; "name -> required=true"; "oops"; "@end"; "tail"].

(** A name that a plain object does not inherit from its prototype, so
    that reading it on an object without such a key gives [undefined]. *)
Definition ownName (k : string) : bool := negb (arrIncludes protoMembers k).

(** A part of a path that can name a nested node: a node keeps its
    [rules] and its nested nodes in one object, so [rules] is not one. *)
Definition nodeName (part : string) : bool :=
  negb (part =? "rules") && ownName part.

(** The lines still ahead of the cursor. *)
Definition ahead (lines : list string) (position : nat) : nat :=
  length lines - position.

(** The rule names that the [switch] of [validateFields] has a case
    for. *)
Definition handledRules : list string :=
  [ "required"; "isNull"; "notNull"; "min"; "max"; "minLength"; "maxLength";
    "maxSize"; "isDate"; "isPositive"; "isNegative"; "isUnique";
    "hasProperties"; "pattern"; "isEmail"; "isURL"; "isAlpha"; "isNumeric";
    "isBoolean"; "enum"; "minDate"; "maxDate" ].

(** The type names at which [validateType] answers at once. *)
Definition arrayTypes : list string := ["Array"; "Any[]"; "[]"].

(** The lines ahead of the cursor of the orchestrator. *)
Definition aheadOf {RecordT : Type} (st : Parser.SQON RecordT) : nat :=
  ahead (Parser.lines st) (Parser.position st).

(** Compilers that stop where they start and find nothing: the least
    that the orchestrator can be run with. *)
Definition idleSchema (lines : list string) (position : nat)
  (allowedTypes : list string) : Exc Parser.SchemaResults :=
  Ret (Parser.mkSchemaResults [] [] lines position).

Definition idleRecords (lines : list string) (position limit : nat)
  : Exc (Parser.RecordResults unit) :=
  Ret (@Parser.mkRecordResults unit [] [] position).

(** A document of the three sections. *)
Definition threeSections : list string :=
  ["@schema"; "@end"; "@validations"; "name -> required=true"; "@end";
   "@records"; "@end"].

End Laws.

(* ===================================================================== *)
(** * Renumbering the records of a document: [SQON.redoc]                 *)
(* ===================================================================== *)

Module Redoc.
Import Js.

(** The line feed that [redoc] splits and joins on. *)
Definition lineFeed : string := String (ascii_of_nat 10) "".

(** [line.replace(/^#\d+/, `#${newDocNumber}`)]: the pattern is anchored
    at the start of the line and takes the longest run of digits; a line
    that does not begin with [#] and a digit is returned as it is. *)
Definition renumber (line : string) (newDocNumber : nat) : string :=
  match chars line with
  | c :: rest =>
      if Ascii.eqb c "#" then
        match takeWhile isDigit rest with
        | [] => line
        | _ :: _ =>
            "#" ^^ natToString newDocNumber ^^ str (dropWhile isDigit rest)
        end
      else line
  | [] => line
  end.

(** The three locals of the loop. *)
Record Loop : Type := mkLoop {
  inRecordsSection : bool;
  newDocNumber : nat;
  updatedLines : list string
}.

(** One turn of [for (const line of lines)]. *)
Definition redocLine (st : Loop) (line : string) : Loop :=
  if trim line =? "@records" then
    mkLoop true (newDocNumber st) (updatedLines st ++ [line])
  else if (trim line =? "@end") && inRecordsSection st then
    mkLoop false (newDocNumber st) (updatedLines st ++ [line])
  else if inRecordsSection st && startsWith (trim line) "#" then
    mkLoop (inRecordsSection st) (newDocNumber st + 1)
           (updatedLines st ++ [renumber line (newDocNumber st)])
  else
    mkLoop (inRecordsSection st) (newDocNumber st) (updatedLines st ++ [line]).

Definition redocLoop (st : Loop) (lines : list string) : Loop :=
  fold_left redocLine lines st.

Definition redocLines (lines : list string) : list string :=
  updatedLines (redocLoop (mkLoop false 0 []) lines).

(** [updatedContent], from [fileContent]. *)
Definition updatedContent (fileContent : string) : string :=
  join (redocLines (split fileContent lineFeed)) lineFeed.

(** What a call does with [updatedContent]: it is returned, or written to
    the file of the instance. *)
Inductive Outcome : Type :=
| Returned (text : string)
| Written (text : string).

(** [redoc(content)], with the text of the file for the case that
    [content] is [undefined]. [content ?? file] keeps an empty [content],
    [if (content)] takes an empty [content] for absent. *)
Definition redoc (content : option string) (file : string) : Outcome :=
  let fileContent := match content with Some c => c | None => file end in
  match content with
  | Some c =>
      if c =? "" then Written (updatedContent fileContent)
      else Returned (updatedContent fileContent)
  | None => Written (updatedContent fileContent)
  end.

(** A text without a line feed. *)
Definition oneLine (s : string) : Prop :=
  ~ In (ascii_of_nat 10) (chars s).

(** A line that opens a records section. *)
Definition opensRecords (line : string) : bool := trim line =? "@records".

(** A document with one records section of three records. *)
Definition sampleDocument : string :=
  "@records" ^^ lineFeed ^^ "#7 -> a" ^^ lineFeed ^^ "#7 -> b" ^^ lineFeed
  ^^ "#12 -> c" ^^ lineFeed ^^ "@end".

End Redoc.

(* ===================================================================== *)
(** * Properties                                                          *)
(* ===================================================================== *)

Import Js.


Lemma Ret_inj {A} (a b : A) : Ret a = Ret b -> a = b.
Proof. congruence. Qed.

(** ** Matching by derivatives, and integer literals in [parseValue] *)

Lemma nullable_complete (r : re) (w : list ascii) :
  Matches r w -> w = [] -> nullable r = true.
Proof.
  induction 1 as [ | p c Hp | a b s t Ha IHa Hb IHb | a b s Ha IHa
                 | a b s Hb IHb | a | a s t Ha IHa Hs IHs ];
    intros Hw; cbn [nullable]; try reflexivity.
  - discriminate.
  - apply app_eq_nil in Hw. destruct Hw as [-> ->].
    now rewrite IHa, IHb.
  - now rewrite IHa.
  - rewrite (IHb Hw). apply orb_true_r.
Qed.

Lemma cat_complete (a b : re) (s t : list ascii) :
  Matches a s -> Matches b t -> Matches (cat a b) (s ++ t).
Proof.
  intros Ha Hb.
  destruct a; try (inversion Ha; fail);
    destruct b; try (inversion Hb; fail); cbn [cat];
    try (now apply MCat);
    try (inversion Hb; subst; rewrite app_nil_r; exact Ha);
    try (inversion Ha; subst; exact Hb).
Qed.

Lemma alt_complete_l (a b : re) (s : list ascii) :
  Matches a s -> Matches (alt a b) s.
Proof.
  intros Ha. destruct a; try (inversion Ha; fail);
    destruct b; cbn [alt]; try exact Ha; now apply MAltL.
Qed.

Lemma alt_complete_r (a b : re) (s : list ascii) :
  Matches b s -> Matches (alt a b) s.
Proof.
  intros Hb. destruct a; cbn [alt]; try exact Hb;
    destruct b; try (inversion Hb; fail); try exact Hb; now apply MAltR.
Qed.

Lemma deriv_complete (r : re) (w : list ascii) :
  Matches r w ->
  forall c s, w = c :: s -> Matches (deriv c r) s.
Proof.
  induction 1 as [ | p c' Hp | a b s1 t1 Ha IHa Hb IHb | a b s1 Ha IHa
                 | a b s1 Hb IHb | a | a s1 t1 Ha IHa Hs IHs ];
    intros c s Hw; cbn [deriv].
  - discriminate.
  - injection Hw as -> <-. rewrite Hp. constructor.
  - destruct s1 as [| c1 s1'].
    + cbn [app] in Hw. rewrite (@nullable_complete _ _ Ha eq_refl).
      apply alt_complete_r. now apply IHb.
    + cbn [app] in Hw. injection Hw as -> <-.
      assert (Hd : Matches (cat (deriv c a) b) (s1' ++ t1))
        by (apply cat_complete; [ now apply IHa | exact Hb ]).
      destruct (nullable a); [ now apply alt_complete_l | exact Hd ].
  - apply alt_complete_l. now apply IHa.
  - apply alt_complete_r. now apply IHb.
  - discriminate.
  - destruct s1 as [| c1 s1'].
    + cbn [app] in Hw. now apply IHs.
    + cbn [app] in Hw. injection Hw as -> <-.
      apply cat_complete; [ now apply IHa | exact Hs ].
Qed.

(** A word of the pattern passes the matcher. *)
Lemma matchesFrom_complete (w : list ascii) :
  forall r, Matches r w -> matchesFrom r w = true.
Proof.
  induction w as [| c w IH]; intros r Hr; cbn [matchesFrom].
  - now apply (@nullable_complete _ _ Hr).
  - apply IH. now apply (@deriv_complete _ _ Hr).
Qed.


Lemma digit_differs (c x : ascii) :
  isDigit c = true -> isDigit x = false -> c <> x.
Proof. intros Hc Hx ->. congruence. Qed.

Lemma digit_eqb (c x : ascii) :
  isDigit c = true -> isDigit x = false -> Ascii.eqb c x = false.
Proof.
  intros Hc Hx. apply Ascii.eqb_neq. now apply digit_differs.
Qed.

Lemma digit_not_space (c : ascii) : isDigit c = true -> isSpace c = false.
Proof.
  unfold isDigit, isSpace. cbv zeta. intros H.
  apply andb_true_iff in H. destruct H as [H1 H2].
  apply Nat.leb_le in H1. apply Nat.leb_le in H2.
  apply orb_false_iff. split.
  - apply Nat.eqb_neq. lia.
  - apply andb_false_iff. right. apply Nat.leb_gt. lia.
Qed.

Lemma prefix_not_digit (x c : ascii) (p s : string) :
  isDigit c = true -> isDigit x = false ->
  String.prefix (String x p) (String c s) = false.
Proof.
  intros Hc Hx. cbn [String.prefix].
  destruct (ascii_dec x c) as [-> | _]; [ congruence | reflexivity ].
Qed.

Lemma takeWhile_all (p : ascii -> bool) (l : list ascii) :
  forallb p l = true -> takeWhile p l = l.
Proof.
  induction l as [| c l IH]; cbn [forallb takeWhile]; intros H.
  - reflexivity.
  - apply andb_true_iff in H. destruct H as [-> H]. now rewrite IH.
Qed.

Lemma dropWhile_all (p : ascii -> bool) (l : list ascii) :
  forallb p l = true -> dropWhile p l = [].
Proof.
  induction l as [| c l IH]; cbn [forallb dropWhile]; intros H.
  - reflexivity.
  - apply andb_true_iff in H. destruct H as [-> H]. now apply IH.
Qed.

Lemma digits_star (l : list ascii) :
  forallb isDigit l = true -> Matches (Star digit) l.
Proof.
  induction l as [| c l IH]; cbn [forallb]; intros H.
  - constructor.
  - apply andb_true_iff in H. destruct H as [Hc H].
    change (c :: l) with ([c] ++ l).
    apply MStarApp; [ now constructor | now apply IH ].
Qed.

Lemma digits_plus (c : ascii) (l : list ascii) :
  forallb isDigit (c :: l) = true -> Matches (plus digit) (c :: l).
Proof.
  cbn [forallb]. intros H. apply andb_true_iff in H. destruct H as [Hc H].
  change (c :: l) with ([c] ++ l).
  apply MCat; [ now constructor | now apply digits_star ].
Qed.

(** A run of digits is a numeric string for [Number]. *)
Lemma digits_numeric (c : ascii) (l : list ascii) :
  forallb isDigit (c :: l) = true ->
  Matches reStringNumericLiteral (c :: l).
Proof.
  intros H. unfold reStringNumericLiteral, seq. cbn [fold_right].
  change (c :: l) with ([] ++ (c :: l)). apply MCat; [ constructor | ].
  rewrite <- (app_nil_r (c :: l)). apply MCat.
  2:{ change (@nil ascii) with (@nil ascii ++ []).
      apply MCat; constructor. }
  apply MAltR. apply MAltL. unfold reStrDecimalLiteral.
  change (c :: l) with ([] ++ (c :: l)).
  apply MCat; [ apply MAltL; constructor | ].
  apply MAltR. unfold reUnsignedDecimal. apply MAltL.
  unfold seq. cbn [fold_right].
  rewrite <- (app_nil_r (c :: l)).
  apply MCat; [ now apply digits_plus | ].
  change (@nil ascii) with (@nil ascii ++ []).
  apply MCat; [ apply MAltL; constructor | ].
  change (@nil ascii) with (@nil ascii ++ []).
  apply MCat; [ apply MAltL; constructor | constructor ].
Qed.

(** A run of digits is an integer for [BigInt]. *)
Lemma digits_signed (c : ascii) (l : list ascii) :
  forallb isDigit (c :: l) = true ->
  Matches (Cat (opt (oneOf "+-")) (plus digit)) (c :: l).
Proof.
  intros H. change (c :: l) with ([] ++ (c :: l)).
  apply MCat; [ apply MAltL; constructor | now apply digits_plus ].
Qed.

Lemma radixVal_nonneg (l : list ascii) :
  forall acc, (0 <= acc)%Z ->
    (0 <= fold_left (fun acc c => 10 * acc + digitVal c) l acc)%Z.
Proof.
  induction l as [| c l IH]; intros acc Hacc; cbn [fold_left].
  - exact Hacc.
  - apply IH.
    assert (0 <= digitVal c)%Z
      by (unfold digitVal; cbv zeta;
          destruct (isDigit c); [ | destruct (isUpper c) ]; lia).
    lia.
Qed.

Lemma readSign_digit (c : ascii) (l : list ascii) :
  isDigit c = true -> readSign (c :: l) = (false, c :: l).
Proof.
  intros Hc. unfold readSign.
  rewrite (@digit_eqb c "-" Hc eq_refl).
  now rewrite (@digit_eqb c "+" Hc eq_refl).
Qed.

Lemma trim_digits (c : ascii) (s : string) :
  forallb isDigit (chars (String c s)) = true ->
  trim (String c s) = String c s.
Proof.
  intros H. unfold trim.
  assert (Hc : isDigit c = true)
    by (cbn [chars list_ascii_of_string forallb] in H;
        now apply andb_true_iff in H).
  assert (Hstart : trimStart (chars (String c s)) = chars (String c s)).
  { unfold trimStart. cbn [chars list_ascii_of_string dropWhile].
    now rewrite (@digit_not_space c Hc). }
  rewrite Hstart. unfold trimEnd.
  assert (Hrev : forallb isDigit (List.rev (chars (String c s))) = true).
  { rewrite forallb_forall in *. intros x Hx. apply H.
    now apply in_rev. }
  destruct (List.rev (chars (String c s))) as [| d r] eqn:Er.
  - apply (f_equal (@List.rev ascii)) in Er. rewrite rev_involutive in Er.
    discriminate.
  - cbn [forallb] in Hrev. apply andb_true_iff in Hrev.
    destruct Hrev as [Hd _]. cbn [dropWhile].
    rewrite (@digit_not_space d Hd), <- Er, rev_involutive.
    apply string_of_list_ascii_of_string.
Qed.

Lemma parseFloat_digits (c : ascii) (s : string) :
  forallb isDigit (chars (String c s)) = true ->
  parseFloat (String c s) = JDec (radixVal 10 (chars (String c s))) 0.
Proof.
  intros H. unfold parseFloat.
  assert (Hc : isDigit c = true)
    by (cbn [chars list_ascii_of_string forallb] in H;
        now apply andb_true_iff in H).
  replace (trimStart (chars (String c s))) with (chars (String c s))
    by (unfold trimStart; cbn [chars list_ascii_of_string dropWhile];
        now rewrite (@digit_not_space c Hc)).
  cbn [chars list_ascii_of_string]. rewrite (@readSign_digit c _ Hc).
  cbn [str string_of_list_ascii].
  rewrite (@prefix_not_digit "I" c "nfinity" _ Hc eq_refl).
  cbn [chars list_ascii_of_string] in H.
  rewrite (@takeWhile_all _ _ H), (@dropWhile_all _ _ H), app_nil_r.
  cbn [signed length Z.of_nat Z.sub Z.opp Z.add]. reflexivity.
Qed.

Lemma not_hex_prefix (c : ascii) (s : string) :
  forallb isDigit (chars (String c s)) = true ->
  startsWith (String c s) "0x" = false.
Proof.
  cbn [chars list_ascii_of_string forallb]. intros H.
  apply andb_true_iff in H. destruct H as [_ H].
  unfold startsWith. cbn [String.prefix].
  destruct (ascii_dec "0" c); [ | reflexivity ].
  destruct s as [| d s]; [ reflexivity | ].
  cbn [list_ascii_of_string forallb] in H.
  apply andb_true_iff in H. destruct H as [Hd _].
  exact (@prefix_not_digit "x" d "" s Hd eq_refl).
Qed.

(** X1. A run of decimal digits is read without error as a value of kind
    Number, and beyond the safe-integer range the value kept is the BigInt
    of exactly those digits. *)
Theorem parseValue_integer_literal (P : Platform) (value : string) :
  value <> "" ->
  forallb isDigit (chars value) = true ->
  Validation.parseValue P value
  = Ret (Validation.Parsed
           (if (MAX_SAFE_INTEGER <? radixVal 10 (chars value))%Z
            then JBigInt (radixVal 10 (chars value))
            else JNum (JDec (radixVal 10 (chars value)) 0))
           "Number").
Proof.
  intros Hne H. destruct value as [| c s]; [ congruence | clear Hne ].
  assert (Hc : isDigit c = true)
    by (cbn [chars list_ascii_of_string forallb] in H;
        now apply andb_true_iff in H).
  unfold Validation.parseValue.
  cbn [String.eqb]. unfold startsWith at 1 2 3. unfold Validation.dqs.
  rewrite (@prefix_not_digit dq c "" s Hc eq_refl).
  rewrite (@prefix_not_digit "<" c "Buffer" s Hc eq_refl).
  rewrite (@prefix_not_digit "U" c "int8Array[" s Hc eq_refl).
  cbn [andb].
  assert (Hnum : test reStringNumericLiteral (String c s) = true)
    by (apply matchesFrom_complete, (@digits_numeric c (chars s)), H).
  assert (Hint : test (Cat (opt (oneOf "+-")) (plus digit)) (String c s)
                 = true)
    by (apply matchesFrom_complete, (@digits_signed c (chars s)), H).
  unfold Number_isNaN. rewrite Hnum.
  rewrite (@parseFloat_digits _ _ H), (@not_hex_prefix _ _ H).
  cbn [negb isNaN andb].
  set (n := radixVal 10 (chars (String c s))).
  assert (Hn : (0 <= n)%Z) by (apply radixVal_nonneg; lia).
  unfold gtMaxSafe, ltMinSafe, twiceAtLeast, MAX_SAFE_INTEGER.
  cbn [Z.leb Z.compare].
  replace (2 * (2 ^ 53 - 1) + 1 <=? 2 * - n * 10 ^ 0)%Z with false
    by (symmetry; apply Z.leb_gt; lia).
  rewrite orb_false_r.
  destruct (2 * (2 ^ 53 - 1) + 1 <=? 2 * n * 10 ^ 0)%Z eqn:Hbig.
  - apply Z.leb_le in Hbig.
    replace (2 ^ 53 - 1 <? n)%Z with true
      by (symmetry; apply Z.ltb_lt; lia).
    unfold BigInt. rewrite (@trim_digits _ _ H). cbn [String.eqb].
    rewrite Hint.
    cbn [chars list_ascii_of_string]. rewrite (@readSign_digit c _ Hc).
    reflexivity.
  - apply Z.leb_gt in Hbig.
    replace (2 ^ 53 - 1 <? n)%Z with false
      by (symmetry; apply Z.ltb_ge; lia).
    reflexivity.
Qed.

(** ** Value inference: [parseValue] *)

(** C7. The scalar literals [TRUE], [FALSE], [NULL], the empty text,
    ["x"], [<Buffer 1 2>], [42] and [3.14] are read without error as
    values of kind Boolean, Boolean, Null, undefined, String, Binary,
    Number and Number; the quoted empty string is read as undefined, not
    as a String. *)
Theorem parseValue_scalar_kinds (P : Platform) :
  Validation.parseValue P "TRUE"
    = Ret (Validation.Parsed (JBool true) "Boolean") /\
  Validation.parseValue P "FALSE"
    = Ret (Validation.Parsed (JBool false) "Boolean") /\
  Validation.parseValue P "NULL" = Ret (Validation.Parsed JNull "Null") /\
  Validation.parseValue P "" = Ret (Validation.Parsed JUndefined "undefined") /\
  Validation.parseValue P (quoted "x")
    = Ret (Validation.Parsed (JStr "x") "String") /\
  Validation.parseValue P "<Buffer 1 2>"
    = Ret (Validation.Parsed (JStr "<Buffer 1 2>") "Binary") /\
  Validation.parseValue P "42"
    = Ret (Validation.Parsed (JNum (JDec 42 0)) "Number") /\
  Validation.parseValue P "3.14"
    = Ret (Validation.Parsed (JNum (JDec 314 (-2))) "Number") /\
  Validation.parseValue P (quoted "")
    = Ret (Validation.Parsed JUndefined "undefined").
Proof.
  repeat split; vm_compute; reflexivity.
Qed.

(** C8. A decimal literal beyond the safe-integer range is handed to
    [BigInt], which rejects it: [parseValue] throws a SyntaxError on
    [9007199254740993.5] and on [1e21] instead of giving a Number, and so
    does the compilation of a validation line that carries such a value.
    An integer literal beyond the range is kept as the BigInt of its
    digits. *)
Theorem parseValue_large_decimal_throws (P : Platform) :
  Validation.parseValue P "9007199254740993.5" = Throw SyntaxError /\
  Validation.parseValue P "1e21" = Throw SyntaxError /\
  Validation.parseValidation P Parser.validationKeywords
    (Validation.new ["big -> default={a:9007199254740993.5}"; "@end"] 0 [])
    = Throw SyntaxError /\
  Validation.parseValue P "9007199254740993"
    = Ret (Validation.Parsed (JBigInt 9007199254740993) "Number").
Proof.
  repeat split; vm_compute; reflexivity.
Qed.

(** ** The validation compiler *)

(** C1. [getSchemaType] answers an unresolved path with the empty array,
    which is truthy, so the guard for a missing schema type never fires:
    the line [ghost -> required=true] compiles against a schema without
    [ghost] with no diagnostic at all, and its rule is merged into the
    rule set. *)
Theorem unresolved_path_merged_without_diagnostic (P : Platform) :
  Validation.getSchemaType Parser.nameIsString "ghost" = [] /\
  Validation.parseValidation P Parser.validationKeywords
    (Validation.new ["ghost -> required=true"; "@end"] 0 Parser.nameIsString)
  = Ret (Validation.mkState ["ghost -> required=true"; "@end"] 1
           [("ghost",
             Validation.mkRuleNode (Some [("required", JBool true)]) [])]
           [] Parser.nameIsString).
Proof.
  split; vm_compute; reflexivity.
Qed.

(** C2. The rule table of the compiler has no entry for [default],
    [isEqualTo], [custom], [matchesField] and [maxSize]: a line applying
    one of them to the schema field [name] is answered with the
    diagnostic that the rule is not defined, and nothing is merged; the
    cross-check of any of the five, on any key of any schema, is that
    diagnostic. *)
Theorem table_rules_reported_undefined (P : Platform) :
  Parser.compileLine P ("name -> default=" ^^ quoted "x")
    = Ret ([Parser.notDefined 0 "default"], []) /\
  Parser.compileLine P ("name -> isEqualTo=" ^^ quoted "x")
    = Ret ([Parser.notDefined 0 "isEqualTo"], []) /\
  Parser.compileLine P "name -> custom=true"
    = Ret ([Parser.notDefined 0 "custom"], []) /\
  Parser.compileLine P ("name -> matchesField=" ^^ quoted "name")
    = Ret ([Parser.notDefined 0 "matchesField"], []) /\
  Parser.compileLine P "name -> maxSize=3"
    = Ret ([Parser.notDefined 0 "maxSize"], []) /\
  forall parsedSchema position key rules schemaTypeArray errors,
    map (Validation.validateRule P Parser.validationKeywords parsedSchema
           position key rules schemaTypeArray errors)
        ["default"; "isEqualTo"; "custom"; "matchesField"; "maxSize"]
    = map (fun ruleName =>
             Ret (errors ++ [Parser.notDefined position ruleName]))
          ["default"; "isEqualTo"; "custom"; "matchesField"; "maxSize"].
Proof.
  repeat split; try (vm_compute; reflexivity).
Qed.

(** ** The orchestrator *)

Section OrchestratorRuns.

Variable P : Platform.
Variable RecordT : Type.
Variable schemaCompiler :
  list string -> nat -> list string -> Exc Parser.SchemaResults.
Variable recordCompiler :
  list string -> nat -> nat -> Exc (Parser.RecordResults RecordT).


(** In mode ['validations'] no branch of the loop calls a compiler: a turn
    throws, or goes on with the state still untouched. *)
Lemma parseLine_validations_mode (st : Parser.SQON RecordT) (line : string) :
  Parser.untouched st ->
  match Parser.parseLine P schemaCompiler recordCompiler st line with
  | Ret (Parser.Continue st') => Parser.untouched st'
  | Ret (Parser.Return _) => False
  | Throw _ => True
  end.
Proof.
  destruct st as [sec lines pos ps vs rs es so fr].
  intros (Hsec & Hps & Hvs & Hrs). cbn in Hsec, Hps, Hvs, Hrs. subst.
  unfold Parser.parseLine, Parser.isSection, Parser.noSection.
  cbn [Parser.section negb andb].
  repeat match goal with
         | |- context [if ?c then _ else _] => destruct c
         end;
    cbn; unfold Parser.untouched; cbn; auto.
Qed.

Lemma parseLinesFrom_validations_mode (fuel : nat) :
  forall st : Parser.SQON RecordT,
    Parser.untouched st ->
    match Parser.parseLinesFrom P schemaCompiler recordCompiler fuel st with
    | Some (Ret r) =>
        Parser.r_schema r = [] /\ Parser.r_validations r = [] /\
        Parser.r_records r = []
    | _ => True
    end.
Proof.
  induction fuel as [| fuel IH]; intros st Hst; cbn [Parser.parseLinesFrom].
  - exact I.
  - destruct (nth_error (Parser.lines st) (Parser.position st)) as [line |].
    + pose proof (parseLine_validations_mode line Hst) as Hline.
      destruct (Parser.parseLine P schemaCompiler recordCompiler st line)
        as [[st' | r] | e].
      * now apply IH.
      * contradiction.
      * exact I.
    + destruct Hst as (Hsec & Hps & Hvs & Hrs).
      unfold Parser.finish, Parser.noSection. rewrite Hsec.
      cbn. auto.
Qed.

(** C3. The branch for the [@validations] marker tests the mode against
    ['schema']: in mode ['validations'] the marker is passed over and the
    first line of the section throws "Invalid section parsing!", so no
    rule set is returned; it is mode ['schema'] that returns the rule set
    of a [@validations] section. On every document, mode ['validations']
    throws or returns an empty result. *)
Theorem validations_mode_throws :
  Parser.run P schemaCompiler recordCompiler 4
    (Some Parser.Mode.validations)
    ["@validations"; "name -> required=true"; "@end"]
    = Some (Throw (Error "Invalid section parsing!")) /\
  Parser.run P schemaCompiler recordCompiler 4
    (Some Parser.Mode.schema)
    ["@validations"; "name -> required=true"; "@end"]
    = Some (Ret (Parser.mkParsedResult false [] 
                   [("name",
                     Validation.mkRuleNode (Some [("required", JBool true)])
                       [])]
                   [] [])) /\
  forall fuel lines,
    match Parser.run P schemaCompiler recordCompiler fuel
            (Some Parser.Mode.validations) lines with
    | Some (Ret r) =>
        Parser.r_schema r = [] /\ Parser.r_validations r = [] /\
        Parser.r_records r = []
    | _ => True
    end.
Proof.
  split; [ vm_compute; reflexivity | split; [ vm_compute; reflexivity | ] ].
  intros fuel lines. apply parseLinesFrom_validations_mode.
  repeat split.
Qed.

(** C4. [parsedSchema] starts as the empty object, which is truthy, so
    the end of input never reports a missing [@schema]: a document with no
    section at all ends with the diagnostic for [@records] only, and in
    general [finish] adds nothing but that one. *)
Theorem missing_schema_not_reported :
  Parser.run P schemaCompiler recordCompiler 2 None ["hello"]
    = Some (Ret (Parser.mkParsedResult false [] [] []
         [ Validation.mkDiagnostic (Some 1)
             ("Unknown section or command: " ^^ quoted "hello");
           Validation.mkDiagnostic None
             "Missing required section: '@records'" ])) /\
  forall st : Parser.SQON RecordT,
    Parser.r_errors (Parser.finish st)
    = Parser.errors st ++
      (if Parser.noSection st && (length (Parser.records st) =? 0)%nat
       then [Validation.mkDiagnostic None
               "Missing required section: '@records'"]
       else []).
Proof.
  split.
  - vm_compute; reflexivity.
  - intros st. unfold Parser.finish, truthyObject. simpl.
    destruct (Parser.noSection st); simpl.
    + destruct (length (Parser.records st) =? 0)%nat; simpl.
      * reflexivity.
      * now rewrite app_nil_r.
    + now rewrite app_nil_r.
Qed.

End OrchestratorRuns.

(** ** Rule values: [parseRules] *)


(** ** The cap on a section's diagnostics *)

Section Cap.

Variable P : Platform.
Variable RecordT : Type.
Variable schemaCompiler :
  list string -> nat -> list string -> Exc Parser.SchemaResults.
Variable recordCompiler :
  list string -> nat -> nat -> Exc (Parser.RecordResults RecordT).


Lemma length_strayDiagnostics (bad : list string) :
  forall position,
    length (Validation.strayDiagnostics position bad) = length bad.
Proof.
  induction bad as [| l bad IH]; intros position; simpl.
  - reflexivity.
  - now rewrite IH.
Qed.

(** The loop of the validation compiler takes a run of stray lines one
    diagnostic at a time. *)
Lemma parseValidationLoop_stray (bad rest : list string) :
  forallb Validation.strayLine bad = true ->
  forall st,
    Validation.parseValidationLoop P Parser.validationKeywords
      (bad ++ rest) st
    = Validation.parseValidationLoop P Parser.validationKeywords rest
        (Validation.mkState (Validation.lines st)
           (Validation.position st + length bad)
           (Validation.validations st)
           (Validation.errors st
            ++ Validation.strayDiagnostics (Validation.position st) bad)
           (Validation.parsedSchema st)).
Proof.
  induction bad as [| l bad IH]; intros Hbad st.
  - simpl. rewrite Nat.add_0_r, app_nil_r. now destruct st.
  - simpl in Hbad. apply andb_true_iff in Hbad. destruct Hbad as [Hl Hbad].
    unfold Validation.strayLine in Hl. cbv zeta in Hl.
    repeat (apply andb_true_iff in Hl; destruct Hl as [Hl ?]).
    repeat match goal with
           | E : negb _ = true |- _ => apply negb_true_iff in E
           end.
    cbn [app Validation.parseValidationLoop]. cbv zeta.
    rewrite Hl.
    repeat match goal with E : _ = false |- _ => rewrite E end.
    cbn [negb].
    rewrite (IH Hbad). cbn [Validation.step Validation.withErrors
      Validation.lines Validation.position Validation.validations
      Validation.errors Validation.parsedSchema Validation.pushError
      Validation.strayDiagnostics length].
    unfold Validation.pushError. rewrite <- app_assoc. cbn [app].
    now replace (Validation.position st + 1 + length bad)
      with (Validation.position st + S (length bad)) by lia.
Qed.

(** C6. Each of the three section calls of the orchestrator appends to
    the aggregated error list the first [MAX_ERRORS = 50] diagnostics of
    the section and nothing else, so no section adds more than 50; a
    [@validations] section of 60 stray lines, one diagnostic each, adds
    exactly the first 50 of them, and the document made of that section
    alone ends with 52 diagnostics: one for the section order, those 50
    and one for the missing records. *)
Theorem section_diagnostics_capped (st : Parser.SQON RecordT) :
  (forall st',
     Parser.parseSchema schemaCompiler st = Ret st' ->
     exists results,
       schemaCompiler (Parser.lines st) (Parser.position st)
         Parser.allowedTypes = Ret results /\
       Parser.errors st'
       = Parser.errors st ++ firstn 50 (Parser.sr_errors results) /\
       length (Parser.errors st') <= length (Parser.errors st) + 50) /\
  (forall st',
     Parser.parseValidation P st = Ret st' ->
     exists results,
       Validation.parseValidation P Parser.validationKeywords
         (Validation.new (Parser.lines st) (Parser.position st)
                         (Parser.parsedSchema st)) = Ret results /\
       Parser.errors st'
       = Parser.errors st ++ firstn 50 (Validation.errors results) /\
       length (Parser.errors st') <= length (Parser.errors st) + 50) /\
  (forall st',
     Parser.parseRecords recordCompiler st = Ret st' ->
     exists results,
       recordCompiler (Parser.lines st) (Parser.position st) 500
       = Ret results /\
       Parser.errors st'
       = Parser.errors st ++ firstn 50 (Parser.rr_errors results) /\
       length (Parser.errors st') <= length (Parser.errors st) + 50) /\
  (forall bad after,
     skipn (Parser.position st) (Parser.lines st) = bad ++ "@end" :: after ->
     forallb Validation.strayLine bad = true ->
     length bad = 60 ->
     exists st',
       Parser.parseValidation P st = Ret st' /\
       Parser.errors st'
       = Parser.errors st
         ++ firstn 50 (Validation.strayDiagnostics (Parser.position st) bad) /\
       length (Parser.errors st') = length (Parser.errors st) + 50) /\
  (exists r,
     Parser.run P schemaCompiler recordCompiler 3 None
       (Parser.strayDocument 60) = Some (Ret r) /\
     Parser.r_errors r
     = Validation.mkDiagnostic (Some 1)
         "'@validations' must come after '@schema'."
       :: firstn 50 (Validation.strayDiagnostics 1 (repeat "oops" 60))
       ++ [Validation.mkDiagnostic None
             "Missing required section: '@records'"] /\
     length (Parser.r_errors r) = 52).
Proof.
  assert (Hcap : forall (old : list Validation.Diagnostic) new,
             length (old ++ firstn 50 new) <= length old + 50).
  { intros old new. rewrite length_app.
    pose proof (firstn_le_length 50 new). lia. }
  split; [ | split; [ | split; [ | split ] ] ].
  - intros st'. unfold Parser.parseSchema.
    destruct (schemaCompiler _ _ _) as [results | e]; cbn [bind];
      [ | discriminate ].
    intros E. apply Ret_inj in E. subst st'. exists results.
    cbn [Parser.errors]. unfold Parser.MAX_ERRORS. auto.
  - intros st'. unfold Parser.parseValidation.
    destruct (Validation.parseValidation _ _ _) as [results | e]; cbn [bind];
      [ | discriminate ].
    intros E. apply Ret_inj in E. subst st'. exists results.
    cbn [Parser.errors]. unfold Parser.MAX_ERRORS. auto.
  - intros st'. unfold Parser.parseRecords.
    destruct (recordCompiler _ _ _) as [results | e]; cbn [bind];
      [ | discriminate ].
    intros E. apply Ret_inj in E. subst st'. exists results.
    cbn [Parser.errors]. unfold Parser.MAX_ERRORS. auto.
  - intros bad after Hlines Hbad Hlen.
    unfold Parser.parseValidation, Validation.parseValidation.
    cbn [Validation.new Validation.lines Validation.position].
    rewrite Hlines, (@parseValidationLoop_stray bad ("@end" :: after) Hbad).
    cbn [Validation.parseValidationLoop]. cbv zeta.
    replace (trim "@end" =? "@end") with true by reflexivity.
    cbn [bind Validation.lines Validation.position Validation.validations
         Validation.errors Validation.parsedSchema app].
    eexists. split; [ reflexivity | ].
    cbn [Parser.errors Parser.MAX_ERRORS]. split; [ reflexivity | ].
    unfold Validation.new.
    cbn [Validation.errors Validation.position app].
    rewrite length_app, length_firstn, length_strayDiagnostics, Hlen.
    reflexivity.
  - eexists. split; [ vm_compute; reflexivity | ].
    split; vm_compute; reflexivity.
Qed.

End Cap.

(** The section of sixty lines [oops], entered after its marker. *)
Lemma section_diagnostics_capped_witness :
  let st := Parser.mkSQON (None : option Parser.SectionName)
              (Parser.strayDocument 60) 1 [] [] ([] : list unit) [] [] false in
  skipn (Parser.position st) (Parser.lines st)
    = repeat "oops" 60 ++ "@end" :: [] /\
  forallb Validation.strayLine (repeat "oops" 60) = true /\
  length (repeat "oops" 60) = 60 /\
  exists st',
    Parser.parseValidation integerPlatform st = Ret st' /\
    length (Parser.errors st') = 50.
Proof.
  intros st.
  split; [ reflexivity | split; [ reflexivity | split; [ reflexivity | ] ] ].
  destruct (@section_diagnostics_capped integerPlatform unit
              (@Parser.unreached (list string)) Parser.unreachedRecords st)
    as (_ & _ & _ & Hstray & _).
  destruct (Hstray (repeat "oops" 60) [] eq_refl eq_refl eq_refl)
    as (st' & Hrun & _ & Hlen).
  exists st'. split; [ exact Hrun | exact Hlen ].
Defined.

(** ** The runtime validator *)

Lemma foldExc_throws {A S} (f : S -> A -> Exc S) (a : A) :
  (forall s, exists e, f s a = Throw e) ->
  forall before after s,
    exists e, foldExc f (before ++ a :: after) s = Throw e.
Proof.
  intros Ha before. induction before as [| b before IH]; intros after s.
  - simpl. destruct (Ha s) as [e ->]. now exists e.
  - simpl. destruct (f s b) as [s' | e]; simpl.
    + apply IH.
    + now exists e.
Qed.

(** C9. [minLength], [maxLength] and [maxSize] read [value.length]
    unguarded: when the data gives null or undefined for a field whose
    rules start with one of the three, the rule, [validateFields] and
    [validate] throw a TypeError instead of returning a result; with the
    rule anywhere among the rules of any field of the tree,
    [validateFields] still throws. *)
Theorem length_rules_throw_on_nothing (P : Platform)
  (field rule : string) (ruleValue value data : JsValue)
  (errs : list Validator.FieldError) :
  In rule ["minLength"; "maxLength"; "maxSize"] ->
  value = JNull \/ value = JUndefined ->
  getProp data field = Ret value ->
  Validator.evalRule P field rule ruleValue value errs = Throw TypeError /\
  (forall others nested,
     let tree := [(field, Validator.mkValidationInput
                            (Some ((rule, ruleValue) :: others)) nested)] in
     Validator.validateFields P tree data errs = Throw TypeError /\
     Validator.validate P None (Some tree) data = Throw TypeError) /\
  (forall rules nested before after,
     In (rule, ruleValue) rules ->
     exists e,
       Validator.validateFields P
         (before ++ (field, Validator.mkValidationInput (Some rules) nested)
                 :: after) data errs = Throw e).
Proof.
  intros Hrule Hvalue Hdata.
  assert (Hthrow : forall errs,
             Validator.evalRule P field rule ruleValue value errs
             = Throw TypeError).
  { intros errs0. simpl in Hrule.
    destruct Hrule as [<- | [<- | [<- | []]]];
      destruct Hvalue as [-> | ->]; reflexivity. }
  split; [ apply Hthrow | split ].
  - intros others nested tree. subst tree.
    unfold Validator.validate, Validator.validateFields.
    cbn [foldExc fst snd]. rewrite Hdata.
    cbn [bind Validator.validateField foldExc fst snd].
    rewrite !Hthrow. split; reflexivity.
  - intros rules nested before after Hin.
    unfold Validator.validateFields.
    apply foldExc_throws. intros s. cbn [fst snd]. rewrite Hdata.
    cbn [bind Validator.validateField].
    apply in_split in Hin. destruct Hin as (r1 & r2 & ->).
    destruct (@foldExc_throws _ _
                (fun errs kv =>
                   Validator.evalRule P field (fst kv) (snd kv) value errs)
                (rule, ruleValue)
                (fun s0 => ex_intro _ TypeError (Hthrow s0)) r1 r2 s)
      as [e ->].
    now exists e.
Qed.

(** A rule tree with [minLength] on [name], and data whose [name] is
    null. *)
Lemma length_rules_throw_on_nothing_witness :
  let data := JObj [("name", JNull)] in
  let tree := [("name", Validator.mkValidationInput
                          (Some [("minLength", JNum (JDec 3 0))]) [])] in
  In "minLength" ["minLength"; "maxLength"; "maxSize"] /\
  getProp data "name" = Ret JNull /\
  Validator.validateFields integerPlatform tree data [] = Throw TypeError /\
  Validator.validate integerPlatform None (Some tree) data = Throw TypeError.
Proof.
  intros data tree.
  split; [ simpl; auto | split; [ reflexivity | ] ].
  destruct (@length_rules_throw_on_nothing integerPlatform "name" "minLength"
              (JNum (JDec 3 0)) JNull data []
              (or_introl eq_refl) (or_introl eq_refl) eq_refl)
    as (_ & Hfirst & _).
  exact (Hfirst [] []).
Defined.

(** C10. When the schema pass of [validate] records an error, the result
    is [{ valid: false, errors }] with exactly the errors of that pass,
    whatever rule tree was supplied, also one whose evaluation would
    throw: no rule is evaluated. Hence the errors of a result come from
    one pass only: from the schema pass, or, when that pass was absent or
    clean, from the rule pass. *)
Theorem schema_errors_end_validate (P : Platform) (data : JsValue) :
  (forall schema errs validateData,
     Validator.validateSchema schema data [] = Ret errs ->
     errs <> [] ->
     Validator.validate P (Some schema) validateData data
     = Ret (Validator.mkValidationResult false (Some errs))) /\
  (forall schema validateData r es,
     Validator.validate P schema validateData data = Ret r ->
     Validator.errors r = Some es ->
     (exists s, schema = Some s /\ es <> [] /\
                Validator.validateSchema s data [] = Ret es) \/
     (exists vd, validateData = Some vd /\ es <> [] /\
                 Validator.validateFields P vd data [] = Ret es /\
                 (schema = None \/
                  exists s, schema = Some s /\
                            Validator.validateSchema s data [] = Ret []))).
Proof.
  assert (Hvalid : forall l : list Validator.FieldError,
             Validator.isValid l = false <-> l <> []).
  { intros [| x l]; unfold Validator.isValid; simpl; split; congruence. }
  assert (Hrules : forall validateData r es,
    match validateData with
    | Some vd =>
        errs <- Validator.validateFields P vd data [] ;;
        if negb (Validator.isValid errs)
        then Ret (Validator.mkValidationResult false (Some errs))
        else Ret (Validator.mkValidationResult (Validator.isValid errs) None)
    | None => Ret (Validator.mkValidationResult (Validator.isValid []) None)
    end = Ret r ->
    Validator.errors r = Some es ->
    exists vd, validateData = Some vd /\ es <> [] /\
               Validator.validateFields P vd data [] = Ret es).
  { intros [vd |] r es;
      [ | intros E; apply Ret_inj in E; subst r; cbn [Validator.errors];
          discriminate ].
    destruct (Validator.validateFields P vd data []) as [errs | e] eqn:Hf;
      cbn [bind]; [ | discriminate ].
    destruct (Validator.isValid errs) eqn:Hv; cbn [negb];
      intros E; apply Ret_inj in E; subst r; cbn [Validator.errors];
      [ discriminate | ].
    intros Hes. injection Hes as <-.
    exists vd. split; [ reflexivity | split; [ now apply Hvalid | ] ].
    exact Hf. }
  split.
  - intros schema errs validateData Hschema Hne.
    unfold Validator.validate. rewrite Hschema. cbn [bind].
    apply Hvalid in Hne. now rewrite Hne.
  - intros [s |] validateData r es; unfold Validator.validate.
    + destruct (Validator.validateSchema s data []) as [errs | e] eqn:Hs;
        cbn [bind]; [ | discriminate ].
      destruct (Validator.isValid errs) eqn:Hv; cbn [negb].
      * destruct errs; [ | discriminate ].
        intros E Hes. right.
        destruct (Hrules _ _ _ E Hes) as (vd & -> & Hne & Hvd).
        exists vd. repeat split; auto. right. now exists s.
      * intros E Hes. apply Ret_inj in E. subst r.
        cbn [Validator.errors] in Hes. injection Hes as <-.
        left. exists s. repeat split; auto. now apply Hvalid.
    + intros E Hes. right.
      destruct (Hrules _ _ _ E Hes) as (vd & -> & Hne & Hvd).
      exists vd. repeat split; auto.
Qed.

(** A schema asking a Number for [age], data whose [age] is null, and a
    rule tree that would throw on it. *)
Lemma schema_errors_end_validate_witness :
  let data := JObj [("age", JNull)] in
  let schema := [("age", Validator.mkSchemaDefinition ["Number"] None None)] in
  let tree := [("age", Validator.mkValidationInput
                         (Some [("maxLength", JNum (JDec 3 0))]) [])] in
  let errs := [Validator.mkFieldError "age"
                 "Field age does not match schema type: Number"] in
  Validator.validateSchema schema data [] = Ret errs /\
  errs <> [] /\
  Validator.validateFields integerPlatform tree data [] = Throw TypeError /\
  Validator.validate integerPlatform (Some schema) (Some tree) data
  = Ret (Validator.mkValidationResult false (Some errs)).
Proof.
  intros data schema tree errs.
  assert (Hs : Validator.validateSchema schema data [] = Ret errs)
    by reflexivity.
  assert (Hne : errs <> []) by discriminate.
  split; [ exact Hs | split; [ exact Hne | split; [ reflexivity | ] ] ].
  destruct (schema_errors_end_validate integerPlatform data) as (Hstop & _).
  exact (Hstop schema errs (Some tree) Hs Hne).
Defined.

(* ===================================================================== *)
(** * Further properties                                                  *)
(* ===================================================================== *)

Unset Implicit Arguments.

(** ** More on [parseValue] *)

Lemma chars_append (a b : string) : chars (a ^^ b) = chars a ++ chars b.
Proof.
  induction a as [| c a IH]; cbn [String.append chars list_ascii_of_string app].
  - reflexivity.
  - unfold chars in IH. now rewrite IH.
Qed.

Lemma str_chars (s : string) : str (chars s) = s.
Proof. apply string_of_list_ascii_of_string. Qed.

Lemma chars_str (l : list ascii) : chars (str l) = l.
Proof. apply list_ascii_of_string_of_list_ascii. Qed.

Lemma prefix_empty (s : string) : String.prefix "" s = true.
Proof. now destruct s. Qed.

Lemma prefix_same_head (c : ascii) (p s : string) :
  String.prefix (String c p) (String c s) = String.prefix p s.
Proof.
  cbn [String.prefix]. destruct (ascii_dec c c); [ reflexivity | congruence ].
Qed.

Lemma substring_append (s t : string) :
  String.substring 0 (String.length s) (s ^^ t) = s.
Proof.
  induction s as [| c s IH]; cbn [String.length String.append String.substring].
  - now destruct t.
  - now rewrite IH.
Qed.

Lemma length_append (s t : string) :
  String.length (s ^^ t) = String.length s + String.length t.
Proof.
  induction s as [| c s IH]; cbn [String.length String.append plus].
  - reflexivity.
  - now rewrite IH.
Qed.

Lemma slice_quoted (s : string) : slice_1_m1 (quoted s) = s.
Proof.
  unfold slice_1_m1, quoted. cbn [String.length String.substring].
  rewrite length_append. cbn [String.length].
  replace (S (String.length s + 1) - 2) with (String.length s) by lia.
  apply substring_append.
Qed.

Lemma quoted_starts (s : string) : startsWith (quoted s) Validation.dqs = true.
Proof.
  unfold startsWith, quoted, Validation.dqs.
  rewrite prefix_same_head. apply prefix_empty.
Qed.

Lemma quoted_ends (s : string) : endsWith (quoted s) Validation.dqs = true.
Proof.
  unfold endsWith, quoted, Validation.dqs.
  cbn [chars list_ascii_of_string List.rev app str string_of_list_ascii].
  change (list_ascii_of_string (s ^^ String dq "")) with
    (chars (s ^^ String dq "")).
  rewrite chars_append. cbn [chars list_ascii_of_string].
  rewrite rev_app_distr.
  cbn [List.rev app string_of_list_ascii].
  rewrite prefix_same_head. apply prefix_empty.
Qed.

(** X2. Whatever text stands between two double quotes is read back as
    that very String, the quotes taken off and nothing else changed; the
    empty text alone is read as undefined. *)
Theorem parseValue_quoted (P : Platform) (s : string) :
  Validation.parseValue P (quoted s)
  = Ret (if s =? "" then Validation.Parsed JUndefined "undefined"
         else Validation.Parsed (JStr s) "String").
Proof.
  unfold Validation.parseValue.
  replace (quoted s =? "") with false by reflexivity.
  rewrite quoted_starts, quoted_ends, slice_quoted. cbn [andb].
  now destruct (s =? "").
Qed.

Lemma BigInt_throws (s : string) (e : JsError) :
  BigInt s = Throw e -> e = SyntaxError.
Proof.
  unfold BigInt. cbv zeta.
  destruct (trim s =? ""); [ discriminate | ].
  destruct (test _ (trim s)).
  - destruct (readSign (chars (trim s))). discriminate.
  - destruct (test reNonDecimalInteger (trim s)); [ | congruence ].
    destruct (chars (trim s)) as [| a [| c ds]]; congruence.
Qed.

(** X3. [parseValue] has one way to throw: the text is a numeric string
    for [Number], its value lies outside the safe-integer range, and
    [BigInt] rejects the text with a SyntaxError. Every other text gives a
    value or an error result. *)
Theorem parseValue_throws_only_in_BigInt (P : Platform) (value : string)
  (e : JsError) :
  Validation.parseValue P value = Throw e ->
  e = SyntaxError /\
  Number_isNaN value = false /\
  (gtMaxSafe (parseFloat value) || ltMinSafe (parseFloat value)) = true /\
  BigInt value = Throw SyntaxError.
Proof.
  unfold Validation.parseValue.
  destruct (value =? ""); [ discriminate | ].
  destruct (startsWith value Validation.dqs && endsWith value Validation.dqs);
    [ discriminate | ].
  destruct (startsWith value "<Buffer" && endsWith value ">");
    [ discriminate | ].
  destruct (startsWith value "Uint8Array[" && endsWith value "]");
    [ discriminate | ].
  destruct (Number_isNaN value) eqn:Hnan; cbn [negb andb].
  2:{ destruct (negb (isNaN (parseFloat value))
                && negb (startsWith value "0x")).
      - destruct (gtMaxSafe (parseFloat value)
                  || ltMinSafe (parseFloat value)) eqn:Hout;
          [ | discriminate ].
        destruct (BigInt value) as [z | e'] eqn:Hbig; cbn [bind];
          [ discriminate | ].
        intros E. injection E as <-.
        pose proof (BigInt_throws _ _ Hbig) as ->. auto.
      - destruct (value =? "TRUE"); [ discriminate | ].
        destruct (value =? "FALSE"); [ discriminate | ].
        destruct (value =? "NULL"); [ discriminate | ].
        destruct (value =? "undefined"); [ discriminate | ].
        destruct (Validation.isValidDate P (JStr value)); [ | discriminate ].
        destruct (Validation.parseDate P value); discriminate. }
  destruct (value =? "TRUE"); [ discriminate | ].
  destruct (value =? "FALSE"); [ discriminate | ].
  destruct (value =? "NULL"); [ discriminate | ].
  destruct (value =? "undefined"); [ discriminate | ].
  destruct (Validation.isValidDate P (JStr value)); [ | discriminate ].
  destruct (Validation.parseDate P value); discriminate.
Qed.

(** The text [9007199254740993.5] is such a one. *)
Lemma parseValue_throws_only_in_BigInt_witness :
  Validation.parseValue integerPlatform "9007199254740993.5"
    = Throw SyntaxError /\
  BigInt "9007199254740993.5" = Throw SyntaxError.
Proof.
  assert (H : Validation.parseValue integerPlatform "9007199254740993.5"
              = Throw SyntaxError) by (vm_compute; reflexivity).
  split; [ exact H | ].
  exact (proj2 (proj2 (proj2 (parseValue_throws_only_in_BigInt _ _ _ H)))).
Defined.




(** The text [9007199254740993] is a run of digits beyond the range. *)
Lemma parseValue_integer_literal_witness :
  "9007199254740993" <> "" /\
  forallb isDigit (chars "9007199254740993") = true /\
  Validation.parseValue integerPlatform "9007199254740993"
  = Ret (Validation.Parsed (JBigInt 9007199254740993) "Number").
Proof.
  split; [ discriminate | split; [ reflexivity | ] ].
  exact (@parseValue_integer_literal integerPlatform "9007199254740993"
           ltac:(discriminate) eq_refl).
Defined.

(** ** More on [parseRules] *)

Lemma split_go_absent (sep : string) (s : string) :
  forall cur,
    includes s sep = false ->
    split_go sep s cur 0 = [str (List.rev cur ++ chars s)].
Proof.
  induction s as [| c s IH]; intros cur H; cbn [split_go chars
    list_ascii_of_string].
  - now rewrite app_nil_r.
  - cbn [includes] in H. apply orb_false_iff in H. destruct H as [Hp Hs].
    rewrite Hp, (IH (c :: cur) Hs). cbn [List.rev].
    now rewrite <- app_assoc.
Qed.

Lemma split_absent (s sep : string) :
  includes s sep = false -> split s sep = [s].
Proof.
  intros H. unfold split. rewrite (split_go_absent _ _ [] H).
  cbn [List.rev app]. now rewrite str_chars.
Qed.

Lemma split_go_nonempty (sep s : string) :
  forall cur skip, split_go sep s cur skip <> [].
Proof.
  induction s as [| c s IH]; intros cur skip; cbn [split_go].
  - discriminate.
  - destruct skip; [ destruct (String.prefix sep (String c s)) | ];
      [ discriminate | apply IH | apply IH ].
Qed.

Lemma split_go_at_separator (c : ascii) (y : string) (x : string) :
  forall cur,
    split_go (String c "") (x ^^ String c y) cur 0
    = removelast (split_go (String c "") x cur 0)
      ++ [last (split_go (String c "") x cur 0) ""]
      ++ split_go (String c "") y [] 0.
Proof.
  induction x as [| a x IH]; intros cur.
  - cbn [String.append split_go]. rewrite prefix_same_head, prefix_empty.
    reflexivity.
  - cbn [String.append split_go]. cbn [String.prefix].
    destruct (ascii_dec c a) as [<- | Hne].
    + rewrite !prefix_empty. cbn [String.length Nat.sub].
      rewrite IH.
      destruct (split_go (String c "") x [] 0) eqn:E.
      * now apply split_go_nonempty in E.
      * reflexivity.
    + apply IH.
Qed.

(** The pieces of a text at a one-character separator end with the
    pieces of what follows an occurrence of the separator. *)
Lemma split_last_piece (c : ascii) (x y : string) :
  includes y (String c "") = false ->
  In y (split (x ^^ String c y) (String c "")).
Proof.
  intros Hy. unfold split. rewrite split_go_at_separator.
  fold (split y (String c "")). rewrite (split_absent _ _ Hy).
  apply in_or_app. right. apply in_or_app. right. now left.
Qed.




(** X5. [parseRules] splits the rule text at every comma and each piece
    at [=]: a piece without [=] has no value, and testing that value
    throws a TypeError. So the rule text throws as a whole when one of
    its pieces has no [=]; in particular when its last comma is followed
    by text without [=], as in [enum=[a,b]] or after a trailing comma. *)
Theorem parseRules_throws_without_equals (P : Platform) (position : nat)
  (rule : string) :
  includes rule "=" = false ->
  (forall st, Validation.parseRule P position st rule = Throw TypeError) /\
  (forall rulesStr errors,
     In rule (split rulesStr ",") ->
     exists e, Validation.parseRules P position rulesStr errors = Throw e) /\
  (forall before errors,
     includes rule "," = false ->
     exists e,
       Validation.parseRules P position (before ^^ "," ^^ rule) errors
       = Throw e).
Proof.
  intros Hrule.
  assert (Hone : forall st,
             Validation.parseRule P position st rule = Throw TypeError).
  { intros [rules errors]. unfold Validation.parseRule. cbv zeta.
    rewrite (split_absent _ _ Hrule). cbn [map nth nth_error].
    unfold Validation.defaultBranch, Validation.otherBranch.
    now destruct (trim rule =? "default"). }
  assert (Hall : forall rulesStr errors,
             In rule (split rulesStr ",") ->
             exists e,
               Validation.parseRules P position rulesStr errors = Throw e).
  { intros rulesStr errors Hin. unfold Validation.parseRules.
    apply in_split in Hin. destruct Hin as (l1 & l2 & ->).
    apply foldExc_throws. intros s. exists TypeError. apply Hone. }
  split; [ exact Hone | split; [ exact Hall | ] ].
  intros before errors Hcomma. apply Hall.
  now apply split_last_piece.
Qed.

Lemma parseRules_throws_without_equals_witness :
  includes "b]" "=" = false /\ includes "b]" "," = false /\
  exists e,
    Validation.parseRules integerPlatform 0 "enum=[a,b]" [] = Throw e.
Proof.
  split; [ reflexivity | split; [ reflexivity | ] ].
  destruct (parseRules_throws_without_equals integerPlatform 0 "b]" eq_refl)
    as (_ & _ & Hlast).
  exact (Hlast "enum=[a" [] eq_refl).
Defined.

(** ** Diagnostics and cursor of the validation compiler *)

Lemma added_refl (p : Validation.Diagnostic -> Prop) l : Laws.added p l l.
Proof. exists []. now rewrite app_nil_r. Qed.

Lemma added_trans (p : Validation.Diagnostic -> Prop) a b c :
  Laws.added p a b -> Laws.added p b c -> Laws.added p a c.
Proof.
  intros (m1 & -> & H1) (m2 & -> & H2). exists (m1 ++ m2).
  split; [ now rewrite app_assoc | now apply Forall_app ].
Qed.

Lemma added_one (p : Validation.Diagnostic -> Prop) l d :
  p d -> Laws.added p l (l ++ [d]).
Proof. intros H. exists [d]. split; [ reflexivity | now constructor ]. Qed.

Lemma added_weaken (p q : Validation.Diagnostic -> Prop) a b :
  (forall d, p d -> q d) -> Laws.added p a b -> Laws.added q a b.
Proof.
  intros Hpq (m & -> & H). exists m. split; [ reflexivity | ].
  eapply Forall_impl; eauto.
Qed.

Lemma added_push (position : nat) l msg :
  Laws.added (Laws.atLine (position + 1)) l
    (Validation.pushError position l msg).
Proof. apply added_one. reflexivity. Qed.

Lemma foldExc_rel {A S} (R : S -> S -> Prop) (f : S -> A -> Exc S) :
  (forall s, R s s) ->
  (forall a b c, R a b -> R b c -> R a c) ->
  (forall s a s', f s a = Ret s' -> R s s') ->
  forall l s s', foldExc f l s = Ret s' -> R s s'.
Proof.
  intros Hrefl Htrans Hf l. induction l as [| a l IH]; intros s s';
    cbn [foldExc].
  - intros E. injection E as <-. apply Hrefl.
  - destruct (f s a) as [s1 |] eqn:E1; cbn [bind]; [ | discriminate ].
    intros E. eapply Htrans; [ eapply Hf; eauto | eapply IH; eauto ].
Qed.

Lemma foldExc_added {A} (p : Validation.Diagnostic -> Prop)
  (f : list Validation.Diagnostic -> A -> Exc (list Validation.Diagnostic)) :
  (forall s a s', f s a = Ret s' -> Laws.added p s s') ->
  forall l s s', foldExc f l s = Ret s' -> Laws.added p s s'.
Proof.
  intros Hf. apply foldExc_rel; auto.
  - intros s. apply added_refl.
  - intros a b c. apply added_trans.
Qed.

Ltac split_ifs :=
  repeat match goal with
         | |- context [if ?c then _ else _] => destruct c
         end.

Ltac finish_added :=
  match goal with
  | |- Ret _ = Ret _ -> _ =>
      let E := fresh in
      intros E; apply Ret_inj in E; subst;
      cbn [fst snd]; first [ apply added_refl | apply added_push
                           | apply added_one; reflexivity ]
  | |- Throw _ = Ret _ -> _ => discriminate
  end.

Section CompilerInvariants.

Variable P : Platform.
Variable keywords : Obj (list string).

Lemma parseRule_added (position : nat) (st st' : Validation.RuleState)
  (rule : string) :
  Validation.parseRule P position st rule = Ret st' ->
  Laws.added (Laws.atLine (position + 1)) (snd st) (snd st').
Proof.
  destruct st as [rules errors].
  unfold Validation.parseRule, Validation.defaultBranch,
    Validation.otherBranch, Validation.invalidFormat. cbv zeta.
  destruct (nth_error _ 1) as [ruleValue |];
    [ | destruct (_ =? "default"); discriminate ].
  split_ifs; try finish_added; try (cbn [bind]; finish_added);
    try (destruct (Validation.parseObject P _); cbn [bind]; finish_added).
Qed.

Lemma parseRules_added (position : nat) (rulesStr : string)
  (errors : list Validation.Diagnostic) (st' : Validation.RuleState) :
  Validation.parseRules P position rulesStr errors = Ret st' ->
  Laws.added (Laws.atLine (position + 1)) errors (snd st').
Proof.
  unfold Validation.parseRules. intros H.
  apply (foldExc_rel
           (fun a b : Validation.RuleState =>
              Laws.added (Laws.atLine (position + 1)) (snd a) (snd b))
           (Validation.parseRule P position)) in H; auto.
  - intros s. apply added_refl.
  - intros a b c. apply added_trans.
  - intros s a s'. apply parseRule_added.
Qed.

Lemma validateObjectArrayItems_added parsedSchema position key rules
  errors errors' :
  Validation.validateObjectArrayItems keywords parsedSchema position key
    rules errors = Ret errors' ->
  Laws.added (Laws.atLine (position + 1)) errors errors'.
Proof.
  unfold Validation.validateObjectArrayItems. cbv zeta.
  destruct (objGet parsedSchema _) as [node |]; [ | finish_added ].
  destruct (Validation.items node) as [its |]; [ | finish_added ].
  apply (foldExc_added (Laws.atLine (position + 1))).
  intros s a s'. destruct (objRead keywords a); split_ifs; finish_added.
Qed.

Lemma validateObjectProperties_added parsedSchema position key rules
  errors errors' :
  Validation.validateObjectProperties keywords parsedSchema position key
    rules errors = Ret errors' ->
  Laws.added (Laws.atLine (position + 1)) errors errors'.
Proof.
  unfold Validation.validateObjectProperties. cbv zeta.
  destruct (objGet parsedSchema _) as [node |]; [ | finish_added ].
  destruct (Validation.properties node) as [props |]; [ | finish_added ].
  apply (foldExc_added (Laws.atLine (position + 1))).
  intros s a s'.
  destruct (objGet props _) as [propSchema |];
    destruct (objRead keywords a); try finish_added.
  - split_ifs; finish_added.
  - destruct (Validation.type propSchema); finish_added.
Qed.

Lemma validateRule_added parsedSchema position key rules types errors
  ruleName errors' :
  Validation.validateRule P keywords parsedSchema position key rules types
    errors ruleName = Ret errors' ->
  Laws.added (Laws.atLine (position + 1)) errors errors'.
Proof.
  unfold Validation.validateRule. cbv zeta.
  destruct (objRead keywords ruleName) as [validTypes | |];
    [ | discriminate | finish_added ].
  set (e1 := if negb _ then _ else errors).
  assert (H1 : Laws.added (Laws.atLine (position + 1)) errors e1)
    by (subst e1; split_ifs; [ apply added_push | apply added_refl ]).
  set (e2 := if (ruleName =? "default") || _ then _ else e1).
  assert (H2 : Laws.added (Laws.atLine (position + 1)) e1 e2)
    by (subst e2; split_ifs;
        [ apply added_push | apply added_refl | apply added_refl ]).
  pose proof (added_trans _ _ _ _ H1 H2) as H12. clearbody e1 e2.
  destruct (arrIncludes types "ObjectArray").
  - intros H. apply validateObjectArrayItems_added in H.
    eapply added_trans; eauto.
  - destruct (arrIncludes types "Object").
    + intros H. apply validateObjectProperties_added in H.
      eapply added_trans; eauto.
    + intros E. apply Ret_inj in E. now subst.
Qed.

Lemma validateRulesAgainstSchema_added parsedSchema position key rules
  errors errors' :
  Validation.validateRulesAgainstSchema P keywords parsedSchema position
    key rules errors = Ret errors' ->
  Laws.added (Laws.atLine (position + 1)) errors errors'.
Proof.
  unfold Validation.validateRulesAgainstSchema. cbv zeta.
  destruct (negb _); [ finish_added | ].
  apply (foldExc_added (Laws.atLine (position + 1))).
  intros s a s'. apply validateRule_added.
Qed.

Lemma hasErrorAtLine_added (old new : list Validation.Diagnostic) (n : nat) :
  Laws.added (Laws.atLine n) old new -> new <> old ->
  Validation.hasErrorAtLine new n = true.
Proof.
  intros (more & -> & Hmore) Hne. destruct more as [| d more].
  - now rewrite app_nil_r in Hne.
  - unfold Validation.hasErrorAtLine. rewrite existsb_app.
    inversion Hmore as [| ? ? Hd _]; subst. unfold Laws.atLine in Hd.
    cbn [existsb]. rewrite Hd, Nat.eqb_refl. cbn [orb].
    apply orb_true_r.
Qed.

(** What one line of the section keeps of the state. *)
Lemma processValidationLine_frame (st st' : Validation.State)
  (line : string) :
  Validation.processValidationLine P keywords st line = Ret st' ->
  Validation.lines st' = Validation.lines st /\
  Validation.position st' = Validation.position st /\
  Validation.parsedSchema st' = Validation.parsedSchema st /\
  Laws.added (Laws.atLine (Validation.position st + 1))
    (Validation.errors st) (Validation.errors st').
Proof.
  unfold Validation.processValidationLine. cbv zeta.
  destruct (negb (includes line "->")).
  { intros E. apply Ret_inj in E. subst st'.
    cbn. repeat split; auto. apply added_push. }
  destruct (nth_error _ 1) as [rulesStr |]; [ | discriminate ].
  destruct (Validation.parseRules P _ rulesStr _) as [[rules errs] |] eqn:Hr;
    cbn [bind]; [ | discriminate ].
  apply parseRules_added in Hr. cbn [snd] in Hr.
  destruct (Validation.validateRulesAgainstSchema P keywords _ _ _ rules errs)
    as [errs' |] eqn:Hv; cbn [bind]; [ | discriminate ].
  apply validateRulesAgainstSchema_added in Hv.
  pose proof (added_trans _ _ _ _ Hr Hv) as Hadd.
  destruct (negb (Validation.hasErrorAtLine errs' _));
    intros E; apply Ret_inj in E; subst st'; cbn; repeat split; auto.
Qed.

(** X6. One line of the section: its diagnostics are added at the end of
    the list, all with the 1-based number of the line, nothing else of the
    state but the rule set changes, and the rule set changes only when the
    line added no diagnostic: a line that is answered with a diagnostic is
    never merged. *)
Theorem processValidationLine_rejects_or_merges (st st' : Validation.State)
  (line : string) :
  Validation.processValidationLine P keywords st line = Ret st' ->
  Validation.lines st' = Validation.lines st /\
  Validation.position st' = Validation.position st /\
  Validation.parsedSchema st' = Validation.parsedSchema st /\
  Laws.added (Laws.atLine (Validation.position st + 1))
    (Validation.errors st) (Validation.errors st') /\
  (Validation.errors st' <> Validation.errors st ->
   Validation.validations st' = Validation.validations st).
Proof.
  unfold Validation.processValidationLine. cbv zeta.
  destruct (negb (includes line "->")).
  { intros E. apply Ret_inj in E. subst st'.
    cbn. repeat split; auto. apply added_push. }
  destruct (nth_error _ 1) as [rulesStr |]; [ | discriminate ].
  destruct (Validation.parseRules P _ rulesStr _) as [[rules errs] |] eqn:Hr;
    cbn [bind]; [ | discriminate ].
  apply parseRules_added in Hr. cbn [snd] in Hr.
  destruct (Validation.validateRulesAgainstSchema P keywords _ _ _ rules errs)
    as [errs' |] eqn:Hv; cbn [bind]; [ | discriminate ].
  apply validateRulesAgainstSchema_added in Hv.
  pose proof (added_trans _ _ _ _ Hr Hv) as Hadd.
  destruct (negb (Validation.hasErrorAtLine errs' _)) eqn:Hhas;
    intros E; apply Ret_inj in E; subst st'; cbn; repeat split; auto.
  intros Hne. apply negb_true_iff in Hhas.
  now rewrite (hasErrorAtLine_added _ _ _ Hadd Hne) in Hhas.
Qed.

End CompilerInvariants.

Lemma processValidationLine_rejects_or_merges_witness :
  let st := Validation.new ["name -> foo=1"] 0 Parser.nameIsString in
  exists st',
    Validation.processValidationLine integerPlatform
      Parser.validationKeywords st "name -> foo=1" = Ret st' /\
    Validation.errors st' <> Validation.errors st /\
    Validation.validations st' = Validation.validations st.
Proof.
  intros st.
  assert (H : Validation.processValidationLine integerPlatform
                Parser.validationKeywords st "name -> foo=1"
              = Ret (Validation.mkState ["name -> foo=1"] 0 []
                       [Parser.notDefined 0 "foo"] Parser.nameIsString))
    by (vm_compute; reflexivity).
  eexists. split; [ exact H | ].
  assert (Hne : Validation.errors
                  (Validation.mkState ["name -> foo=1"] 0 []
                     [Parser.notDefined 0 "foo"] Parser.nameIsString)
                <> Validation.errors st) by discriminate.
  split; [ exact Hne | ].
  exact (proj2 (proj2 (proj2 (proj2
           (processValidationLine_rejects_or_merges _ _ _ _ _ H)))) Hne).
Defined.

Section CompilerLoop.

Variable P : Platform.
Variable keywords : Obj (list string).

Lemma parseValidationLoop_run (rest : list string) :
  forall st st',
    Validation.parseValidationLoop P keywords rest st = Ret st' ->
    Validation.lines st' = Validation.lines st /\
    Validation.parsedSchema st' = Validation.parsedSchema st /\
    Laws.added
      (Laws.withinLines (Validation.position st) (Validation.position st'))
      (Validation.errors st) (Validation.errors st') /\
    exists k,
      Validation.position st' = Validation.position st + k /\
      k <= length rest /\
      (forall j l, j < k -> nth_error rest j = Some l -> trim l <> "@end") /\
      (k < length rest ->
       exists l, nth_error rest k = Some l /\ trim l = "@end").
Proof.
  induction rest as [| l rest IH]; intros st st';
    cbn [Validation.parseValidationLoop]; cbv zeta.
  - intros E. apply Ret_inj in E. subst st'.
    repeat split; auto; [ apply added_refl | ].
    exists 0. cbn [length]. repeat split; auto; intros; lia.
  - destruct (trim l =? "@end") eqn:Hend.
    { intros E. apply Ret_inj in E. subst st'.
      repeat split; auto; [ apply added_refl | ].
      exists 0. cbn [length]. repeat split; auto; try lia.
      intros _. exists l. split; [ reflexivity | now apply String.eqb_eq ]. }
    apply String.eqb_neq in Hend.
    assert (Hnext : forall st1,
      Validation.lines st1 = Validation.lines st ->
      Validation.position st1 = Validation.position st ->
      Validation.parsedSchema st1 = Validation.parsedSchema st ->
      Laws.added (Laws.atLine (Validation.position st + 1))
        (Validation.errors st) (Validation.errors st1) ->
      Validation.parseValidationLoop P keywords rest (Validation.step st1)
        = Ret st' ->
      Validation.lines st' = Validation.lines st /\
      Validation.parsedSchema st' = Validation.parsedSchema st /\
      Laws.added
        (Laws.withinLines (Validation.position st) (Validation.position st'))
        (Validation.errors st) (Validation.errors st') /\
      exists k,
        Validation.position st' = Validation.position st + k /\
        k <= length (l :: rest) /\
        (forall j l0, j < k -> nth_error (l :: rest) j = Some l0 ->
                      trim l0 <> "@end") /\
        (k < length (l :: rest) ->
         exists l0, nth_error (l :: rest) k = Some l0 /\ trim l0 = "@end")).
    { intros st1 Hl Hp Hs Ha Hrun.
      destruct (IH _ _ Hrun) as (Hl' & Hs' & Ha' & k & Hk & Hle & Hno & Hat).
      cbn [Validation.step Validation.lines Validation.position
           Validation.parsedSchema Validation.errors] in *.
      rewrite Hp in *.
      split; [ congruence | split; [ congruence | split ] ].
      - eapply added_trans.
        + eapply added_weaken; [ | exact Ha ].
          intros d Hd. exists (Validation.position st + 1).
          split; [ exact Hd | lia ].
        + eapply added_weaken; [ | exact Ha' ].
          intros d (n & Hn & Hr). exists n. split; [ exact Hn | lia ].
      - exists (S k). cbn [length]. repeat split; try lia.
        + intros [| j] l0 Hj; cbn [nth_error].
          * intros E. injection E as <-. exact Hend.
          * apply Hno. lia.
        + intros Hlt. cbn [nth_error]. apply Hat. lia. }
    destruct (startsWith (trim l) "!#").
    { apply Hnext; auto. apply added_refl. }
    destruct (includes (trim l) "->").
    { destruct (Validation.processValidationLine P keywords st (trim l))
        as [st1 |] eqn:Hline; cbn [bind]; [ | discriminate ].
      destruct (processValidationLine_frame _ _ _ _ _ Hline)
        as (Hl & Hp & Hs & Ha).
      now apply Hnext. }
    destruct (negb (trim l =? "")).
    + apply Hnext; auto. cbn. apply added_push.
    + apply Hnext; auto. apply added_refl.
Qed.

(** The run of the compiler: what it keeps, where it stops and what it
    adds. *)
Lemma parseValidation_run (st st' : Validation.State) :
  Validation.parseValidation P keywords st = Ret st' ->
  Validation.lines st' = Validation.lines st /\
  Validation.parsedSchema st' = Validation.parsedSchema st /\
  Laws.added
    (Laws.withinLines (Validation.position st) (Validation.position st'))
    (Validation.errors st) (Validation.errors st') /\
  Validation.position st <= Validation.position st' /\
  (forall j l,
     Validation.position st <= j < Validation.position st' ->
     nth_error (Validation.lines st) j = Some l -> trim l <> "@end") /\
  ((exists l, nth_error (Validation.lines st) (Validation.position st')
              = Some l /\ trim l = "@end") \/
   (length (Validation.lines st) <= Validation.position st' /\
    (Validation.position st <= length (Validation.lines st) ->
     Validation.position st' = length (Validation.lines st)))).
Proof.
  unfold Validation.parseValidation. intros H.
  destruct (parseValidationLoop_run _ _ _ H)
    as (Hl & Hs & Ha & k & Hk & Hle & Hno & Hat).
  rewrite length_skipn in Hle, Hat.
  split; [ exact Hl | split; [ exact Hs | split; [ exact Ha | ] ] ].
  split; [ lia | split ].
  - intros j l Hj Hnth.
    apply (Hno (j - Validation.position st) l); [ lia | ].
    rewrite nth_error_skipn.
    now replace (Validation.position st + (j - Validation.position st))
      with j by lia.
  - destruct (Nat.lt_ge_cases k
                (length (Validation.lines st) - Validation.position st))
      as [Hlt | Hge].
    + left. destruct (Hat Hlt) as (l & Hnth & Hend).
      exists l. rewrite nth_error_skipn in Hnth. rewrite Hk. auto.
    + right. split; lia.
Qed.

(** X7. The compiler of the section takes the lines and the schema as
    they are and never moves the cursor back. When it returns, the cursor
    is on the first line from its start that reads [@end], or past the
    last line when there is none. *)
Theorem parseValidation_stops_at_first_end (st st' : Validation.State) :
  Validation.parseValidation P keywords st = Ret st' ->
  Validation.lines st' = Validation.lines st /\
  Validation.parsedSchema st' = Validation.parsedSchema st /\
  Validation.position st <= Validation.position st' /\
  (forall j l,
     Validation.position st <= j < Validation.position st' ->
     nth_error (Validation.lines st) j = Some l -> trim l <> "@end") /\
  ((exists l, nth_error (Validation.lines st) (Validation.position st')
              = Some l /\ trim l = "@end") \/
   (length (Validation.lines st) <= Validation.position st' /\
    (Validation.position st <= length (Validation.lines st) ->
     Validation.position st' = length (Validation.lines st)))).
Proof.
  intros H.
  destruct (parseValidation_run _ _ H) as (Hl & Hs & _ & Hle & Hno & Hat).
  split; [ exact Hl | split; [ exact Hs | split; [ exact Hle | ] ] ].
  split; [ exact Hno | exact Hat ].
Qed.

(** X8. The diagnostics of the section are added at the end of the list
    the compiler started with, none is taken away or changed, and each
    carries the 1-based number of a line the cursor has passed. *)
Theorem parseValidation_diagnostics_in_range (st st' : Validation.State) :
  Validation.parseValidation P keywords st = Ret st' ->
  Laws.added
    (Laws.withinLines (Validation.position st) (Validation.position st'))
    (Validation.errors st) (Validation.errors st').
Proof.
  intros H.
  destruct (parseValidation_run _ _ H) as (_ & _ & Ha & _).
  exact Ha.
Qed.

End CompilerLoop.

Lemma parseValidation_stops_at_first_end_witness :
  exists st',
    Validation.parseValidation integerPlatform Parser.validationKeywords
      (Validation.new Laws.twoLineSection 1 Parser.nameIsString) = Ret st' /\
    Validation.lines st' = Laws.twoLineSection /\
    1 <= Validation.position st' /\
    nth_error Laws.twoLineSection (Validation.position st') = Some "@end".
Proof.
  assert (H : Validation.parseValidation integerPlatform
                Parser.validationKeywords
                (Validation.new Laws.twoLineSection 1 Parser.nameIsString)
              = Ret (Validation.mkState Laws.twoLineSection 3
                       [("name", Validation.mkRuleNode
                                   (Some [("required", JBool true)]) [])]
                       [Validation.mkDiagnostic (Some 3)
                          ("Invalid validation line: " ^^ quoted "oops")]
                       Parser.nameIsString))
    by (vm_compute; reflexivity).
  eexists. split; [ exact H | ].
  destruct (parseValidation_stops_at_first_end _ _ _ _ H)
    as (Hlines & _ & Hle & _).
  split; [ exact Hlines | split; [ exact Hle | reflexivity ] ].
Defined.

Lemma parseValidation_diagnostics_in_range_witness :
  exists st',
    Validation.parseValidation integerPlatform Parser.validationKeywords
      (Validation.new Laws.twoLineSection 1 Parser.nameIsString) = Ret st' /\
    Laws.added (Laws.withinLines 1 3) [] (Validation.errors st').
Proof.
  assert (H : Validation.parseValidation integerPlatform
                Parser.validationKeywords
                (Validation.new Laws.twoLineSection 1 Parser.nameIsString)
              = Ret (Validation.mkState Laws.twoLineSection 3
                       [("name", Validation.mkRuleNode
                                   (Some [("required", JBool true)]) [])]
                       [Validation.mkDiagnostic (Some 3)
                          ("Invalid validation line: " ^^ quoted "oops")]
                       Parser.nameIsString))
    by (vm_compute; reflexivity).
  eexists. split; [ exact H | ].
  exact (parseValidation_diagnostics_in_range _ _ _ _ H).
Defined.

(** ** Paths: [addValidation] and [getSchemaType] *)

Lemma objGet_objSet_same {A} (o : Obj A) (k : string) (v : A) :
  objGet (objSet o k v) k = Some v.
Proof.
  induction o as [| [k' v'] o IH]; cbn [objSet objGet].
  - now rewrite String.eqb_refl.
  - destruct (k' =? k) eqn:E; cbn [objGet].
    + now rewrite String.eqb_refl.
    + now rewrite E.
Qed.

Lemma objGet_objSet_other {A} (o : Obj A) (k k' : string) (v : A) :
  k' <> k -> objGet (objSet o k v) k' = objGet o k'.
Proof.
  intros Hne. induction o as [| [k0 v0] o IH]; cbn [objSet objGet].
  - apply String.eqb_neq in Hne. rewrite String.eqb_sym in Hne.
    now rewrite Hne.
  - destruct (k0 =? k) eqn:E; cbn [objGet].
    + apply String.eqb_eq in E. subst k0.
      apply String.eqb_neq in Hne. rewrite String.eqb_sym in Hne.
      now rewrite Hne.
    + destruct (k0 =? k'); [ reflexivity | exact IH ].
Qed.

(** [{ ...a, ...b }] read at a key: the value [b] binds last to it, and
    the value of [a] when [b] does not bind it. *)
Lemma objGet_objSpread {A} (b : Obj A) :
  forall (a : Obj A) (k : string),
    objGet (objSpread a b) k
    = match objGet (List.rev b) k with
      | Some v => Some v
      | None => objGet a k
      end.
Proof.
  unfold objSpread. induction b as [| [kb vb] b IH]; intros a k;
    cbn [fold_left List.rev fst snd].
  - reflexivity.
  - rewrite IH.
    assert (Happ : forall (l1 l2 : Obj A),
               objGet (l1 ++ l2) k
               = match objGet l1 k with
                 | Some v => Some v
                 | None => objGet l2 k
                 end).
    { intros l1 l2. induction l1 as [| [k1 v1] l1 IHl]; cbn [app objGet].
      - reflexivity.
      - destruct (k1 =? k); [ reflexivity | exact IHl ]. }
    rewrite Happ. destruct (objGet (List.rev b) k); [ reflexivity | ].
    cbn [objGet]. destruct (kb =? k) eqn:E.
    + apply String.eqb_eq in E. subst. apply objGet_objSet_same.
    + apply objGet_objSet_other. apply String.eqb_neq in E. congruence.
Qed.

Lemma nodeAt_nil (parts : list string) : Laws.nodeAt [] parts = None.
Proof. now destruct parts as [| p [| q r]]. Qed.

Lemma addValidationAt_cons (current : Validation.RuleSet) (part : string)
  (p : string) (rest : list string) (newRules : Validation.Rules) :
  Validation.addValidationAt current (part :: p :: rest) newRules
  = objSet current part
      (Validation.mkRuleNode
         (Validation.rules
            (match objGet current part with
             | Some n => n
             | None => Validation.mkRuleNode None []
             end))
         (Validation.addValidationAt
            (Validation.children
               (match objGet current part with
                | Some n => n
                | None => Validation.mkRuleNode None []
                end))
            (p :: rest) newRules)).
Proof. reflexivity. Qed.

(** X9. [addValidation] and the look-up of a path: after the rules of a
    line are added at a path, the node at that path holds the old rules
    of the path with the new ones spread over them, and the nested nodes
    it had; a rule name keeps its old value unless the line binds it
    again, and then it has the value the line binds last. Paths that
    start with another name are as before. *)
Theorem addValidation_then_lookup (parts : list string)
  (newRules : Validation.Rules) :
  parts <> [] ->
  forallb Laws.nodeName parts = true ->
  forall current : Validation.RuleSet,
    Laws.nodeAt (Validation.addValidationAt current parts newRules) parts
    = Some (Validation.mkRuleNode
              (Some (objSpread (Laws.rulesAt current parts) newRules))
              (Laws.childrenAt current parts)) /\
    (forall name,
       objGet (Laws.rulesAt
                 (Validation.addValidationAt current parts newRules) parts)
              name
       = match objGet (List.rev newRules) name with
         | Some v => Some v
         | None => objGet (Laws.rulesAt current parts) name
         end) /\
    (forall other,
       hd "" other <> hd "" parts ->
       Laws.nodeAt (Validation.addValidationAt current parts newRules) other
       = Laws.nodeAt current other).
Proof.
  intros Hne _.
  assert (Hlook : forall current : Validation.RuleSet,
    Laws.nodeAt (Validation.addValidationAt current parts newRules) parts
    = Some (Validation.mkRuleNode
              (Some (objSpread (Laws.rulesAt current parts) newRules))
              (Laws.childrenAt current parts))).
  { induction parts as [| part rest IH]; [ congruence | ].
    intros current. destruct rest as [| p rest].
    - cbn [Validation.addValidationAt Laws.nodeAt].
      rewrite objGet_objSet_same.
      unfold Laws.rulesAt, Laws.childrenAt. cbn [Laws.nodeAt].
      destruct (objGet current part) as [[r c] |]; reflexivity.
    - rewrite addValidationAt_cons.
      change (Laws.nodeAt ?c (part :: p :: rest))
        with (match objGet c part with
              | Some node => Laws.nodeAt (Validation.children node) (p :: rest)
              | None => None
              end).
      rewrite objGet_objSet_same. cbn [Validation.children].
      rewrite IH by discriminate.
      unfold Laws.rulesAt, Laws.childrenAt.
      change (Laws.nodeAt current (part :: p :: rest))
        with (match objGet current part with
              | Some node => Laws.nodeAt (Validation.children node) (p :: rest)
              | None => None
              end).
      destruct (objGet current part) as [[r c] |]; [ reflexivity | ].
      cbn [Validation.children]. now rewrite nodeAt_nil. }
  intros current. split; [ apply Hlook | split ].
  - intros name. unfold Laws.rulesAt at 1. rewrite Hlook.
    cbn [Validation.rules]. apply objGet_objSpread.
  - intros other Hhd. destruct parts as [| part rest]; [ congruence | ].
    cbn [hd] in Hhd.
    assert (Hget : forall (v : Validation.RuleNode) k,
               k <> part -> objGet (objSet current part v) k
                            = objGet current k)
      by (intros v k Hk; now apply objGet_objSet_other).
    destruct other as [| o orest]; [ reflexivity | ]. cbn [hd] in Hhd.
    destruct rest as [| p rest];
      [ cbn [Validation.addValidationAt] | rewrite addValidationAt_cons ];
      destruct orest as [| o2 orest]; cbn [Laws.nodeAt];
      rewrite Hget by exact Hhd; reflexivity.
Qed.

Lemma addValidation_then_lookup_witness :
  let before : Validation.RuleSet :=
    [("age", Validation.mkRuleNode
               (Some [("min", JNum (JDec 8 0)); ("required", JBool true)])
               [])] in
  let after :=
    Validation.addValidation before "age"
      [("min", JNum (JDec 18 0)); ("max", JNum (JDec 70 0))] in
  split "age" "." <> [] /\
  forallb Laws.nodeName (split "age" ".") = true /\
  objGet (Laws.rulesAt after ["age"]) "min" = Some (JNum (JDec 18 0)) /\
  objGet (Laws.rulesAt after ["age"]) "required" = Some (JBool true).
Proof.
  intros before after.
  assert (Hne : split "age" "." <> []) by discriminate.
  split; [ exact Hne | split; [ reflexivity | ] ].
  destruct (addValidation_then_lookup (split "age" ".")
              [("min", JNum (JDec 18 0)); ("max", JNum (JDec 70 0))] Hne
              eq_refl before) as (_ & Hrules & _).
  split; [ exact (Hrules "min") | exact (Hrules "required") ].
Defined.

Lemma split_head (c : ascii) (a rest : string) :
  includes a (String c "") = false ->
  split (a ^^ String c rest) (String c "") = a :: split rest (String c "").
Proof.
  intros Ha. unfold split. rewrite split_go_at_separator.
  fold (split a (String c "")). rewrite (split_absent _ _ Ha).
  reflexivity.
Qed.

(** X10. How [getSchemaType] resolves a key. A key without a dot is
    looked up in the schema and gives the declared types in their order,
    or the empty array when the schema has no such field. A key [a.rest]
    is resolved by resolving [rest] in the [properties] of the field [a]
    when its types include [Object], else in its [items] when they
    include [ObjectArray], and gives the empty array in every other
    case. *)
Theorem getSchemaType_resolution (schema : Validation.Schema) (a : string) :
  includes a "." = false ->
  Laws.ownName a = true ->
  Validation.getSchemaType schema a
  = match objGet schema a with
    | Some node => Validation.type node
    | None => []
    end /\
  forall rest,
    Validation.getSchemaType schema (a ^^ "." ^^ rest)
    = match objGet schema a with
      | Some node =>
          match (if arrIncludes (Validation.type node) "Object"
                 then Validation.properties node else None) with
          | Some props => Validation.getSchemaType props rest
          | None =>
              match (if arrIncludes (Validation.type node) "ObjectArray"
                     then Validation.items node else None) with
              | Some its => Validation.getSchemaType its rest
              | None => []
              end
          end
      | None => []
      end.
Proof.
  intros Ha _. unfold Validation.getSchemaType. split.
  - now rewrite (split_absent _ _ Ha).
  - intros rest. change (a ^^ "." ^^ rest) with (a ^^ String "." rest).
    rewrite (split_head _ _ _ Ha).
    destruct (split rest ".") as [| p ps] eqn:E.
    + unfold split in E. now apply split_go_nonempty in E.
    + reflexivity.
Qed.

Lemma getSchemaType_resolution_witness :
  let address :=
    Validation.mkSchemaNode ["Object"]
      (Some [("city", Validation.mkSchemaNode ["String"; "Null"] None None)])
      None in
  includes "address" "." = false /\
  Laws.ownName "address" = true /\
  Validation.getSchemaType [("address", address)] "address.city"
  = ["String"; "Null"].
Proof.
  intros address. split; [ reflexivity | split; [ reflexivity | ] ].
  destruct (getSchemaType_resolution [("address", address)] "address"
              eq_refl eq_refl) as (_ & Hpath).
  exact (Hpath "city").
Defined.

(** ** More on the orchestrator *)

Section OrchestratorLaws.

Variable P : Platform.
Variable RecordT : Type.
Variable schemaCompiler :
  list string -> nat -> list string -> Exc Parser.SchemaResults.
Variable recordCompiler :
  list string -> nat -> nat -> Exc (Parser.RecordResults RecordT).

Lemma in_pushAt (st : Parser.SQON RecordT) (msg : string)
  (d : Validation.Diagnostic) :
  In d (Parser.errors (Parser.pushAt st msg)) ->
  In d (Parser.errors st) \/ Validation.message d = msg.
Proof.
  unfold Parser.pushAt, Parser.setErrors. cbn [Parser.errors].
  intros H. apply in_app_or in H. destruct H as [H | [<- | []]]; auto.
Qed.

(** X11. The order of [@records] after [@validations] is not enforced:
    the test for it can never hold, so [checkSectionOrder] never gives the
    diagnostic "'@records' must come after '@validations'.", and it lets a
    [@records] section open without any diagnostic as soon as [@schema]
    was opened and no [@records] is open, whether or not a
    [@validations] section was seen. *)
Theorem records_order_not_enforced (st : Parser.SQON RecordT) :
  (forall sec d,
     In d (Parser.errors (Parser.checkSectionOrder st sec)) ->
     Validation.message d = "'@records' must come after '@validations'." ->
     In d (Parser.errors st)) /\
  (arrIncludes (Parser.sectionOrder st) "@schema" = true ->
   arrIncludes (Parser.sectionOrder st) "@records" = false ->
   Parser.checkSectionOrder st "@records"
   = Parser.setSectionOrder st (Parser.sectionOrder st ++ ["@records"])).
Proof.
  split.
  - intros sec d Hin Hmsg. unfold Parser.checkSectionOrder in Hin.
    cbv zeta in Hin.
    destruct (arrIncludes (Parser.sectionOrder st) "@validations");
      cbn [negb andb] in Hin;
      repeat match type of Hin with
             | context [if ?c then _ else _] => destruct c
             end;
      unfold Parser.setSectionOrder in Hin; cbn [Parser.errors] in Hin;
      repeat match type of Hin with
             | In _ (Parser.errors (Parser.pushAt _ _)) =>
                 apply in_pushAt in Hin; destruct Hin as [Hin | Hin];
                 [ | rewrite Hmsg in Hin; discriminate ]
             end;
      exact Hin.
  - intros Hs Hr. unfold Parser.checkSectionOrder. cbv zeta.
    replace ("@records" =? "@schema") with false by reflexivity.
    replace ("@records" =? "@validations") with false by reflexivity.
    replace ("@records" =? "@records") with true by reflexivity.
    rewrite Hs, Hr. cbn [negb].
    now destruct (arrIncludes (Parser.sectionOrder st) "@validations").
Qed.


Lemma grows_refl l : Laws.grows l l.
Proof. apply added_refl. Qed.

Lemma grows_trans a b c : Laws.grows a b -> Laws.grows b c -> Laws.grows a c.
Proof. apply added_trans. Qed.

Lemma grows_app l more : Laws.grows l (l ++ more).
Proof.
  exists more. split; [ reflexivity | ].
  apply Forall_forall. auto.
Qed.

Lemma grows_of_added p a b : Laws.added p a b -> Laws.grows a b.
Proof. apply added_weaken. auto. Qed.

Lemma checkSectionOrder_grows (st : Parser.SQON RecordT) (sec : string) :
  Laws.grows (Parser.errors st)
    (Parser.errors (Parser.checkSectionOrder st sec)) /\
  Parser.lines (Parser.checkSectionOrder st sec) = Parser.lines st /\
  Parser.position (Parser.checkSectionOrder st sec) = Parser.position st /\
  Parser.section (Parser.checkSectionOrder st sec) = Parser.section st /\
  Parser.parsedSchema (Parser.checkSectionOrder st sec)
  = Parser.parsedSchema st.
Proof.
  unfold Parser.checkSectionOrder. cbv zeta.
  split_ifs; cbn; repeat split;
    first [ apply grows_refl | rewrite <- ?app_assoc; apply grows_app ].
Qed.

(** What a turn of the loop keeps. *)
Lemma parseSchema_turn (st st' : Parser.SQON RecordT) :
  Parser.parseSchema schemaCompiler st = Ret st' ->
  Laws.grows (Parser.errors st) (Parser.errors st') /\
  Parser.sectionOrder st' = Parser.sectionOrder st.
Proof.
  unfold Parser.parseSchema.
  destruct (schemaCompiler _ _ _) as [results |]; cbn [bind];
    [ | discriminate ].
  intros E. apply Ret_inj in E. subst st'. cbn. split; auto.
  apply grows_app.
Qed.

Lemma parseRecords_turn (st st' : Parser.SQON RecordT) :
  Parser.parseRecords recordCompiler st = Ret st' ->
  Laws.grows (Parser.errors st) (Parser.errors st') /\
  Parser.sectionOrder st' = Parser.sectionOrder st /\
  Parser.lines st' = Parser.lines st.
Proof.
  unfold Parser.parseRecords.
  destruct (recordCompiler _ _ _) as [results |]; cbn [bind];
    [ | discriminate ].
  intros E. apply Ret_inj in E. subst st'. cbn. repeat split; auto.
  apply grows_app.
Qed.

Lemma parseValidation_turn (st st' : Parser.SQON RecordT) :
  Parser.parseValidation P st = Ret st' ->
  Laws.grows (Parser.errors st) (Parser.errors st') /\
  Parser.sectionOrder st' = Parser.sectionOrder st /\
  Parser.lines st' = Parser.lines st /\
  Parser.position st <= Parser.position st' /\
  (forall j l,
     Parser.position st <= j < Parser.position st' ->
     nth_error (Parser.lines st) j = Some l -> trim l <> "@end") /\
  ((exists l, nth_error (Parser.lines st) (Parser.position st') = Some l /\
              trim l = "@end") \/
   (length (Parser.lines st) <= Parser.position st' /\
    (Parser.position st <= length (Parser.lines st) ->
     Parser.position st' = length (Parser.lines st)))).
Proof.
  unfold Parser.parseValidation.
  destruct (Validation.parseValidation _ _ _) as [results |] eqn:Hrun;
    cbn [bind]; [ | discriminate ].
  intros E. apply Ret_inj in E. subst st'.
  destruct (parseValidation_run _ _ _ _ Hrun)
    as (Hl & _ & _ & Hle & Hno & Hat).
  cbn in Hl, Hle, Hno, Hat. cbn.
  repeat split; auto. apply grows_app.
Qed.

Ltac turn_states :=
  cbn [Parser.advance Parser.setPosition Parser.setStrict Parser.pushAt
       Parser.setErrors Parser.setSectionOrder Parser.errors Parser.lines
       Parser.position Parser.sectionOrder Parser.section].

Lemma parseLine_grows (st : Parser.SQON RecordT) (line : string) :
  match Parser.parseLine P schemaCompiler recordCompiler st line with
  | Ret (Parser.Continue st') =>
      Laws.grows (Parser.errors st) (Parser.errors st')
  | Ret (Parser.Return r) => Laws.grows (Parser.errors st) (Parser.r_errors r)
  | Throw _ => True
  end.
Proof.
  pose proof (fun sec => proj1 (checkSectionOrder_grows st sec)) as Hcheck.
  unfold Parser.parseLine. cbv zeta.
  destruct (startsWith line "*STRICT=").
  { split_ifs; turn_states; auto using grows_refl, grows_app. }
  destruct (line =? "@schema").
  { destruct (Parser.isSection st Parser.Mode.schema).
    - destruct (Parser.parseSchema _ _) as [st1 |] eqn:H1; cbn [bind];
        auto.
      apply parseSchema_turn in H1. destruct H1 as [H1 _].
      cbn [Parser.advance Parser.setPosition Parser.errors Parser.r_errors]
        in *.
      exact H1.
    - destruct (Parser.noSection st).
      + destruct (Parser.parseSchema _ _) as [st1 |] eqn:H1; cbn [bind];
          auto.
        apply parseSchema_turn in H1. destruct H1 as [H1 _].
        cbn [Parser.advance Parser.setPosition Parser.errors] in *.
        exact (grows_trans _ _ _ (Hcheck _) H1).
      + cbn. apply grows_refl. }
  destruct (line =? "@validations").
  { destruct (Parser.isSection st Parser.Mode.schema).
    - destruct (Parser.parseValidation _ _) as [st1 |] eqn:H1; cbn [bind];
        auto.
      apply parseValidation_turn in H1. destruct H1 as [H1 _].
      cbn [Parser.advance Parser.setPosition Parser.errors Parser.r_errors]
        in *.
      exact H1.
    - destruct (Parser.noSection st).
      + destruct (Parser.parseValidation _ _) as [st1 |] eqn:H1; cbn [bind];
          auto.
        apply parseValidation_turn in H1. destruct H1 as [H1 _].
        cbn [Parser.advance Parser.setPosition Parser.errors] in *.
        exact (grows_trans _ _ _ (Hcheck _) H1).
      + cbn. apply grows_refl. }
  destruct (line =? "@records").
  { destruct (Parser.isSection st Parser.Mode.records).
    - destruct (Parser.parseRecords _ _) as [st1 |] eqn:H1; cbn [bind];
        auto.
      apply parseRecords_turn in H1. destruct H1 as [H1 _].
      cbn [Parser.advance Parser.setPosition Parser.errors Parser.r_errors]
        in *.
      exact H1.
    - destruct (Parser.noSection st).
      + destruct (Parser.parseRecords _ _) as [st1 |] eqn:H1; cbn [bind];
          auto.
        apply parseRecords_turn in H1. destruct H1 as [H1 _].
        cbn [Parser.advance Parser.setPosition Parser.errors] in *.
        exact (grows_trans _ _ _ (Hcheck _) H1).
      + cbn. apply grows_refl. }
  destruct (line =? "@end").
  { destruct (Parser.noSection st); [ | cbn; apply grows_refl ].
    destruct (List.rev (Parser.sectionOrder st)); [ cbn; apply grows_app | ].
    split_ifs; cbn; auto using grows_refl, grows_app. }
  split_ifs; cbn; auto using grows_refl, grows_app.
Qed.

Lemma finish_grows (st : Parser.SQON RecordT) :
  Laws.grows (Parser.errors st) (Parser.r_errors (Parser.finish st)).
Proof.
  unfold Parser.finish. cbv zeta.
  split_ifs; cbn;
    first [ apply grows_refl | rewrite <- ?app_assoc; apply grows_app ].
Qed.

(** X12. The aggregated error list only grows: whatever [parseLines]
    returns, in any mode and from any state, its errors are the errors it
    started with, unchanged and in place, followed by those the run
    added. *)
Theorem parseLines_errors_grow (fuel : nat) :
  forall (st : Parser.SQON RecordT) r,
    Parser.parseLinesFrom P schemaCompiler recordCompiler fuel st
    = Some (Ret r) ->
    Laws.grows (Parser.errors st) (Parser.r_errors r).
Proof.
  induction fuel as [| fuel IH]; intros st r; cbn [Parser.parseLinesFrom].
  - discriminate.
  - destruct (nth_error _ _) as [line |].
    + pose proof (parseLine_grows st line) as Hline.
      destruct (Parser.parseLine _ _ _ st line) as [[st1 | r1] | e].
      * intros H. eapply grows_trans; [ exact Hline | now apply IH ].
      * intros E. injection E as <-. exact Hline.
      * discriminate.
    + intros E. injection E as <-. apply finish_grows.
Qed.

End OrchestratorLaws.

Lemma parseLines_errors_grow_witness :
  let old := [Validation.mkDiagnostic None "kept"] in
  let st := Parser.mkSQON (None : option Parser.SectionName)
              (Parser.strayDocument 2) 0 [] [] ([] : list unit) old [] false
  in
  exists r,
    Parser.parseLinesFrom integerPlatform
      (@Parser.unreached (list string)) Parser.unreachedRecords 3 st
    = Some (Ret r) /\
    Laws.grows old (Parser.r_errors r).
Proof.
  intros old st.
  destruct (Parser.parseLinesFrom integerPlatform
              (@Parser.unreached (list string)) Parser.unreachedRecords 3 st)
    as [[r | e] |] eqn:H; try (vm_compute in H; discriminate).
  exists r. split; [ reflexivity | ].
  exact (parseLines_errors_grow _ _ _ _ _ _ _ H).
Defined.

Lemma records_order_not_enforced_witness :
  arrIncludes ["@schema"; "@validations"] "@schema" = true /\
  arrIncludes ["@schema"; "@validations"] "@records" = false /\
  Parser.checkSectionOrder
    (Parser.mkSQON (None : option Parser.SectionName) ["@records"] 0 [] []
       ([] : list unit) [] ["@schema"; "@validations"] false) "@records"
  = Parser.mkSQON None ["@records"] 0 [] [] [] []
      ["@schema"; "@validations"; "@records"] false.
Proof.
  split; [ reflexivity | split; [ reflexivity | ] ].
  exact (proj2 (records_order_not_enforced unit
                  (Parser.mkSQON (None : option Parser.SectionName)
                     ["@records"] 0 [] [] ([] : list unit) [] 
                     ["@schema"; "@validations"] false))
           eq_refl eq_refl).
Defined.

Section OrchestratorTermination.

Variable P : Platform.
Variable RecordT : Type.
Variable schemaCompiler :
  list string -> nat -> list string -> Exc Parser.SchemaResults.
Variable recordCompiler :
  list string -> nat -> nat -> Exc (Parser.RecordResults RecordT).

(** The two compilers taken as parameters do not go back: the schema
    compiler leaves no more lines ahead of the cursor than it found, the
    record compiler returns a position not before the one it got. *)
Hypothesis schema_advances :
  forall lines position types results,
    schemaCompiler lines position types = Ret results ->
    Laws.ahead (Parser.sr_lines results) (Parser.sr_position results)
    <= Laws.ahead lines position.
Hypothesis records_advance :
  forall lines position limit results,
    recordCompiler lines position limit = Ret results ->
    position <= Parser.rr_position results.

Lemma parseSchema_ahead (st st' : Parser.SQON RecordT) :
  Parser.parseSchema schemaCompiler st = Ret st' -> Laws.aheadOf st' <= Laws.aheadOf st.
Proof.
  unfold Parser.parseSchema.
  destruct (schemaCompiler _ _ _) as [results |] eqn:H; cbn [bind];
    [ | discriminate ].
  intros E. apply Ret_inj in E. subst st'. unfold Laws.aheadOf. cbn. eauto.
Qed.

Lemma parseRecords_ahead (st st' : Parser.SQON RecordT) :
  Parser.parseRecords recordCompiler st = Ret st' -> Laws.aheadOf st' <= Laws.aheadOf st.
Proof.
  unfold Parser.parseRecords.
  destruct (recordCompiler _ _ _) as [results |] eqn:H; cbn [bind];
    [ | discriminate ].
  intros E. apply Ret_inj in E. subst st'. unfold Laws.aheadOf. cbn.
  apply records_advance in H. unfold Laws.ahead. lia.
Qed.

Lemma parseValidation_ahead (st st' : Parser.SQON RecordT) :
  Parser.parseValidation P st = Ret st' -> Laws.aheadOf st' <= Laws.aheadOf st.
Proof.
  intros H. apply parseValidation_turn in H.
  destruct H as (_ & _ & Hl & Hle & _). unfold Laws.aheadOf.
  rewrite Hl. unfold Laws.ahead. lia.
Qed.

Lemma checkSectionOrder_ahead (st : Parser.SQON RecordT) (sec : string) :
  Laws.aheadOf (Parser.checkSectionOrder st sec) = Laws.aheadOf st.
Proof.
  unfold Laws.aheadOf.
  destruct (checkSectionOrder_grows RecordT st sec) as (_ & -> & -> & _).
  reflexivity.
Qed.

Lemma advance_ahead (st : Parser.SQON RecordT) :
  Laws.aheadOf (Parser.advance st) = Laws.aheadOf st - 1.
Proof. unfold Laws.aheadOf, Laws.ahead. cbn. lia. Qed.

Lemma parseLine_ahead (st st' : Parser.SQON RecordT) (line : string) :
  0 < Laws.aheadOf st ->
  Parser.parseLine P schemaCompiler recordCompiler st line
  = Ret (Parser.Continue st') ->
  Laws.aheadOf st' < Laws.aheadOf st.
Proof.
  intros Hpos. unfold Parser.parseLine. cbv zeta.
  assert (Hadv : forall s : Parser.SQON RecordT,
             Laws.aheadOf s = Laws.aheadOf st -> Laws.aheadOf (Parser.advance s) < Laws.aheadOf st)
    by (intros s Hs; rewrite advance_ahead; lia).
  assert (Hsec : forall (s1 : Parser.SQON RecordT) sec,
             Laws.aheadOf s1
             <= Laws.aheadOf (Parser.advance (Parser.checkSectionOrder st sec)) ->
             Laws.aheadOf (Parser.advance s1) < Laws.aheadOf st).
  { intros s1 sec H. rewrite advance_ahead, checkSectionOrder_ahead in H.
    rewrite advance_ahead. lia. }
  destruct (startsWith line "*STRICT=").
  { split_ifs; try discriminate; intros E; apply Ret_inj in E;
      injection E as <-; apply Hadv; reflexivity. }
  destruct (line =? "@schema").
  { destruct (Parser.isSection st Parser.Mode.schema).
    - destruct (Parser.parseSchema _ _); discriminate.
    - destruct (Parser.noSection st).
      + destruct (Parser.parseSchema _ _) as [s1 |] eqn:H1; cbn [bind];
          [ | discriminate ].
        intros E. apply Ret_inj in E. injection E as <-.
        apply (Hsec s1 "@schema"). exact (parseSchema_ahead _ _ H1).
      + intros E. apply Ret_inj in E. injection E as <-. now apply Hadv. }
  destruct (line =? "@validations").
  { destruct (Parser.isSection st Parser.Mode.schema).
    - destruct (Parser.parseValidation _ _); discriminate.
    - destruct (Parser.noSection st).
      + destruct (Parser.parseValidation _ _) as [s1 |] eqn:H1; cbn [bind];
          [ | discriminate ].
        intros E. apply Ret_inj in E. injection E as <-.
        apply (Hsec s1 "@validations"). exact (parseValidation_ahead _ _ H1).
      + intros E. apply Ret_inj in E. injection E as <-. now apply Hadv. }
  destruct (line =? "@records").
  { destruct (Parser.isSection st Parser.Mode.records).
    - destruct (Parser.parseRecords _ _); discriminate.
    - destruct (Parser.noSection st).
      + destruct (Parser.parseRecords _ _) as [s1 |] eqn:H1; cbn [bind];
          [ | discriminate ].
        intros E. apply Ret_inj in E. injection E as <-.
        apply (Hsec s1 "@records"). exact (parseRecords_ahead _ _ H1).
      + intros E. apply Ret_inj in E. injection E as <-. now apply Hadv. }
  destruct (line =? "@end").
  { destruct (Parser.noSection st).
    - destruct (List.rev (Parser.sectionOrder st));
        split_ifs; intros E; apply Ret_inj in E; injection E as <-;
        apply Hadv; reflexivity.
    - intros E. apply Ret_inj in E. injection E as <-. now apply Hadv. }
  split_ifs; try discriminate; intros E; apply Ret_inj in E;
    injection E as <-; apply Hadv; reflexivity.
Qed.

Lemma parseLinesFrom_enough (n : nat) :
  forall st : Parser.SQON RecordT,
    Laws.aheadOf st <= n ->
    Parser.parseLinesFrom P schemaCompiler recordCompiler (S n) st <> None.
Proof.
  induction n as [| n IH]; intros st Hn; cbn [Parser.parseLinesFrom];
    destruct (nth_error _ _) as [line |] eqn:Hline; try discriminate;
    assert (Hlt : Parser.position st < length (Parser.lines st))
      by (apply nth_error_Some; congruence);
    unfold Laws.aheadOf, Laws.ahead in Hn.
  - lia.
  - destruct (Parser.parseLine _ _ _ st line) as [[st1 | r] | e] eqn:Hturn;
      try discriminate.
    apply IH.
    apply parseLine_ahead in Hturn; unfold Laws.aheadOf, Laws.ahead in *; lia.
Qed.

Lemma parseLinesFrom_more_fuel (fuel : nat) :
  forall (st : Parser.SQON RecordT) result,
    Parser.parseLinesFrom P schemaCompiler recordCompiler fuel st
    = Some result ->
    forall extra,
      Parser.parseLinesFrom P schemaCompiler recordCompiler (fuel + extra) st
      = Some result.
Proof.
  induction fuel as [| fuel IH]; intros st result; [ discriminate | ].
  cbn [Parser.parseLinesFrom Nat.add].
  destruct (nth_error _ _) as [line |]; [ | auto ].
  destruct (Parser.parseLine _ _ _ st line) as [[st1 | r] | e]; auto.
Qed.

(** X13. [parseLines] ends: when the two compilers taken as parameters do
    not go back, every turn of the loop that goes on leaves fewer lines
    ahead of the cursor, so from any state a run of one turn more than
    the lines ahead returns or throws, and more turns give the same
    outcome. *)
Theorem parseLines_terminates (st : Parser.SQON RecordT) :
  exists outcome,
    forall extra,
      Parser.parseLinesFrom P schemaCompiler recordCompiler
        (S (Laws.aheadOf st) + extra) st = Some outcome.
Proof.
  destruct (Parser.parseLinesFrom P schemaCompiler recordCompiler
              (S (Laws.aheadOf st)) st) as [outcome |] eqn:H.
  - exists outcome. intros extra. now apply parseLinesFrom_more_fuel.
  - now apply parseLinesFrom_enough in H.
Qed.

End OrchestratorTermination.

Lemma parseLines_terminates_witness :
  (forall lines position types results,
     Laws.idleSchema lines position types = Ret results ->
     Laws.ahead (Parser.sr_lines results) (Parser.sr_position results)
     <= Laws.ahead lines position) /\
  (forall lines position limit results,
     Laws.idleRecords lines position limit = Ret results ->
     position <= Parser.rr_position results) /\
  exists outcome,
    forall extra,
      Parser.parseLinesFrom integerPlatform Laws.idleSchema Laws.idleRecords
        (S (length Laws.threeSections) + extra)
        (Parser.new unit None Laws.threeSections)
      = Some outcome.
Proof.
  assert (Hs : forall lines position types results,
     Laws.idleSchema lines position types = Ret results ->
     Laws.ahead (Parser.sr_lines results) (Parser.sr_position results)
     <= Laws.ahead lines position).
  { intros lines position types results E. apply Ret_inj in E. subst results.
    cbn [Parser.sr_lines Parser.sr_position]. lia. }
  assert (Hr : forall lines position limit results,
     Laws.idleRecords lines position limit = Ret results ->
     position <= Parser.rr_position results).
  { intros lines position limit results E. apply Ret_inj in E. subst results.
    cbn [Parser.rr_position]. lia. }
  split; [ exact Hs | split; [ exact Hr | ] ].
  exact (parseLines_terminates integerPlatform unit _ _ Hs Hr
           (Parser.new unit None Laws.threeSections)).
Defined.

Section OrchestratorSections.

Variable P : Platform.
Variable RecordT : Type.
Variable schemaCompiler :
  list string -> nat -> list string -> Exc Parser.SchemaResults.
Variable recordCompiler :
  list string -> nat -> nat -> Exc (Parser.RecordResults RecordT).

(** X14. In full-document mode the turn for [@validations] takes the whole
    section, its end marker included: when it goes on, [@validations] has
    been put on [sectionOrder], the lines are the same, and the cursor is
    just past the first [@end] after the marker, or past the last line
    when the section has no [@end]. The branch of the loop for [@end]
    never sees the marker that closes the section, so it is not that
    marker that takes the section off [sectionOrder]. *)
Theorem validations_turn_takes_its_end (st st' : Parser.SQON RecordT) :
  Parser.noSection st = true ->
  Parser.parseLine P schemaCompiler recordCompiler st "@validations"
  = Ret (Parser.Continue st') ->
  Parser.sectionOrder st' = Parser.sectionOrder st ++ ["@validations"] /\
  Parser.lines st' = Parser.lines st /\
  Parser.position st + 2 <= Parser.position st' /\
  (forall j l,
     Parser.position st + 1 <= j < Parser.position st' - 1 ->
     nth_error (Parser.lines st) j = Some l -> trim l <> "@end") /\
  ((exists l, nth_error (Parser.lines st) (Parser.position st' - 1) = Some l
              /\ trim l = "@end") \/
   length (Parser.lines st) < Parser.position st').
Proof.
  intros Hfull. unfold Parser.parseLine. cbv zeta.
  replace (startsWith "@validations" "*STRICT=") with false by reflexivity.
  replace ("@validations" =? "@schema") with false by reflexivity.
  replace ("@validations" =? "@validations") with true by reflexivity.
  replace (Parser.isSection st Parser.Mode.schema) with false
    by (unfold Parser.isSection, Parser.noSection in *;
        now destruct (Parser.section st)).
  rewrite Hfull.
  destruct (Parser.parseValidation _ _) as [s1 |] eqn:Hrun; cbn [bind];
    [ | discriminate ].
  intros E. apply Ret_inj in E. injection E as <-.
  apply parseValidation_turn in Hrun.
  destruct Hrun as (_ & Horder & Hl & Hle & Hno & Hat).
  assert (Hchk : Parser.sectionOrder
                   (Parser.checkSectionOrder st "@validations")
                 = Parser.sectionOrder st ++ ["@validations"]).
  { unfold Parser.checkSectionOrder. cbv zeta.
    replace ("@validations" =? "@schema") with false by reflexivity.
    replace ("@validations" =? "@validations") with true by reflexivity.
    split_ifs; reflexivity. }
  destruct (checkSectionOrder_grows RecordT st "@validations")
    as (_ & Hcl & Hcp & _).
  cbn [Parser.advance Parser.setPosition Parser.sectionOrder Parser.lines
       Parser.position] in *.
  rewrite Hcl, Hcp in *.
  replace (Parser.position s1 + 1 - 1) with (Parser.position s1) by lia.
  split; [ congruence | split; [ congruence | split; [ lia | split ] ] ].
  - intros j l Hj. apply Hno. lia.
  - destruct Hat as [Hend | [Hpast _]]; [ now left | right; lia ].
Qed.

(** X15. The directive [*STRICT=value], with [value] trimmed and put in
    upper case: [TRUE] in a single-section mode throws "Strict-Mode is
    enabled, please turn it off."; in full-document mode [TRUE] and
    [FALSE] set the flag and add no diagnostic; every other value leaves
    the flag and adds one diagnostic. In each case that goes on, only the
    cursor, the flag and the errors change. *)
Theorem strict_directive (st : Parser.SQON RecordT) (value : string) :
  includes value "=" = false ->
  let line := "*STRICT=" ^^ value in
  let upper := Parser.toUpperCase (trim value) in
  (upper = "TRUE" -> Parser.noSection st = false ->
   Parser.parseLine P schemaCompiler recordCompiler st line
   = Throw (Error "Strict-Mode is enabled, please turn it off.")) /\
  (upper = "TRUE" -> Parser.noSection st = true ->
   Parser.parseLine P schemaCompiler recordCompiler st line
   = Ret (Parser.Continue (Parser.advance (Parser.setStrict st true)))) /\
  (upper = "FALSE" ->
   Parser.parseLine P schemaCompiler recordCompiler st line
   = Ret (Parser.Continue (Parser.advance (Parser.setStrict st false)))) /\
  (upper <> "TRUE" -> upper <> "FALSE" ->
   Parser.parseLine P schemaCompiler recordCompiler st line
   = Ret (Parser.Continue (Parser.advance (Parser.pushAt st
            ("Invalid *STRICT value: " ^^ upper ^^
             ". Expected TRUE or FALSE."))))).
Proof.
  intros Hvalue line upper.
  assert (Hsplit : nth_error (split line "=") 1 = Some value).
  { subst line. change ("*STRICT=" ^^ value) with ("*STRICT" ^^ String "=" value).
    rewrite (split_head "=" "*STRICT" value eq_refl).
    now rewrite (split_absent _ _ Hvalue). }
  assert (Hstart : startsWith line "*STRICT=" = true).
  { subst line. unfold startsWith. cbn [String.append].
    rewrite !prefix_same_head. apply prefix_empty. }
  unfold Parser.parseLine. cbv zeta. rewrite Hstart, Hsplit. fold upper.
  repeat split.
  - intros -> ->. reflexivity.
  - intros -> ->. reflexivity.
  - intros ->. reflexivity.
  - intros Ht Hf. apply String.eqb_neq in Ht. apply String.eqb_neq in Hf.
    now rewrite Ht, Hf.
Qed.

End OrchestratorSections.

Lemma validations_turn_takes_its_end_witness :
  let st := Parser.new unit None Laws.twoLineSection in
  Parser.noSection st = true /\
  exists st',
    Parser.parseLine integerPlatform (@Parser.unreached (list string))
      Parser.unreachedRecords st "@validations"
    = Ret (Parser.Continue st') /\
    Parser.sectionOrder st' = ["@validations"] /\
    Parser.position st + 2 <= Parser.position st'.
Proof.
  intros st. split; [ reflexivity | ].
  destruct (Parser.parseLine integerPlatform (@Parser.unreached (list string))
              Parser.unreachedRecords st "@validations")
    as [[st' | r] | e] eqn:H; try (vm_compute in H; discriminate).
  exists st'. split; [ reflexivity | ].
  destruct (validations_turn_takes_its_end _ _ _ _ st st' eq_refl H)
    as (Horder & _ & Hpos & _).
  split; [ exact Horder | exact Hpos ].
Defined.

Lemma strict_directive_witness :
  includes " true " "=" = false /\
  Parser.toUpperCase (trim " true ") = "TRUE" /\
  Parser.parseLine integerPlatform (@Parser.unreached (list string))
    Parser.unreachedRecords
    (Parser.new unit (Some Parser.Mode.records) ["*STRICT= true "])
    "*STRICT= true "
  = Throw (Error "Strict-Mode is enabled, please turn it off.").
Proof.
  split; [ reflexivity | split; [ reflexivity | ] ].
  destruct (strict_directive integerPlatform unit
              (@Parser.unreached (list string)) Parser.unreachedRecords
              (Parser.new unit (Some Parser.Mode.records) ["*STRICT= true "])
              " true " eq_refl) as (Hthrow & _).
  exact (Hthrow eq_refl eq_refl).
Defined.

(** ** More on the runtime validator *)

Section ValidatorLaws.

Variable P : Platform.

Lemma not_in_cons (x a : string) (l : list string) :
  ~ In x (a :: l) -> (x =? a) = false /\ ~ In x l.
Proof.
  intros H. split.
  - apply String.eqb_neq. intros ->. apply H. now left.
  - intros Hin. apply H. now right.
Qed.

(** X16. A rule name without a case in the [switch] of [validateFields]
    gives the diagnostic "Unknown validation rule: <rule>" and nothing
    else, whatever the value and the rule value: so do also the names the
    rule table lists without a case, [custom], [default], [isEqualTo],
    [isInteger], [isFloat], [isAlphanumeric], [isIP], [matchesField],
    [trim], [lowercase] and [uppercase]. *)
Theorem unhandled_rule_is_unknown (field rule : string)
  (ruleValue value : JsValue) (errs : list Validator.FieldError) :
  ~ In rule Laws.handledRules ->
  Validator.evalRule P field rule ruleValue value errs
  = Ret (errs ++ [Validator.mkFieldError field
                    ("Unknown validation rule: " ^^ rule)]).
Proof.
  intros H. unfold Laws.handledRules in H.
  repeat match type of H with
         | ~ In _ (_ :: _) =>
             let E := fresh "E" in
             apply not_in_cons in H; destruct H as [E H]
         end.
  unfold Validator.evalRule. cbv zeta.
  destruct (negb (Validator.inKeywords rule)); [ reflexivity | ].
  repeat match goal with
         | E : (rule =? _) = false |- _ => rewrite E; clear E
         end.
  reflexivity.
Qed.


(** X17. A rule for one kind of value passes in silence on a value of
    another kind: the text rules on what is not a string, [min] and [max]
    on what is not a number, an array or a byte array, [isUnique] on what
    is not an array, [hasProperties] on what is not an object, [minDate]
    and [maxDate] on what is not a Date. *)
Theorem rules_pass_on_other_kinds (field : string) (ruleValue value : JsValue)
  (errs : list Validator.FieldError) :
  (Validator.isString value = false ->
   forall rule,
     In rule ["pattern"; "isEmail"; "isURL"; "isAlpha"; "isNumeric"] ->
     Validator.evalRule P field rule ruleValue value errs = Ret errs) /\
  (Validator.isNumber value = false -> isArray value = false ->
   Validator.isUint8Array value = false ->
   forall rule,
     In rule ["min"; "max"] ->
     Validator.evalRule P field rule ruleValue value errs = Ret errs) /\
  (isArray value = false ->
   Validator.evalRule P field "isUnique" ruleValue value errs = Ret errs) /\
  (Validator.isObjectLike value = false ->
   Validator.evalRule P field "hasProperties" ruleValue value errs
   = Ret errs) /\
  (Validator.isDate value = false ->
   forall rule,
     In rule ["minDate"; "maxDate"] ->
     Validator.evalRule P field rule ruleValue value errs = Ret errs).
Proof.
  repeat split.
  - intros Hv rule Hin. cbn [In] in Hin.
    repeat destruct Hin as [<- | Hin]; try contradiction;
      destruct value; try discriminate; reflexivity.
  - intros Hn Ha Hu rule Hin. cbn [In] in Hin.
    repeat destruct Hin as [<- | Hin]; try contradiction;
      destruct value; try discriminate; reflexivity.
  - intros Ha. destruct value; try discriminate; reflexivity.
  - intros Ho. destruct value; try discriminate; reflexivity.
  - intros Hd rule Hin. cbn [In] in Hin.
    repeat destruct Hin as [<- | Hin]; try contradiction;
      destruct value; try discriminate; reflexivity.
Qed.


(** X18. The result of [validate]: [valid] is true exactly when the
    result carries no [errors]; a result that carries [errors] carries at
    least one and says [valid: false]. *)
Theorem validate_result_shape (schema : option (Obj Validator.SchemaDefinition))
  (validateData : option (Obj Validator.ValidationInput)) (data : JsValue)
  (r : Validator.ValidationResult) :
  Validator.validate P schema validateData data = Ret r ->
  (Validator.valid r = true <-> Validator.errors r = None) /\
  (forall es, Validator.errors r = Some es ->
              es <> [] /\ Validator.valid r = false).
Proof.
  assert (Hshape : forall errs r0,
    (if negb (Validator.isValid errs)
     then Ret (Validator.mkValidationResult false (Some errs))
     else Ret (Validator.mkValidationResult (Validator.isValid errs) None))
    = Ret r0 ->
    (Validator.valid r0 = true <-> Validator.errors r0 = None) /\
    (forall es, Validator.errors r0 = Some es ->
                es <> [] /\ Validator.valid r0 = false)).
  { intros errs r0. destruct (Validator.isValid errs) eqn:Hv; cbn [negb];
      intros E; apply Ret_inj in E; subst r0; cbn.
    - split; [ tauto | discriminate ].
    - split; [ split; discriminate | ].
      intros es E. injection E as <-. split; [ | reflexivity ].
      intros ->. discriminate. }
  assert (Hrules : forall errs r0,
    Validator.isValid errs = true ->
    match validateData with
    | Some vd =>
        errs <- Validator.validateFields P vd data errs ;;
        if negb (Validator.isValid errs)
        then Ret (Validator.mkValidationResult false (Some errs))
        else Ret (Validator.mkValidationResult (Validator.isValid errs) None)
    | None => Ret (Validator.mkValidationResult (Validator.isValid errs) None)
    end = Ret r0 ->
    (Validator.valid r0 = true <-> Validator.errors r0 = None) /\
    (forall es, Validator.errors r0 = Some es ->
                es <> [] /\ Validator.valid r0 = false)).
  { intros errs r0 Hv. destruct validateData as [vd |].
    - destruct (Validator.validateFields P vd data errs) as [errs' |];
        cbn [bind]; [ apply Hshape | discriminate ].
    - rewrite Hv. intros E. apply Ret_inj in E. subst r0. cbn.
      split; [ tauto | discriminate ]. }
  unfold Validator.validate. cbv zeta. destruct schema as [s |].
  - destruct (Validator.validateSchema s data []) as [errs |]; cbn [bind];
      [ | discriminate ].
    destruct (Validator.isValid errs) eqn:Hv; cbn [negb].
    + intros E. apply (Hrules errs r Hv). rewrite Hv. exact E.
    + intros E. apply (Hshape errs). now rewrite Hv.
  - apply (Hrules [] r eq_refl).
Qed.

End ValidatorLaws.

Lemma unhandled_rule_is_unknown_witness :
  ~ In "trim" Laws.handledRules /\
  Validator.inKeywords "trim" = true /\
  Validator.evalRule integerPlatform "name" "trim" (JBool true)
    (JStr " x ") []
  = Ret [Validator.mkFieldError "name" "Unknown validation rule: trim"].
Proof.
  assert (H : ~ In "trim" Laws.handledRules)
    by (cbn; intros Hin; repeat destruct Hin as [Hin | Hin];
        try discriminate; exact Hin).
  split; [ exact H | split; [ reflexivity | ] ].
  exact (unhandled_rule_is_unknown integerPlatform "name" "trim" (JBool true)
           (JStr " x ") [] H).
Defined.

Lemma rules_pass_on_other_kinds_witness :
  Validator.isString (JNum (JDec 42 0)) = false /\
  Validator.evalRule integerPlatform "mail" "isEmail" (JBool true)
    (JNum (JDec 42 0)) [] = Ret [].
Proof.
  split; [ reflexivity | ].
  destruct (rules_pass_on_other_kinds integerPlatform "mail" (JBool true)
              (JNum (JDec 42 0)) []) as (Htext & _).
  apply (Htext eq_refl). cbn. auto.
Defined.

Lemma validate_result_shape_witness :
  let data := JObj [("age", JNum (JDec 5 0))] in
  let tree := [("age", Validator.mkValidationInput
                         (Some [("min", JNum (JDec 8 0))]) [])] in
  exists r,
    Validator.validate integerPlatform None (Some tree) data = Ret r /\
    Validator.valid r = false /\
    Validator.errors r
    = Some [Validator.mkFieldError "age" "age should be at least 8"].
Proof.
  intros data tree.
  destruct (Validator.validate integerPlatform None (Some tree) data)
    as [r | e] eqn:H; [ | vm_compute in H; discriminate ].
  exists r. split; [ reflexivity | ].
  destruct (validate_result_shape _ _ _ _ _ H) as (_ & Hsome).
  assert (E : Validator.errors r
              = Some [Validator.mkFieldError "age" "age should be at least 8"])
    by (vm_compute in H; injection H as <-; reflexivity).
  split; [ exact (proj2 (Hsome _ E)) | exact E ].
Defined.

(** ** More on the schema pass *)

Lemma validateType_step (u : string) (rest : list string) (value : JsValue) :
  ~ In u Laws.arrayTypes ->
  Validator.validateType [u] value = false ->
  Validator.validateType (u :: rest) value
  = Validator.validateType rest value.
Proof.
  intros Hu. unfold Laws.arrayTypes in Hu.
  apply not_in_cons in Hu. destruct Hu as [E1 Hu].
  apply not_in_cons in Hu. destruct Hu as [E2 Hu].
  apply not_in_cons in Hu. destruct Hu as [E3 _].
  cbn [Validator.validateType]. rewrite E1, E2, E3. cbn [orb].
  repeat match goal with
         | |- context [if ?c then _ else _] =>
             destruct c; [ discriminate | ]
         end.
  reflexivity.
Qed.

(** X19. [validateType] answers at the first of [Array], [Any[]] and [[]]
    it meets: once the types before it have not accepted the value, the
    answer is whether the value is an array, and the types listed after
    it, [Any] included, are never looked at. *)
Theorem validateType_stops_at_array (before after : list string) (t : string)
  (value : JsValue) :
  In t Laws.arrayTypes ->
  (forall u, In u before ->
             ~ In u Laws.arrayTypes /\
             Validator.validateType [u] value = false) ->
  Validator.validateType (before ++ t :: after) value = isArray value.
Proof.
  intros Ht. induction before as [| u before IH]; intros Hbefore.
  - cbn [app]. unfold Laws.arrayTypes in Ht. cbn [In] in Ht.
    destruct Ht as [<- | [<- | [<- | []]]]; reflexivity.
  - cbn [app]. destruct (Hbefore u (or_introl eq_refl)) as [Hu Hv].
    rewrite (validateType_step _ _ _ Hu Hv). apply IH.
    intros u' Hin. apply Hbefore. now right.
Qed.

Lemma validateType_stops_at_array_witness :
  In "Array" Laws.arrayTypes /\
  Validator.validateType (["Number"] ++ "Array" :: ["String"; "Any"])
    (JStr "text") = false.
Proof.
  split; [ cbn; auto | ].
  apply (validateType_stops_at_array ["Number"] ["String"; "Any"] "Array"
           (JStr "text")).
  - cbn. auto.
  - intros u [<- | []]. split; [ | reflexivity ].
    cbn. intros H. repeat destruct H as [H | H]; try discriminate; exact H.
Defined.

Lemma validateType_undefined (types : list string) :
  Validator.validateType types JUndefined = true ->
  In "Any" types \/ In "undefined" types.
Proof.
  induction types as [| t types IH]; cbn [Validator.validateType].
  - discriminate.
  - destruct (t =? "Any") eqn:EA.
    { apply String.eqb_eq in EA. subst. intros _. left. now left. }
    destruct (t =? "undefined") eqn:EU.
    { apply String.eqb_eq in EU. subst. intros _. right. now left. }
    cbn [Validator.isString Validator.isNumber Validator.isBoolean
         Validator.isNull Validator.isUndefined Validator.isDate
         Validator.isBuffer Validator.isUint8Array isArray
         Validator.isObjectLike typeof andb negb].
    rewrite ?andb_false_r. cbn [andb].
    try replace (("undefined" =? "object") && true) with false by reflexivity.
    rewrite ?andb_false_r. cbn [andb].
    destruct ((t =? "Array") || (t =? "Any[]") || (t =? "[]"));
      cbv beta iota; [ discriminate | ].
    intros H. destruct (IH H); [ left | right ]; now right.
Qed.

(** X20. A field that the data object does not have fails the schema
    pass with "Field <key> does not match schema type: ...", unless the
    declared types include [Any] or [undefined]; the properties and the
    items of the field are then not looked at. *)
Theorem missing_field_fails_schema (key : string) (types : list string)
  (properties : option (list (string * Validator.SchemaDefinition)))
  (items : option Validator.SchemaDefinition)
  (data : Obj JsValue) (errs : list Validator.FieldError) :
  objGet data key = None ->
  Laws.ownName key = true ->
  ~ In "Any" types -> ~ In "undefined" types ->
  Validator.validateSchemaEntry key
    (Validator.mkSchemaDefinition types properties items) (JObj data) errs
  = Ret (errs ++ [Validator.mkFieldError key
                    ("Field " ^^ key ^^ " does not match schema type: "
                     ^^ join types ", ")]).
Proof.
  intros Hget _ HA HU. cbn [Validator.validateSchemaEntry getProp bind].
  rewrite Hget.
  destruct (Validator.validateType types JUndefined) eqn:Hv.
  - apply validateType_undefined in Hv. tauto.
  - reflexivity.
Qed.

Lemma missing_field_fails_schema_witness :
  objGet [("name", JStr "Al")] "age" = None /\
  Laws.ownName "age" = true /\
  Validator.validateSchema
    [("age", Validator.mkSchemaDefinition ["Number"; "Null"] None None)]
    (JObj [("name", JStr "Al")]) []
  = Ret [Validator.mkFieldError "age"
           "Field age does not match schema type: Number, Null"].
Proof.
  split; [ reflexivity | split; [ reflexivity | ] ].
  unfold Validator.validateSchema. cbn [foldExc fst snd].
  rewrite (missing_field_fails_schema "age" ["Number"; "Null"] None None
             [("name", JStr "Al")] [] eq_refl eq_refl).
  - reflexivity.
  - cbn. intros H. repeat destruct H as [H | H]; try discriminate; exact H.
  - cbn. intros H. repeat destruct H as [H | H]; try discriminate; exact H.
Defined.

(** X21. A field declared with [Object] and with properties, whose types
    also accept null or undefined: on a value that is null or undefined
    the type test passes, the pass then reads the first property of that
    value, and [validateSchema] throws a TypeError instead of
    returning. *)
Theorem nothing_as_object_throws (key propKey : string) (types : list string)
  (propSchema : Validator.SchemaDefinition)
  (others : list (string * Validator.SchemaDefinition))
  (items : option Validator.SchemaDefinition)
  (data : JsValue) (value : JsValue) (errs : list Validator.FieldError) :
  value = JNull \/ value = JUndefined ->
  getProp data key = Ret value ->
  Laws.ownName key = true ->
  arrIncludes types "Object" = true ->
  Validator.validateType types value = true ->
  Validator.validateSchemaEntry key
    (Validator.mkSchemaDefinition types
       (Some ((propKey, propSchema) :: others)) items) data errs
  = Throw TypeError /\
  forall before after,
    exists e,
      Validator.validateSchema
        (before ++
         (key, Validator.mkSchemaDefinition types
                 (Some ((propKey, propSchema) :: others)) items) :: after)
        data errs = Throw e.
Proof.
  intros Hvalue Hget _ Hobj Htype.
  assert (Hentry : forall errs0,
    Validator.validateSchemaEntry key
      (Validator.mkSchemaDefinition types
         (Some ((propKey, propSchema) :: others)) items) data errs0
    = Throw TypeError).
  { intros errs0. cbn [Validator.validateSchemaEntry].
    rewrite Hget. cbn [bind]. rewrite Htype, Hobj. cbn [negb].
    destruct propSchema as [pty pprops pits].
    cbn [Validator.validateSchemaEntry].
    destruct Hvalue as [-> | ->]; reflexivity. }
  split; [ apply Hentry | ].
  intros before after. unfold Validator.validateSchema.
  apply foldExc_throws. intros s. exists TypeError. apply Hentry.
Qed.

Lemma nothing_as_object_throws_witness :
  let schema :=
    [("owner", Validator.mkSchemaDefinition ["Object"; "Null"]
                 (Some [("name",
                         Validator.mkSchemaDefinition ["String"] None None)])
                 None)] in
  getProp (JObj [("owner", JNull)]) "owner" = Ret JNull /\
  Laws.ownName "owner" = true /\
  Validator.validateType ["Object"; "Null"] JNull = true /\
  exists e, Validator.validateSchema schema (JObj [("owner", JNull)]) []
            = Throw e.
Proof.
  intros schema.
  split; [ reflexivity | split; [ reflexivity | split; [ reflexivity | ] ] ].
  destruct (nothing_as_object_throws "owner" "name" ["Object"; "Null"]
              (Validator.mkSchemaDefinition ["String"] None None) [] None
              (JObj [("owner", JNull)]) JNull []
              (or_introl eq_refl) eq_refl eq_refl eq_refl eq_refl)
    as (_ & Hall).
  exact (Hall [] []).
Defined.

(** ** Renumbering the records: [redoc] *)

Lemma str_app (a b : list ascii) : str (a ++ b) = str a ^^ str b.
Proof.
  unfold str. induction a as [| c a IH]; cbn; [ reflexivity | now rewrite IH ].
Qed.

Lemma append_empty (s : string) : s ^^ "" = s.
Proof. induction s as [| c s IH]; cbn; [ reflexivity | now rewrite IH ]. Qed.

Lemma append_assoc (a b c : string) : (a ^^ b) ^^ c = a ^^ b ^^ c.
Proof. induction a as [| x a IH]; cbn; [ reflexivity | now rewrite IH ]. Qed.

Lemma join_cons (x y : string) (l : list string) (sep : string) :
  join (x :: y :: l) sep = x ^^ sep ^^ join (y :: l) sep.
Proof. reflexivity. Qed.

Lemma prefix_lineFeed (a : ascii) (s : string) :
  String.prefix Redoc.lineFeed (String a s)
  = if ascii_dec (ascii_of_nat 10) a then true else false.
Proof.
  unfold Redoc.lineFeed. cbn [String.prefix].
  destruct (ascii_dec (ascii_of_nat 10) a); [ apply prefix_empty | reflexivity ].
Qed.

Lemma split_go_join (s : string) :
  forall cur,
    join (split_go Redoc.lineFeed s cur 0) Redoc.lineFeed
    = str (List.rev cur) ^^ s.
Proof.
  induction s as [| a s IH]; intros cur.
  - cbn [split_go join String.concat]. now rewrite append_empty.
  - cbn [split_go]. rewrite prefix_lineFeed.
    destruct (ascii_dec (ascii_of_nat 10) a) as [<- | Hne].
    + cbn [Redoc.lineFeed String.length Nat.sub].
      specialize (IH []).
      destruct (split_go Redoc.lineFeed s [] 0) as [| y l] eqn:E.
      * now apply split_go_nonempty in E.
      * rewrite join_cons, IH. reflexivity.
    + rewrite IH. cbn [List.rev]. rewrite str_app, append_assoc. reflexivity.
Qed.

(** Joining the lines of a text gives the text back. *)
Lemma join_split (s : string) :
  join (split s Redoc.lineFeed) Redoc.lineFeed = s.
Proof. unfold split. now rewrite split_go_join. Qed.

Lemma split_go_oneLine (s : string) :
  forall cur,
    ~ In (ascii_of_nat 10) cur ->
    Forall Redoc.oneLine (split_go Redoc.lineFeed s cur 0).
Proof.
  induction s as [| a s IH]; intros cur Hcur.
  - cbn [split_go]. constructor; [ | constructor ].
    unfold Redoc.oneLine. rewrite chars_str. now rewrite <- in_rev.
  - cbn [split_go]. rewrite prefix_lineFeed.
    destruct (ascii_dec (ascii_of_nat 10) a) as [<- | Hne].
    + cbn [Redoc.lineFeed String.length Nat.sub]. constructor.
      * unfold Redoc.oneLine. rewrite chars_str. now rewrite <- in_rev.
      * apply IH. intros [].
    + apply IH. intros [H | H]; [ now apply Hne | now apply Hcur ].
Qed.

Lemma split_oneLine (s : string) :
  Forall Redoc.oneLine (split s Redoc.lineFeed).
Proof. apply split_go_oneLine. intros []. Qed.

Lemma split_go_through (x rest : string) :
  forall cur,
    Redoc.oneLine x ->
    split_go Redoc.lineFeed (x ^^ rest) cur 0
    = split_go Redoc.lineFeed rest (List.rev (chars x) ++ cur) 0.
Proof.
  induction x as [| a x IH]; intros cur Hx.
  - reflexivity.
  - cbn [String.append split_go]. rewrite prefix_lineFeed.
    destruct (ascii_dec (ascii_of_nat 10) a) as [<- | Hne].
    + exfalso. apply Hx. now left.
    + rewrite IH.
      * cbn [chars list_ascii_of_string List.rev]. now rewrite <- app_assoc.
      * intros H. apply Hx. now right.
Qed.

Lemma split_go_lineFeed (rest : string) (cur : list ascii) :
  split_go Redoc.lineFeed (Redoc.lineFeed ^^ rest) cur 0
  = str (List.rev cur) :: split_go Redoc.lineFeed rest [] 0.
Proof.
  change (Redoc.lineFeed ^^ rest) with (String (ascii_of_nat 10) rest).
  cbn [split_go]. rewrite prefix_lineFeed.
  destruct (ascii_dec (ascii_of_nat 10) (ascii_of_nat 10)) as [_ | Hne];
    [ reflexivity | now elim Hne ].
Qed.

Lemma split_go_of_join (ls : list string) :
  forall x cur,
    Forall Redoc.oneLine (x :: ls) ->
    split_go Redoc.lineFeed (join (x :: ls) Redoc.lineFeed) cur 0
    = (str (List.rev cur) ^^ x) :: ls.
Proof.
  induction ls as [| y ls IH]; intros x cur Hall;
    inversion Hall as [| ? ? Hx Hls]; subst.
  - cbn [join String.concat].
    rewrite <- (append_empty x) at 1. rewrite split_go_through by exact Hx.
    cbn [split_go]. rewrite rev_app_distr, rev_involutive, str_app, str_chars.
    reflexivity.
  - rewrite join_cons. rewrite split_go_through by exact Hx.
    rewrite split_go_lineFeed, (IH y [] Hls).
    rewrite rev_app_distr, rev_involutive, str_app, str_chars.
    reflexivity.
Qed.

(** Splitting the join of texts without a line feed gives them back. *)
Lemma split_join (ls : list string) :
  ls <> [] -> Forall Redoc.oneLine ls ->
  split (join ls Redoc.lineFeed) Redoc.lineFeed = ls.
Proof.
  intros Hne Hall. destruct ls as [| x ls]; [ now elim Hne | ].
  unfold split. now rewrite (split_go_of_join ls x [] Hall).
Qed.

Lemma dropWhile_snoc (p : ascii -> bool) (x : list ascii) (c : ascii) :
  p c = false -> dropWhile p (x ++ [c]) = dropWhile p x ++ [c].
Proof.
  intros H. induction x as [| a x IH]; cbn [app dropWhile].
  - now rewrite H.
  - destruct (p a); [ exact IH | reflexivity ].
Qed.

Lemma takeWhile_dropWhile (p : ascii -> bool) (l : list ascii) :
  takeWhile p (dropWhile p l) = [].
Proof.
  induction l as [| a l IH]; cbn [dropWhile]; [ reflexivity | ].
  destruct (p a) eqn:E; [ exact IH | ]. cbn [takeWhile]. now rewrite E.
Qed.

Lemma dropWhile_none (p : ascii -> bool) (l : list ascii) :
  takeWhile p l = [] -> dropWhile p l = l.
Proof.
  destruct l as [| a l]; cbn [takeWhile dropWhile]; [ reflexivity | ].
  now destruct (p a).
Qed.

Lemma in_dropWhile (p : ascii -> bool) (l : list ascii) (c : ascii) :
  In c (dropWhile p l) -> In c l.
Proof.
  induction l as [| a l IH]; cbn [dropWhile]; [ tauto | ].
  destruct (p a); [ intros H; right; now apply IH | tauto ].
Qed.

Lemma takeWhile_app_all (p : ascii -> bool) (a b : list ascii) :
  forallb p a = true -> takeWhile p (a ++ b) = a ++ takeWhile p b.
Proof.
  induction a as [| c a IH]; cbn [forallb app takeWhile]; [ reflexivity | ].
  intros H. apply andb_true_iff in H. destruct H as [Hc Ha].
  now rewrite Hc, IH.
Qed.

Lemma dropWhile_app_all (p : ascii -> bool) (a b : list ascii) :
  forallb p a = true -> dropWhile p (a ++ b) = dropWhile p b.
Proof.
  induction a as [| c a IH]; cbn [forallb app dropWhile]; [ reflexivity | ].
  intros H. apply andb_true_iff in H. destruct H as [Hc Ha].
  now rewrite Hc, IH.
Qed.

Lemma natToString_digits (n : nat) :
  forallb isDigit (chars (natToString n)) = true.
Proof.
  unfold natToString. generalize (Nat.to_uint n). intros d.
  induction d; cbn [DecimalString.NilEmpty.string_of_uint chars
    list_ascii_of_string forallb]; [ reflexivity | .. ];
    unfold chars in IHd; rewrite IHd; reflexivity.
Qed.

(** The trimmed text of a line that begins with [#] begins with [#]. *)
Lemma trim_hash (s : string) : exists t, trim (String "#" s) = String "#" t.
Proof.
  unfold trim, trimStart, trimEnd.
  cbn [chars list_ascii_of_string dropWhile].
  change (isSpace "#") with false. cbv iota.
  cbn [List.rev]. rewrite dropWhile_snoc by reflexivity.
  rewrite rev_app_distr. cbn [List.rev app].
  eexists. reflexivity.
Qed.

(** What [replace] returns: the line, or [#], the new number and what
    followed the digits. *)
Lemma renumber_cases (line : string) (n : nat) :
  Redoc.renumber line n = line \/
  exists rest,
    Redoc.renumber line n = String "#" (natToString n ^^ str rest)
    /\ takeWhile isDigit rest = []
    /\ forall c, In c rest -> In c (chars line).
Proof.
  unfold Redoc.renumber.
  destruct (chars line) as [| c rest0] eqn:E; [ now left | ].
  destruct (Ascii.eqb c "#") eqn:Ec; [ | now left ].
  destruct (takeWhile isDigit rest0) as [| d ds]; [ now left | ].
  right. exists (dropWhile isDigit rest0). split; [ reflexivity | ]. split.
  - apply takeWhile_dropWhile.
  - intros x Hx. right. now apply in_dropWhile in Hx.
Qed.

Lemma renumber_again (rest : list ascii) (n : nat) :
  takeWhile isDigit rest = [] ->
  Redoc.renumber (String "#" (natToString n ^^ str rest)) n
  = String "#" (natToString n ^^ str rest).
Proof.
  intros Hrest. unfold Redoc.renumber.
  change (chars (String "#" (natToString n ^^ str rest)))
    with ("#"%char :: chars (natToString n ^^ str rest)).
  change (Ascii.eqb "#" "#") with true. cbv iota.
  rewrite chars_append, chars_str.
  rewrite (takeWhile_app_all _ _ _ (natToString_digits n)), Hrest.
  rewrite (dropWhile_app_all _ _ _ (natToString_digits n)).
  rewrite (dropWhile_none _ _ Hrest).
  destruct (chars (natToString n) ++ []); reflexivity.
Qed.

Lemma renumber_oneLine (line : string) (n : nat) :
  Redoc.oneLine line -> Redoc.oneLine (Redoc.renumber line n).
Proof.
  intros Hline. destruct (renumber_cases line n) as [-> | (rest & -> & _ & Hin)];
    [ exact Hline | ].
  unfold Redoc.oneLine.
  change (chars (String "#" (natToString n ^^ str rest)))
    with ("#"%char :: chars (natToString n ^^ str rest)).
  rewrite chars_append, chars_str.
  intros [H | H]; [ discriminate H | ].
  apply in_app_or in H. destruct H as [H | H].
  - pose proof (natToString_digits n) as Hd.
    rewrite forallb_forall in Hd. specialize (Hd _ H). discriminate Hd.
  - apply Hline. now apply Hin.
Qed.

(** A line is kept, or it is a record line with its number replaced. *)
Lemma redocLine_shape (st : Redoc.Loop) (line : string) :
  exists line',
    Redoc.updatedLines (Redoc.redocLine st line)
    = Redoc.updatedLines st ++ [line']
    /\ (line' = line
        \/ (Redoc.inRecordsSection st = true
            /\ startsWith (trim line) "#" = true
            /\ line' = Redoc.renumber line (Redoc.newDocNumber st))).
Proof.
  unfold Redoc.redocLine.
  destruct (trim line =? "@records"); [ exists line; now split; [ | left ] | ].
  destruct ((trim line =? "@end") && Redoc.inRecordsSection st);
    [ exists line; now split; [ | left ] | ].
  destruct (Redoc.inRecordsSection st) eqn:Hin; cbn [andb];
    [ | exists line; now split; [ | left ] ].
  destruct (startsWith (trim line) "#") eqn:Hs;
    [ | exists line; now split; [ | left ] ].
  eexists. split; [ reflexivity | ]. right. now repeat split.
Qed.

Lemma redocLoop_app (st : Redoc.Loop) (a b : list string) :
  Redoc.redocLoop st (a ++ b) = Redoc.redocLoop (Redoc.redocLoop st a) b.
Proof. apply fold_left_app. Qed.

Lemma redocLoop_shape (lines : list string) :
  forall st,
  exists out,
    Redoc.updatedLines (Redoc.redocLoop st lines)
    = Redoc.updatedLines st ++ out
    /\ Forall2 (fun old new =>
                  new = old
                  \/ (startsWith (trim old) "#" = true
                      /\ exists n, new = Redoc.renumber old n))
               lines out.
Proof.
  induction lines as [| line lines IH]; intros st.
  - exists []. split; [ now rewrite app_nil_r | constructor ].
  - cbn [Redoc.redocLoop fold_left]. fold (Redoc.redocLoop (Redoc.redocLine st line) lines).
    destruct (IH (Redoc.redocLine st line)) as (out & Hout & Hall).
    destruct (redocLine_shape st line) as (line' & Hline & Hcase).
    exists (line' :: out). split.
    + rewrite Hout, Hline, <- app_assoc. reflexivity.
    + constructor; [ | exact Hall ].
      destruct Hcase as [-> | (_ & Hs & ->)]; [ now left | right ].
      split; [ exact Hs | now eexists ].
Qed.

Lemma hash_is_no_marker (t : string) :
  (String "#" t =? "@records") = false
  /\ (String "#" t =? "@end") = false
  /\ startsWith (String "#" t) "#" = true.
Proof.
  split; [ reflexivity | split; [ reflexivity | ] ].
  unfold startsWith. rewrite prefix_same_head. apply prefix_empty.
Qed.

(** The line that a turn pushes is pushed again, with the same changes
    to the locals, by a turn that starts with the same locals. *)
Lemma redocLine_again (st st2 : Redoc.Loop) (line : string) :
  Redoc.inRecordsSection st2 = Redoc.inRecordsSection st ->
  Redoc.newDocNumber st2 = Redoc.newDocNumber st ->
  exists line',
    Redoc.updatedLines (Redoc.redocLine st line)
    = Redoc.updatedLines st ++ [line']
    /\ Redoc.redocLine st2 line'
       = Redoc.mkLoop
           (Redoc.inRecordsSection (Redoc.redocLine st line))
           (Redoc.newDocNumber (Redoc.redocLine st line))
           (Redoc.updatedLines st2 ++ [line']).
Proof.
  intros Hin Hn. unfold Redoc.redocLine. rewrite Hin, Hn.
  destruct (trim line =? "@records") eqn:E1.
  { exists line. cbn [Redoc.updatedLines]. split; [ reflexivity | ].
    now rewrite E1. }
  destruct ((trim line =? "@end") && Redoc.inRecordsSection st) eqn:E2.
  { exists line. cbn [Redoc.updatedLines]. split; [ reflexivity | ].
    now rewrite E1, E2. }
  destruct (Redoc.inRecordsSection st && startsWith (trim line) "#") eqn:E3.
  2:{ exists line. cbn [Redoc.updatedLines]. split; [ reflexivity | ].
      now rewrite E1, E2, E3. }
  exists (Redoc.renumber line (Redoc.newDocNumber st)).
  cbn [Redoc.updatedLines Redoc.inRecordsSection Redoc.newDocNumber].
  split; [ reflexivity | ].
  apply andb_true_iff in E3. destruct E3 as [Hrec Hs]. rewrite Hrec in *.
  destruct (renumber_cases line (Redoc.newDocNumber st))
    as [Hsame | (rest & Hnew & Hrest & _)].
  - rewrite Hsame, E1, E2, Hs. cbn [andb]. now rewrite Hsame.
  - rewrite Hnew. destruct (trim_hash (natToString (Redoc.newDocNumber st)
                                        ^^ str rest)) as (t & ->).
    destruct (hash_is_no_marker t) as (-> & -> & ->). cbn [andb].
    now rewrite (renumber_again _ _ Hrest).
Qed.

Lemma redocLoop_again (lines : list string) :
  forall st,
  exists out,
    Redoc.updatedLines (Redoc.redocLoop st lines)
    = Redoc.updatedLines st ++ out
    /\ forall st2,
         Redoc.inRecordsSection st2 = Redoc.inRecordsSection st ->
         Redoc.newDocNumber st2 = Redoc.newDocNumber st ->
         Redoc.redocLoop st2 out
         = Redoc.mkLoop
             (Redoc.inRecordsSection (Redoc.redocLoop st lines))
             (Redoc.newDocNumber (Redoc.redocLoop st lines))
             (Redoc.updatedLines st2 ++ out).
Proof.
  induction lines as [| line lines IH]; intros st.
  - exists []. split; [ now rewrite app_nil_r | ].
    intros st2 Hin Hn. cbn [Redoc.redocLoop fold_left].
    rewrite app_nil_r, <- Hin, <- Hn. now destruct st2.
  - cbn [Redoc.redocLoop fold_left].
    fold (Redoc.redocLoop (Redoc.redocLine st line) lines).
    destruct (IH (Redoc.redocLine st line)) as (out & Hout & Hagain).
    destruct (redocLine_again st st line eq_refl eq_refl)
      as (line' & Hline & _).
    exists (line' :: out). split.
    + rewrite Hout, Hline, <- app_assoc. reflexivity.
    + intros st2 Hin Hn. cbn [Redoc.redocLoop fold_left].
      fold (Redoc.redocLoop (Redoc.redocLine st2 line') out).
      destruct (redocLine_again st st2 line Hin Hn) as (l2 & Hl2 & Hstep).
      assert (l2 = line') as ->.
      { rewrite Hline in Hl2. apply app_inv_head in Hl2. congruence. }
      rewrite Hstep, Hagain by reflexivity.
      cbn [Redoc.updatedLines]. now rewrite <- app_assoc.
Qed.

Lemma redocLines_again (lines : list string) :
  Redoc.redocLines (Redoc.redocLines lines) = Redoc.redocLines lines.
Proof.
  unfold Redoc.redocLines.
  destruct (redocLoop_again lines (Redoc.mkLoop false 0 []))
    as (out & Hout & Hagain).
  cbn [Redoc.updatedLines app] in Hout. rewrite Hout.
  now rewrite (Hagain (Redoc.mkLoop false 0 []) eq_refl eq_refl).
Qed.

Lemma redocLines_shape (lines : list string) :
  Forall2 (fun old new =>
             new = old
             \/ (startsWith (trim old) "#" = true
                 /\ exists n, new = Redoc.renumber old n))
          lines (Redoc.redocLines lines).
Proof.
  unfold Redoc.redocLines.
  destruct (redocLoop_shape lines (Redoc.mkLoop false 0 []))
    as (out & Hout & Hall).
  cbn [Redoc.updatedLines app] in Hout. now rewrite Hout.
Qed.

Lemma redocLines_oneLine (lines : list string) :
  Forall Redoc.oneLine lines -> Forall Redoc.oneLine (Redoc.redocLines lines).
Proof.
  intros Hall. pose proof (redocLines_shape lines) as H.
  induction H as [| old new olds news Hcase _ IH]; [ constructor | ].
  inversion Hall; subst. constructor; [ | now apply IH ].
  destruct Hcase as [-> | (_ & n & ->)];
    [ assumption | now apply renumber_oneLine ].
Qed.

Lemma redocLines_nonempty (lines : list string) :
  lines <> [] -> Redoc.redocLines lines <> [].
Proof.
  intros Hne. pose proof (redocLines_shape lines) as H.
  destruct H; [ now elim Hne | discriminate ].
Qed.

Lemma split_updatedContent (content : string) :
  split (Redoc.updatedContent content) Redoc.lineFeed
  = Redoc.redocLines (split content Redoc.lineFeed).
Proof.
  unfold Redoc.updatedContent. apply split_join.
  - apply redocLines_nonempty. apply split_go_nonempty.
  - apply redocLines_oneLine, split_oneLine.
Qed.

(** X22. [redoc] keeps the lines of a text in number and in place: each
    line of its result is the line of the text at the same place, or,
    for a line whose trimmed text begins with [#], that line with the
    number after a leading [#] replaced. *)
Theorem redoc_keeps_other_lines (content : string) :
  Forall2 (fun old new =>
             new = old
             \/ (startsWith (trim old) "#" = true
                 /\ exists n, new = Redoc.renumber old n))
          (split content Redoc.lineFeed)
          (split (Redoc.updatedContent content) Redoc.lineFeed).
Proof. rewrite split_updatedContent. apply redocLines_shape. Qed.

(** X23. Renumbering is idempotent: [redoc] applied to its own result
    gives that result. *)
Theorem redoc_idempotent (content : string) :
  Redoc.updatedContent (Redoc.updatedContent content)
  = Redoc.updatedContent content.
Proof.
  unfold Redoc.updatedContent at 1. rewrite split_updatedContent.
  now rewrite redocLines_again.
Qed.

Lemma redocLoop_outside (lines : list string) :
  forall n out,
    Forall (fun l => Redoc.opensRecords l = false) lines ->
    Redoc.redocLoop (Redoc.mkLoop false n out) lines
    = Redoc.mkLoop false n (out ++ lines).
Proof.
  induction lines as [| line lines IH]; intros n out Hall.
  - cbn [Redoc.redocLoop fold_left]. now rewrite app_nil_r.
  - inversion Hall as [| ? ? Hline Hrest]; subst.
    cbn [Redoc.redocLoop fold_left].
    fold (Redoc.redocLoop (Redoc.redocLine (Redoc.mkLoop false n out) line) lines).
    unfold Redoc.redocLine at 1. unfold Redoc.opensRecords in Hline.
    rewrite Hline. cbn [Redoc.inRecordsSection Redoc.newDocNumber
      Redoc.updatedLines andb]. rewrite andb_false_r.
    rewrite (IH _ _ Hrest), <- app_assoc. reflexivity.
Qed.

(** X24. A text none of whose lines is [@records] (after trimming) is
    returned by [redoc] as it is, whatever [#] lines it has. *)
Theorem redoc_without_records_is_identity (content : string) :
  Forall (fun l => Redoc.opensRecords l = false)
         (split content Redoc.lineFeed) ->
  Redoc.updatedContent content = content.
Proof.
  intros Hall. unfold Redoc.updatedContent, Redoc.redocLines.
  rewrite (redocLoop_outside _ 0 [] Hall). cbn [Redoc.updatedLines app].
  apply join_split.
Qed.

Lemma redoc_without_records_is_identity_witness :
  Redoc.updatedContent ("@schema" ^^ Redoc.lineFeed ^^ "#4 -> x")
  = "@schema" ^^ Redoc.lineFeed ^^ "#4 -> x".
Proof.
  apply redoc_without_records_is_identity.
  repeat constructor.
Defined.

Lemma hash_line_is_record (line : string) :
  startsWith (trim line) "#" = true ->
  (trim line =? "@records") = false /\ (trim line =? "@end") = false.
Proof.
  unfold startsWith. destruct (trim line) as [| c t]; [ discriminate | ].
  cbn [String.prefix]. destruct (ascii_dec "#" c) as [<- | _];
    [ | discriminate ].
  intros _. split; reflexivity.
Qed.

(** X25. Inside a records section the lines that begin with [#] are
    numbered in order from the counter, one number each, whether or not
    the line had a number to replace. *)
Theorem records_numbered_in_order (recs : list string) :
  forall (n : nat) (out : list string),
    Forall (fun l => startsWith (trim l) "#" = true) recs ->
    Redoc.redocLoop (Redoc.mkLoop true n out) recs
    = Redoc.mkLoop true (n + length recs)
        (out ++ map (fun p => Redoc.renumber (snd p) (fst p))
                    (combine (List.seq n (length recs)) recs)).
Proof.
  induction recs as [| line recs IH]; intros n out Hall.
  - cbn [Redoc.redocLoop fold_left length List.seq combine map].
    now rewrite app_nil_r, Nat.add_0_r.
  - inversion Hall as [| ? ? Hline Hrest]; subst.
    cbn [Redoc.redocLoop fold_left].
    fold (Redoc.redocLoop (Redoc.redocLine (Redoc.mkLoop true n out) line) recs).
    unfold Redoc.redocLine at 1.
    destruct (hash_line_is_record _ Hline) as (-> & ->). rewrite Hline.
    cbn [Redoc.inRecordsSection Redoc.newDocNumber Redoc.updatedLines andb].
    rewrite (IH _ _ Hrest).
    cbn [length List.seq combine map fst snd].
    rewrite <- app_assoc. cbn [app].
    replace (n + 1 + length recs) with (n + S (length recs)) by lia.
    replace (n + 1) with (S n) by lia. reflexivity.
Qed.

Lemma records_numbered_in_order_witness :
  Redoc.redocLoop (Redoc.mkLoop true 5 []) ["#9 -> a"; "  #x"; "#0b"]
  = Redoc.mkLoop true 8 ["#5 -> a"; "  #x"; "#7b"].
Proof.
  apply (records_numbered_in_order ["#9 -> a"; "  #x"; "#0b"] 5 []).
  repeat constructor.
Defined.

(** X26. A number after a leading [#] is replaced whole, however many
    digits it has, and what follows it is kept. *)
Theorem renumber_replaces_number (digits : list ascii) (rest : string)
        (n : nat) :
  digits <> [] ->
  forallb isDigit digits = true ->
  takeWhile isDigit (chars rest) = [] ->
  Redoc.renumber ("#" ^^ str digits ^^ rest) n
  = "#" ^^ natToString n ^^ rest.
Proof.
  intros Hne Hdigits Hrest. unfold Redoc.renumber.
  change (chars ("#" ^^ str digits ^^ rest))
    with ("#"%char :: chars (str digits ^^ rest)).
  change (Ascii.eqb "#" "#") with true. cbv iota.
  rewrite chars_append, chars_str.
  rewrite (takeWhile_app_all _ _ _ Hdigits), Hrest, app_nil_r.
  rewrite (dropWhile_app_all _ _ _ Hdigits), (dropWhile_none _ _ Hrest).
  rewrite str_chars.
  destruct digits; [ now elim Hne | reflexivity ].
Qed.

Lemma renumber_replaces_number_witness :
  Redoc.renumber "#0042 -> x" 7 = "#7 -> x".
Proof.
  apply (renumber_replaces_number ["0"; "0"; "4"; "2"]%char " -> x" 7);
    [ discriminate | reflexivity | reflexivity ].
Defined.

(** X27. [redoc] returns its result only for a [content] that is not
    empty. An empty [content] is not read from the file, yet its result,
    the empty text, is written to the file; without [content] the
    renumbered text of the file is written. *)
Theorem redoc_outcomes (content : option string) (file : string) :
  match Redoc.redoc content file with
  | Redoc.Returned text =>
      exists c, content = Some c /\ c <> "" /\ text = Redoc.updatedContent c
  | Redoc.Written text =>
      (content = None /\ text = Redoc.updatedContent file)
      \/ (content = Some "" /\ text = "")
  end.
Proof.
  unfold Redoc.redoc. destruct content as [c |]; [ | now left ].
  destruct (c =? "") eqn:E.
  - apply String.eqb_eq in E. subst c. now right.
  - apply String.eqb_neq in E. now exists c.
Qed.

